(** * Rotation and watch-time scheduling of the channel support bot

    A shallow embedding of the scheduling logic of the support service:
    the channel rotation of [SupportService.startSupporting], the visit
    of [SupportService.supportChannel], the watch-time calculator and
    the watch loop of [VideoService], the comment rotation of
    [EngagementService], the settings loader of [DataService] and the
    settings editors of [SupportSettingsMenuHandler].

    Modelling conventions.
    - A JavaScript number that takes part in inexact arithmetic (a video
      duration, a watch time) is an IEEE 754 binary64 value, given by the
      Standard Library's [spec_float] with [prec = 53], [emax = 1024].
    - Counters, indices and the integer settings are [Z]: on integers
      below [2^53] the binary64 operations used on them ([+ 1], [%],
      comparisons) are exact.
    - Arrays are lists; an array of objects that is mutated through
      aliases is a list of records (the objects, at their position in the
      array that owns them) and the aliases are positions in it.
    - The browser, the keyboard, the clock and the disk are scripts
      (oracles) passed as arguments; a call that may throw returns an
      [outcome].
    - [supportChannel] calls [getNextComment] on the engagement service,
      whose class among the sources does not define it.  The method is an
      optional part of the visit script: absent, as found, the call
      throws; present, it is any selector, the one that the
      specification describes being [EngagementService.getNextComment]. *)

From Stdlib Require Import ZArith Lia Ascii String SpecFloat.
From stdpp Require Import base numbers list strings.

#[local] Open Scope Z_scope.

(** ** Binary64 numbers *)

Module Num.

Definition number : Type := spec_float.

Definition prec : Z := 53.
Definition emax : Z := 1024.

(** The number denoted by an integer literal or an integer field. *)
Definition ofZ (z : Z) : number := binary_normalize prec emax z 0 false.

Definition mul (x y : number) : number := SFmul prec emax x y.
Definition div (x y : number) : number := SFdiv prec emax x y.

(** [x < y] and [x <= y]; both are false when an operand is NaN. *)
Definition ltb (x y : number) : bool := SFltb x y.
Definition leb (x y : number) : bool := SFleb x y.

(** [Math.floor]: the largest integer not above [x]; zeros, infinities
    and NaN are returned unchanged. *)
Definition Math_floor (x : number) : number :=
  match x with
  | S754_finite s m e =>
      if 0 <=? e then x
      else ofZ (Z.shiftr (cond_Zopp s (Z.pos m)) (- e))
  | _ => x
  end.

(** [Math.min] and [Math.max] on two arguments: NaN is contagious and
    [-0] is smaller than [+0]. *)
Definition Math_min (x y : number) : number :=
  match SFcompare x y with
  | None => S754_nan
  | Some Lt => x
  | Some Gt => y
  | Some Eq =>
      match x, y with
      | S754_zero sx, S754_zero sy => S754_zero (sx || sy)
      | _, _ => x
      end
  end.

Definition Math_max (x y : number) : number :=
  match SFcompare x y with
  | None => S754_nan
  | Some Lt => y
  | Some Gt => x
  | Some Eq =>
      match x, y with
      | S754_zero sx, S754_zero sy => S754_zero (sx && sy)
      | _, _ => x
      end
  end.

(** A finite, strictly positive binary64 value in canonical form. *)
Definition positive_finite (x : number) : Prop :=
  match x with
  | S754_finite false m e => bounded prec emax m e = true
  | _ => False
  end.

(** [m1 * 2^e1 <= m2 * 2^e2], stated over the integers. *)
Definition dyadic_le (m1 e1 m2 e2 : Z) : Prop :=
  m1 * 2 ^ (e1 - Z.min e1 e2) <= m2 * 2 ^ (e2 - Z.min e1 e2).

(** [r] is [+0] or a positive finite number that is structurally and
    numerically at most [my * 2^ey]. *)
Definition below (my : positive) (ey : Z) (r : number) : Prop :=
  r = S754_zero false \/
  exists m e, r = S754_finite false m e /\
              -1074 <= e <= ey /\
              Z.pos m <= Z.pos my * 2 ^ (ey - e) /\
              Z.pos (digits2_pos m) <= 53.

(** [+0] or a positive finite number. *)
Definition nonneg (x : number) : Prop :=
  match x with
  | S754_zero false | S754_finite false _ _ => True
  | _ => False
  end.

(** A fraction in [[2^-n, 1]] with a full 53-bit mantissa: the shape of
    [p / 100] for every percentage [p] of the settings. *)
Definition unit_fraction (q : number) : bool :=
  match q with
  | S754_finite false mq eq =>
      (eq <=? 0) && (2 ^ 52 <=? Z.pos mq) && (Z.pos mq <=? 2 ^ (- eq))
  | _ => false
  end.

End Num.

Export Num.

(** ** Results of calls that may throw *)

Inductive outcome (A : Type) : Type :=
| Returns (a : A)
| Throws.
Arguments Returns {A} a.
Arguments Throws {A}.

(** ** Arrays *)

Module JsArray.

(** The clamping of a relative index, as [Array.prototype.slice] does. *)
Definition relativeIndex (len i : Z) : Z :=
  if i <? 0 then Z.max (len + i) 0 else Z.min i len.

(** [l.slice(start)] is [slice l start None], [l.slice(start, end)] is
    [slice l start (Some end)]. *)
Definition slice {A} (l : list A) (start : Z) (end_ : option Z) : list A :=
  let len := Z.of_nat (length l) in
  let k := relativeIndex len start in
  let final := match end_ with
               | None => len
               | Some e => relativeIndex len e
               end in
  take (Z.to_nat (final - k)) (drop (Z.to_nat k) l).

(** [l.findIndex(p)]: the first index whose element satisfies [p], or [-1]. *)
Fixpoint findIndexFrom {A} (p : A -> bool) (l : list A) (i : Z) : Z :=
  match l with
  | [] => -1
  | x :: l' => if p x then i else findIndexFrom p l' (i + 1)
  end.

Definition findIndex {A} (p : A -> bool) (l : list A) : Z := findIndexFrom p l 0.

(** [l[i]], which is [undefined] out of range. *)
Definition at_ {A} (l : list A) (i : Z) : option A :=
  if i <? 0 then None else l !! Z.to_nat i.

End JsArray.

(** ** Data model *)

Record ChannelRecord : Type := {
  id : string;
  name : string;
  url : string;
  addedOn : string;
  supportCount : Z;
  lastSupported : option string
}.

(** The settings object.  The six fields of the default object are always
    present; the rotation fields are written by nothing but the run itself
    or a hand-edited file, so they may be absent ([None] is [undefined]).
    [_commentIndexUpdated] is the temporary flag of [supportChannel];
    [false] stands for its absence. *)
Record Settings : Type := {
  watchTimePercentage : Z;
  minWatchTimeSeconds : Z;
  maxWatchTimeSeconds : Z;
  likeVideos : bool;
  subscribeToChannels : bool;
  pauseBetweenChannelsSeconds : Z;
  rotateChannels : option bool;
  lastChannelIndex : option Z;
  lastCommentIndex : option Z;
  _commentIndexUpdated : bool
}.

Record VideoDetails : Type := {
  title : string;
  durationSeconds : number;
  isLive : bool
}.

Definition set_lastChannelIndex (v : Z) (s : Settings) : Settings :=
  {| watchTimePercentage := watchTimePercentage s;
     minWatchTimeSeconds := minWatchTimeSeconds s;
     maxWatchTimeSeconds := maxWatchTimeSeconds s;
     likeVideos := likeVideos s;
     subscribeToChannels := subscribeToChannels s;
     pauseBetweenChannelsSeconds := pauseBetweenChannelsSeconds s;
     rotateChannels := rotateChannels s;
     lastChannelIndex := Some v;
     lastCommentIndex := lastCommentIndex s;
     _commentIndexUpdated := _commentIndexUpdated s |}.

Definition set_lastCommentIndex (v : Z) (s : Settings) : Settings :=
  {| watchTimePercentage := watchTimePercentage s;
     minWatchTimeSeconds := minWatchTimeSeconds s;
     maxWatchTimeSeconds := maxWatchTimeSeconds s;
     likeVideos := likeVideos s;
     subscribeToChannels := subscribeToChannels s;
     pauseBetweenChannelsSeconds := pauseBetweenChannelsSeconds s;
     rotateChannels := rotateChannels s;
     lastChannelIndex := lastChannelIndex s;
     lastCommentIndex := Some v;
     _commentIndexUpdated := _commentIndexUpdated s |}.

Definition set_commentIndexUpdated (b : bool) (s : Settings) : Settings :=
  {| watchTimePercentage := watchTimePercentage s;
     minWatchTimeSeconds := minWatchTimeSeconds s;
     maxWatchTimeSeconds := maxWatchTimeSeconds s;
     likeVideos := likeVideos s;
     subscribeToChannels := subscribeToChannels s;
     pauseBetweenChannelsSeconds := pauseBetweenChannelsSeconds s;
     rotateChannels := rotateChannels s;
     lastChannelIndex := lastChannelIndex s;
     lastCommentIndex := lastCommentIndex s;
     _commentIndexUpdated := b |}.

(** ** The disk: three JSON documents *)

Inductive file (A : Type) : Type :=
| Absent
| Unreadable
| Content (a : A).
Arguments Absent {A}.
Arguments Unreadable {A}.
Arguments Content {A} a.

Record Disk : Type := {
  channelsFile : file (list ChannelRecord);
  commentsFile : file (list string);
  settingsFile : file Settings
}.

Module DataService.

Definition loadChannels (d : Disk) : list ChannelRecord :=
  match channelsFile d with
  | Content cs => cs
  | Absent | Unreadable => []
  end.

Definition loadComments (d : Disk) : list string :=
  match commentsFile d with
  | Content cs => cs
  | Absent | Unreadable => []
  end.

Definition defaultSettings : Settings :=
  {| watchTimePercentage := 70;
     minWatchTimeSeconds := 60;
     maxWatchTimeSeconds := 600;
     likeVideos := true;
     subscribeToChannels := true;
     pauseBetweenChannelsSeconds := 30;
     rotateChannels := None;
     lastChannelIndex := None;
     lastCommentIndex := None;
     _commentIndexUpdated := false |}.

Definition loadSettings (d : Disk) : Settings :=
  match settingsFile d with
  | Content s => s
  | Absent | Unreadable => defaultSettings
  end.

(** [writeJson] inside [try]/[catch]: a failed write ([ok = false]) is
    logged and leaves the document as it was. *)
Definition saveChannels (ok : bool) (channels : list ChannelRecord) (d : Disk) : Disk :=
  if ok then {| channelsFile := Content channels;
                commentsFile := commentsFile d;
                settingsFile := settingsFile d |}
  else d.

Definition saveSettings (ok : bool) (settings : Settings) (d : Disk) : Disk :=
  if ok then {| channelsFile := channelsFile d;
                commentsFile := commentsFile d;
                settingsFile := Content settings |}
  else d.

End DataService.

(** ** The video service: watch-time calculator and watch loop *)

Module VideoService.

(** [calculateWatchTime(videoDetails, settings)]. *)
Definition calculateWatchTime (videoDetails : VideoDetails) (settings : Settings) : number :=
  let watchTimePercentage := div (ofZ (watchTimePercentage settings)) (ofZ 100) in
  let targetWatchTime :=
    Math_floor (mul (durationSeconds videoDetails) watchTimePercentage) in
  Math_max
    (Math_min (ofZ (minWatchTimeSeconds settings)) (durationSeconds videoDetails))
    (Math_min targetWatchTime (ofZ (maxWatchTimeSeconds settings))).

(** What one poll of the page reports.  When the video element is gone
    the page returns an object with none of these fields: [videoId] is
    then [None] and the flags are false. *)
Record VideoState : Type := {
  videoId : option string;
  hasEnded : bool;
  isNearEnd : bool;
  isPaused : bool
}.

(** The browser during one call of [watchVideo]: the scroll-and-play
    evaluation, the evaluation that reads the initial video identifier,
    the [k]-th poll and the [k]-th resume attempt. *)
Record WatchScript : Type := {
  ws_start : outcome unit;
  ws_initialVideoId : outcome string;
  ws_poll : nat -> outcome VideoState;
  ws_resume : nat -> outcome unit
}.

(** How the [while] loop was left. *)
Inductive LoopExit : Type :=
| TargetReached   (* the loop condition became false *)
| VideoChanged    (* [break]: the video identifier changed *)
| VideoEnded.     (* [break]: ended or within 5 seconds of the end *)

Definition checkInterval : Z := 10.

(** The [while (elapsedSeconds < watchTimeSeconds)] loop; [k] counts the
    polls made so far.  [None]: the fuel ran out. *)
Fixpoint watchLoop (fuel : nat) (w : WatchScript) (initialVideoId : string)
    (watchTimeSeconds : number) (k : nat) (elapsedSeconds : Z)
    : option (outcome LoopExit) :=
  if negb (ltb (ofZ elapsedSeconds) watchTimeSeconds) then Some (Returns TargetReached)
  else
    match fuel with
    | O => None
    | S fuel' =>
        match ws_poll w k with
        | Throws => Some Throws
        | Returns videoState =>
            if negb (bool_decide (videoId videoState = Some initialVideoId))
               && negb (String.eqb initialVideoId "")
            then Some (Returns VideoChanged)
            else if hasEnded videoState || isNearEnd videoState
            then Some (Returns VideoEnded)
            else
              match (if isPaused videoState then ws_resume w k else Returns tt) with
              | Throws => Some Throws
              | Returns _ =>
                  watchLoop fuel' w initialVideoId watchTimeSeconds (S k)
                    (elapsedSeconds + checkInterval)
              end
        end
    end.

(** [watchVideo(page, watchTimeSeconds)]: [true] when the loop was left
    normally, [false] when anything inside the [try] threw. *)
Definition watchVideo (fuel : nat) (w : WatchScript) (watchTimeSeconds : number)
    : option bool :=
  match ws_start w with
  | Throws => Some false
  | Returns _ =>
      match ws_initialVideoId w with
      | Throws => Some false
      | Returns initialVideoId =>
          match watchLoop fuel w initialVideoId watchTimeSeconds 0 0 with
          | None => None
          | Some Throws => Some false
          | Some (Returns _) => Some true
          end
      end
  end.

End VideoService.

(** ** The legacy watch-time computation kept beside the modular one *)

Module LegacySupportService.

(** The arithmetic of [getVideoWatchTime(page, settings)], once the video
    details are known. *)
Definition getVideoWatchTime (videoDetails : VideoDetails) (settings : Settings) : number :=
  let watchTime :=
    Math_floor (div (mul (durationSeconds videoDetails)
                         (ofZ (watchTimePercentage settings)))
                    (ofZ 100)) in
  Math_max (ofZ (minWatchTimeSeconds settings))
           (Math_min watchTime (ofZ (maxWatchTimeSeconds settings))).

End LegacySupportService.

(** ** The engagement service: the comment selector *)

Module EngagementService.

Record CommentResult : Type := {
  comment : option string;   (* [None] is [undefined] *)
  index : Z;
  isRotated : bool
}.

(** Modelled from the spec: [getNextComment(comments, settings)] is called
    by [supportChannel] but the engagement service among the sources does
    not define it.  The spec's rotation mode: [nextIndex =
    (lastCommentIndex + 1) mod comments.length]; the result is
    [{ comment: comments[nextIndex], index: nextIndex, isRotated: true }].
    The spec gives [lastCommentIndex] the range [>= -1]; a settings object
    without the field is read as [-1], the state before any rotation. *)
Definition getNextComment (comments : list string) (settings : Settings) : CommentResult :=
  let nextIndex :=
    (default (-1) (lastCommentIndex settings) + 1) mod Z.of_nat (length comments) in
  {| comment := JsArray.at_ comments nextIndex;
     index := nextIndex;
     isRotated := true |}.

End EngagementService.

(** ** The support service: one visit and the run over all channels *)

Module SupportService.
Import VideoService EngagementService.

(** What a run does to the outside world, in order. *)
Inductive event : Type :=
| Goto (url : string)             (* [page.goto] *)
| Subscribe
| Like
| LeaveComment (text : option string)
| Console (message : string)      (* the messages of the precondition checks *)
| StartFromIndex (startIndex : Z) (* "Starting from channel index ..." *)
| StartFromFirst.                 (* "Starting from the first channel" *)

(** The browser and the engagement service during one visit.
    [navigateToChannelVideos], [findLatestVideo], [skipAdsIfPresent],
    [getVideoDetails], [subscribeToChannel], [likeVideo], [leaveComment]
    and [watchVideo] catch their own errors; the [page.goto] of the video
    and the call of [getNextComment] can throw into [supportChannel].

    [vs_getNextComment] is the method [getNextComment] of
    [this.engagementService].  The class [EngagementService] among the
    sources defines no such method: that is [None], and the call throws a
    [TypeError] inside the [try] of [supportChannel].  [Some f] is an
    engagement service that has the method, [f] being what the call
    returns at this visit (a selector that draws at random may return
    differently from visit to visit). *)
Record VisitScript : Type := {
  vs_page : bool;                            (* [this.browser.page] is set *)
  vs_gotoChannel : outcome unit;             (* [page.goto(videosUrl)] *)
  vs_latestVideo : outcome (option string);  (* the evaluation in [findLatestVideo] *)
  vs_gotoVideo : outcome unit;               (* [page.goto(videoUrl)] *)
  vs_details : VideoDetails;                 (* result of [getVideoDetails] *)
  vs_getNextComment : option (list string -> Settings -> CommentResult);
  vs_watch : WatchScript
}.

Definition navigateToChannelVideos (v : VisitScript) : bool :=
  match vs_gotoChannel v with
  | Returns _ => true
  | Throws => false
  end.

(** [None] is [null]; an empty URL is falsy as well. *)
Definition findLatestVideo (v : VisitScript) : option string :=
  match vs_latestVideo v with
  | Returns (Some videoUrl) => if String.eqb videoUrl "" then None else Some videoUrl
  | Returns None | Throws => None
  end.

(** The comment step of [supportChannel]: select the comment and, when it
    was selected by rotation, record its index and flag the settings for
    saving. *)
Definition selectComment (comments : list string) (settings : Settings)
    : CommentResult * Settings :=
  let commentResult := getNextComment comments settings in
  (commentResult,
   if isRotated commentResult
   then set_commentIndexUpdated true
          (set_lastCommentIndex (index commentResult) settings)
   else settings).

(** The comments left by [k] successive visits, each starting from the
    settings the previous one left behind. *)
Fixpoint rotationCalls (k : nat) (comments : list string) (settings : Settings)
    : list (option string) :=
  match k with
  | O => []
  | S k' =>
      let '(commentResult, settings') := selectComment comments settings in
      comment commentResult :: rotationCalls k' comments settings'
  end.

(** What [supportChannel] does to the settings with the result of the
    selector: [if (commentResult.isRotated) { settings.lastCommentIndex =
    commentResult.index; settings._commentIndexUpdated = true; }]. *)
Definition recordComment (commentResult : CommentResult) (settings : Settings)
    : Settings :=
  if isRotated commentResult
  then set_commentIndexUpdated true
         (set_lastCommentIndex (index commentResult) settings)
  else settings.

(** [supportChannel(channel, settings, comments)]: the success status, the
    settings object as the visit left it, and the events of the visit.
    [None]: the watch loop ran out of fuel.  A throw inside the [try], of
    the navigation to the video or of the call of a [getNextComment] that
    the engagement service does not have, is caught and gives [false];
    by then the visit has subscribed and liked. *)
Definition supportChannel (fuel : nat) (v : VisitScript) (channel : ChannelRecord)
    (settings : Settings) (comments : list string)
    : option (bool * Settings * list event) :=
  if negb (vs_page v) then Some (false, settings, [])
  else
    let ev1 := [Goto (url channel +:+ "/videos")] in
    if negb (navigateToChannelVideos v) then Some (false, settings, ev1)
    else
      match findLatestVideo v with
      | None => Some (false, settings, ev1)
      | Some videoUrl =>
          let ev2 := ev1 ++ [Goto videoUrl] in
          match vs_gotoVideo v with
          | Throws => Some (false, settings, ev2)
          | Returns _ =>
              let videoDetails := vs_details v in
              let watchTime := calculateWatchTime videoDetails settings in
              let ev3 := ev2 ++ (if subscribeToChannels settings then [Subscribe] else [])
                             ++ (if likeVideos settings then [Like] else []) in
              match vs_getNextComment v with
              | None => Some (false, settings, ev3)
              | Some getNextComment =>
                  let commentResult := getNextComment comments settings in
                  let settings' := recordComment commentResult settings in
                  let ev4 := ev3 ++ [LeaveComment (comment commentResult)] in
                  match watchVideo fuel (vs_watch v) watchTime with
                  | None => None
                  | Some _ => Some (true, settings', ev4)
                  end
              end
          end
      end.

(** [settings.rotateChannels && settings.lastChannelIndex >= 0]: an
    absent field is falsy, and [undefined >= 0] is false. *)
Definition resumesRotation (settings : Settings) : bool :=
  match rotateChannels settings, lastChannelIndex settings with
  | Some true, Some last => 0 <=? last
  | _, _ => false
  end.

(** [startIndex] of [startSupporting]; [%] is the truncating remainder. *)
Definition startIndex (length_ : Z) (settings : Settings) : Z :=
  match rotateChannels settings, lastChannelIndex settings with
  | Some true, Some last =>
      if 0 <=? last then Z.rem (last + 1) length_ else 0
  | _, _ => 0
  end.

(** [[...channels.slice(startIndex), ...channels.slice(0, startIndex)]]. *)
Definition reorderedChannels {A} (channels : list A) (settings : Settings) : list A :=
  let startIndex := startIndex (Z.of_nat (length channels)) settings in
  JsArray.slice channels startIndex None
    ++ JsArray.slice channels 0 (Some startIndex).

(** The outside world during one iteration of the channel loop; the
    answer is what [_getInputWithTimeout] resolves to (the default ["y"]
    after a timeout or an empty line). *)
Record Iteration : Type := {
  it_visit : VisitScript;
  it_now : string;                 (* [new Date().toISOString()] *)
  it_saveChannelsOk : bool;
  it_saveSettingsOk : bool;
  it_continue : string
}.

(** [answer.toLowerCase() === 'y']. *)
Definition is_yes (answer : string) : bool :=
  String.eqb answer "y" || String.eqb answer "Y".

(** The state of a run.  [rs_channels] holds the channel objects at their
    index in the [channels] array; [reorderedChannels] holds aliases of
    them, modelled as those indices. *)
Record RunState : Type := {
  rs_channels : list ChannelRecord;
  rs_settings : Settings;
  rs_disk : Disk;
  rs_supportCount : Z;
  rs_trace : list event
}.

Definition supported (now : string) (channel : ChannelRecord) : ChannelRecord :=
  {| id := id channel;
     name := name channel;
     url := url channel;
     addedOn := addedOn channel;
     supportCount := supportCount channel + 1;
     lastSupported := Some now |}.

(** The body of the channel loop up to the end of [if (success) ... else
    ...], for the channel object at position [c] of the array.  [None]:
    the watch loop ran out of fuel, or [c] is no position of the array. *)
Definition visitStep (fuel : nat) (it : Iteration) (comments : list string)
    (c : nat) (st : RunState) : option (bool * RunState) :=
  match rs_channels st !! c with
  | None => None
  | Some channel =>
      let originalIndex :=
        JsArray.findIndex (fun c' => String.eqb (id c') (id channel)) (rs_channels st) in
      match supportChannel fuel (it_visit it) channel (rs_settings st) comments with
      | None => None
      | Some (false, settings1, evs) =>
          Some (false, {| rs_channels := rs_channels st;
                          rs_settings := settings1;
                          rs_disk := rs_disk st;
                          rs_supportCount := rs_supportCount st;
                          rs_trace := rs_trace st ++ evs |})
      | Some (true, settings1, evs) =>
          let channels' := <[c := supported (it_now it) channel]> (rs_channels st) in
          let disk1 := DataService.saveChannels (it_saveChannelsOk it) channels' (rs_disk st) in
          let rotate := match rotateChannels settings1 with Some true => true | _ => false end in
          let settings2 :=
            if rotate then set_lastChannelIndex originalIndex settings1 else settings1 in
          let settingsUpdated := rotate || _commentIndexUpdated settings2 in
          let settings3 :=
            if _commentIndexUpdated settings2
            then set_commentIndexUpdated false settings2 else settings2 in
          let disk2 :=
            if settingsUpdated
            then DataService.saveSettings (it_saveSettingsOk it) settings3 disk1
            else disk1 in
          Some (true, {| rs_channels := channels';
                         rs_settings := settings3;
                         rs_disk := disk2;
                         rs_supportCount := rs_supportCount st + 1;
                         rs_trace := rs_trace st ++ evs |})
      end
  end.

(** The [for] loop over [reorderedChannels], from iteration [i] on. *)
Fixpoint visitLoop (fuel : nat) (iter : nat -> Iteration) (comments : list string)
    (queue : list nat) (i : nat) (st : RunState) : option RunState :=
  match queue with
  | [] => Some st
  | c :: queue' =>
      match visitStep fuel (iter i) comments c st with
      | None => None
      | Some (_, st') =>
          if is_yes (it_continue (iter i))
          then visitLoop fuel iter comments queue' (S i) st'
          else Some st'
      end
  end.

(** The outside world during one pass of [startSupporting]. *)
Record PassScript : Type := {
  ps_browser : bool;          (* [this.browser.browser] is set *)
  ps_authenticated : bool;    (* [this.browser.isAuthenticated] *)
  ps_confirm : string;        (* "Start supporting now?" *)
  ps_iter : nat -> Iteration;
  ps_restart : string         (* "Restart support process?" *)
}.

(** How a pass ended; [StillRunning] closes the list of a run that was
    observed up to its bound and goes on. *)
Inductive PassEnd : Type :=
| BrowserNotInitialized
| NotLoggedIn
| NoChannels
| NoComments
| Cancelled
| Completed (supportCount : Z)
| StillRunning.

Definition noChannelsMessage : string :=
  "No channels found! Please add some channels first.".
Definition noCommentsMessage : string :=
  "No comments found! Please add some comments first.".

(** [startSupporting()], which calls itself again when the operator (or
    the timeout) answers ["y"] to the restart question, possibly for ever;
    [pass] numbers the passes and [passes] bounds the passes that are
    observed.  Every callee inside the [try] handles its own errors, so the
    [catch] branch is not reached.  The result is the disk, the events and
    the end of every observed pass; [None]: a watch loop ran out of fuel. *)
Fixpoint startSupporting (passes fuel : nat) (script : nat -> PassScript)
    (pass : nat) (disk : Disk) : option (Disk * list event * list PassEnd) :=
  match passes with
  | O => Some (disk, [], [StillRunning])
  | S passes' =>
      let ps := script pass in
      if negb (ps_browser ps) then Some (disk, [], [BrowserNotInitialized])
      else if negb (ps_authenticated ps) then Some (disk, [], [NotLoggedIn])
      else
        let channels := DataService.loadChannels disk in
        let settings := DataService.loadSettings disk in
        let comments := DataService.loadComments disk in
        if (length channels =? 0)%nat
        then Some (disk, [Console noChannelsMessage], [NoChannels])
        else if (length comments =? 0)%nat
        then Some (disk, [Console noCommentsMessage], [NoComments])
        else if negb (is_yes (ps_confirm ps)) then Some (disk, [], [Cancelled])
        else
          let start :=
            if resumesRotation settings
            then StartFromIndex (startIndex (Z.of_nat (length channels)) settings)
            else StartFromFirst in
          let queue := reorderedChannels (seq 0 (length channels)) settings in
          let st0 := {| rs_channels := channels;
                        rs_settings := settings;
                        rs_disk := disk;
                        rs_supportCount := 0;
                        rs_trace := [start] |} in
          match visitLoop fuel (ps_iter ps) comments queue 0 st0 with
          | None => None
          | Some st =>
              if is_yes (ps_restart ps)
              then
                match startSupporting passes' fuel script (S pass) (rs_disk st) with
                | None => None
                | Some (disk', evs, ends) =>
                    Some (disk', rs_trace st ++ evs,
                          Completed (rs_supportCount st) :: ends)
                end
              else Some (rs_disk st, rs_trace st, [Completed (rs_supportCount st)])
          end
  end.

(** What every iteration keeps: the value of [rotateChannels], in the
    settings object and in the settings file, and the absence of a resumed
    rotation from the events. *)
Definition keeps (r : option bool) (st : RunState) : Prop :=
  rotateChannels (rs_settings st) = r /\
  rotateChannels (DataService.loadSettings (rs_disk st)) = r /\
  (forall k, StartFromIndex k ∉ rs_trace st).

End SupportService.

(** ** The settings menu: parsing and the edit operations *)

Module SupportSettingsMenuHandler.

(** The value of a character as a digit in radix up to 36. *)
Definition digitValue (c : ascii) : option Z :=
  let n := Z.of_N (Ascii.N_of_ascii c) in
  if (48 <=? n) && (n <=? 57) then Some (n - 48)
  else if (97 <=? n) && (n <=? 122) then Some (n - 87)
  else if (65 <=? n) && (n <=? 90) then Some (n - 55)
  else None.

(** The longest prefix of digits of the radix, as a number; [acc] is
    [None] until a digit was read. *)
Fixpoint parseDigits (radix : Z) (s : string) (acc : option Z) : option Z :=
  match s with
  | EmptyString => acc
  | String c s' =>
      match digitValue c with
      | Some d =>
          if d <? radix
          then parseDigits radix s' (Some (default 0 acc * radix + d))
          else acc
      | None => acc
      end
  end.

Definition isWhiteSpace (c : ascii) : bool :=
  let n := Ascii.N_of_ascii c in
  (n =? 32)%N || ((9 <=? n)%N && (n <=? 13)%N).

Fixpoint skipWhiteSpace (s : string) : string :=
  match s with
  | String c s' => if isWhiteSpace c then skipWhiteSpace s' else s
  | EmptyString => s
  end.

(** [parseInt(input)] without a radix; [None] is [NaN]. *)
Definition parseInt (input : string) : option Z :=
  let s := skipWhiteSpace input in
  let '(sign, s) :=
    match s with
    | String "-"%char s' => (-1, s')
    | String "+"%char s' => (1, s')
    | _ => (1, s)
    end in
  let '(radix, s) :=
    match s with
    | String "0"%char (String "x"%char s')
    | String "0"%char (String "X"%char s') => (16, s')
    | _ => (10, s)
    end in
  match parseDigits radix s None with
  | Some v => Some (sign * v)
  | None => None
  end.

Definition defaultSettings : Settings :=
  {| watchTimePercentage := 70;
     minWatchTimeSeconds := 60;
     maxWatchTimeSeconds := 600;
     likeVideos := true;
     subscribeToChannels := true;
     pauseBetweenChannelsSeconds := 30;
     rotateChannels := None;
     lastChannelIndex := None;
     lastCommentIndex := None;
     _commentIndexUpdated := false |}.

(** The menu's own [loadSettings], which creates the file when it is
    missing, and [saveSettings]; a failed write leaves the file as it was. *)
Definition saveSettings (ok : bool) (settings : Settings) (f : file Settings)
    : file Settings :=
  if ok then Content settings else f.

Definition loadSettings (ok : bool) (f : file Settings) : Settings * file Settings :=
  match f with
  | Absent => (defaultSettings, saveSettings ok defaultSettings f)
  | Unreadable => (defaultSettings, f)
  | Content s => (s, f)
  end.

Definition set_watchTimePercentage (v : Z) (s : Settings) : Settings :=
  {| watchTimePercentage := v;
     minWatchTimeSeconds := minWatchTimeSeconds s;
     maxWatchTimeSeconds := maxWatchTimeSeconds s;
     likeVideos := likeVideos s;
     subscribeToChannels := subscribeToChannels s;
     pauseBetweenChannelsSeconds := pauseBetweenChannelsSeconds s;
     rotateChannels := rotateChannels s;
     lastChannelIndex := lastChannelIndex s;
     lastCommentIndex := lastCommentIndex s;
     _commentIndexUpdated := _commentIndexUpdated s |}.

Definition set_minWatchTimeSeconds (v : Z) (s : Settings) : Settings :=
  {| watchTimePercentage := watchTimePercentage s;
     minWatchTimeSeconds := v;
     maxWatchTimeSeconds := maxWatchTimeSeconds s;
     likeVideos := likeVideos s;
     subscribeToChannels := subscribeToChannels s;
     pauseBetweenChannelsSeconds := pauseBetweenChannelsSeconds s;
     rotateChannels := rotateChannels s;
     lastChannelIndex := lastChannelIndex s;
     lastCommentIndex := lastCommentIndex s;
     _commentIndexUpdated := _commentIndexUpdated s |}.

Definition set_maxWatchTimeSeconds (v : Z) (s : Settings) : Settings :=
  {| watchTimePercentage := watchTimePercentage s;
     minWatchTimeSeconds := minWatchTimeSeconds s;
     maxWatchTimeSeconds := v;
     likeVideos := likeVideos s;
     subscribeToChannels := subscribeToChannels s;
     pauseBetweenChannelsSeconds := pauseBetweenChannelsSeconds s;
     rotateChannels := rotateChannels s;
     lastChannelIndex := lastChannelIndex s;
     lastCommentIndex := lastCommentIndex s;
     _commentIndexUpdated := _commentIndexUpdated s |}.

Definition set_likeVideos (v : bool) (s : Settings) : Settings :=
  {| watchTimePercentage := watchTimePercentage s;
     minWatchTimeSeconds := minWatchTimeSeconds s;
     maxWatchTimeSeconds := maxWatchTimeSeconds s;
     likeVideos := v;
     subscribeToChannels := subscribeToChannels s;
     pauseBetweenChannelsSeconds := pauseBetweenChannelsSeconds s;
     rotateChannels := rotateChannels s;
     lastChannelIndex := lastChannelIndex s;
     lastCommentIndex := lastCommentIndex s;
     _commentIndexUpdated := _commentIndexUpdated s |}.

Definition set_subscribeToChannels (v : bool) (s : Settings) : Settings :=
  {| watchTimePercentage := watchTimePercentage s;
     minWatchTimeSeconds := minWatchTimeSeconds s;
     maxWatchTimeSeconds := maxWatchTimeSeconds s;
     likeVideos := likeVideos s;
     subscribeToChannels := v;
     pauseBetweenChannelsSeconds := pauseBetweenChannelsSeconds s;
     rotateChannels := rotateChannels s;
     lastChannelIndex := lastChannelIndex s;
     lastCommentIndex := lastCommentIndex s;
     _commentIndexUpdated := _commentIndexUpdated s |}.

Definition set_pauseBetweenChannelsSeconds (v : Z) (s : Settings) : Settings :=
  {| watchTimePercentage := watchTimePercentage s;
     minWatchTimeSeconds := minWatchTimeSeconds s;
     maxWatchTimeSeconds := maxWatchTimeSeconds s;
     likeVideos := likeVideos s;
     subscribeToChannels := subscribeToChannels s;
     pauseBetweenChannelsSeconds := v;
     rotateChannels := rotateChannels s;
     lastChannelIndex := lastChannelIndex s;
     lastCommentIndex := lastCommentIndex s;
     _commentIndexUpdated := _commentIndexUpdated s |}.

(** The reply "0", or an empty line (which [menu.getInput] turns into
    ["EMPTY_INPUT"]), cancels a change. *)
Definition cancelled (input : string) : bool :=
  String.eqb input "0" || String.eqb input "EMPTY_INPUT".

(** Each operation returns the settings object and the settings file as
    it leaves them. *)
Definition changeWatchTimePercentage (input : string) (ok : bool)
    (settings : Settings) (f : file Settings) : Settings * file Settings :=
  if cancelled input then (settings, f)
  else
    match parseInt input with
    | None => (settings, f)
    | Some newValue =>
        if (newValue <? 10) || (100 <? newValue) then (settings, f)
        else
          let settings' := set_watchTimePercentage newValue settings in
          (settings', saveSettings ok settings' f)
    end.

Definition changeMinWatchTime (input : string) (ok : bool)
    (settings : Settings) (f : file Settings) : Settings * file Settings :=
  if cancelled input then (settings, f)
  else
    match parseInt input with
    | None => (settings, f)
    | Some newValue =>
        if (newValue <? 10) || (300 <? newValue) then (settings, f)
        else if maxWatchTimeSeconds settings <? newValue then (settings, f)
        else
          let settings' := set_minWatchTimeSeconds newValue settings in
          (settings', saveSettings ok settings' f)
    end.

Definition changeMaxWatchTime (input : string) (ok : bool)
    (settings : Settings) (f : file Settings) : Settings * file Settings :=
  if cancelled input then (settings, f)
  else
    match parseInt input with
    | None => (settings, f)
    | Some newValue =>
        if (newValue <? 60) || (3600 <? newValue) then (settings, f)
        else if newValue <? minWatchTimeSeconds settings then (settings, f)
        else
          let settings' := set_maxWatchTimeSeconds newValue settings in
          (settings', saveSettings ok settings' f)
    end.

Definition toggleLikeVideos (ok : bool) (settings : Settings) (f : file Settings)
    : Settings * file Settings :=
  let settings' := set_likeVideos (negb (likeVideos settings)) settings in
  (settings', saveSettings ok settings' f).

Definition toggleSubscribe (ok : bool) (settings : Settings) (f : file Settings)
    : Settings * file Settings :=
  let settings' := set_subscribeToChannels (negb (subscribeToChannels settings)) settings in
  (settings', saveSettings ok settings' f).

Definition changePauseTime (input : string) (ok : bool)
    (settings : Settings) (f : file Settings) : Settings * file Settings :=
  if cancelled input then (settings, f)
  else
    match parseInt input with
    | None => (settings, f)
    | Some newValue =>
        if (newValue <? 10) || (300 <? newValue) then (settings, f)
        else
          let settings' := set_pauseBetweenChannelsSeconds newValue settings in
          (settings', saveSettings ok settings' f)
    end.

(** [resetToDefaults()] writes the default object and leaves the loaded
    object alone. *)
Definition resetToDefaults (input : string) (ok : bool)
    (settings : Settings) (f : file Settings) : Settings * file Settings :=
  if SupportService.is_yes input then (settings, saveSettings ok defaultSettings f)
  else (settings, f).

(** [handleChoice(choice, settings)] up to the point where it shows the
    menu again; [input] is the operator's reply inside the operation. *)
Definition handleChoice (choice input : string) (ok : bool)
    (settings : Settings) (f : file Settings) : Settings * file Settings :=
  if String.eqb choice "1" then changeWatchTimePercentage input ok settings f
  else if String.eqb choice "2" then changeMinWatchTime input ok settings f
  else if String.eqb choice "3" then changeMaxWatchTime input ok settings f
  else if String.eqb choice "4" then toggleLikeVideos ok settings f
  else if String.eqb choice "5" then toggleSubscribe ok settings f
  else if String.eqb choice "6" then changePauseTime input ok settings f
  else if String.eqb choice "7" then resetToDefaults input ok settings f
  else (settings, f).

(** One round of [showMenu()]: load, ask, handle.  [okLoad] is the write
    that creates a missing file. *)
Definition showMenu (okLoad : bool) (choice input : string) (ok : bool)
    (f : file Settings) : file Settings :=
  let '(settings, f1) := loadSettings okLoad f in
  snd (handleChoice choice input ok settings f1).

(** The invariant of the settings file. *)
Definition file_ok (f : file Settings) : Prop :=
  match f with
  | Content s => minWatchTimeSeconds s <= maxWatchTimeSeconds s
  | Absent | Unreadable => True
  end.

End SupportSettingsMenuHandler.

(** ** The specification's own formulas *)

Module Spec.

(** The four steps of the watch-time calculator as the specification
    writes them, over the integers. *)
Definition watchTime (durationSeconds watchTimePercentage
                      minWatchTimeSeconds maxWatchTimeSeconds : Z) : Z :=
  let raw := durationSeconds * watchTimePercentage / 100 in
  let upperBounded := Z.min raw maxWatchTimeSeconds in
  let effectiveMin := Z.min minWatchTimeSeconds durationSeconds in
  Z.max effectiveMin upperBounded.

(** [channels[start:] ++ channels[0:start]]. *)
Definition rotateLeft {A} (start : nat) (l : list A) : list A :=
  drop start l ++ take start l.

End Spec.

(** ** Concrete inputs *)

Module Examples.
Import VideoService SupportService.

Definition video (seconds : number) : VideoDetails :=
  {| title := "Unknown Video"; durationSeconds := seconds; isLive := false |}.

(** One half, [2^52 * 2^-53]. *)
Definition half : number := S754_finite false 4503599627370496 (-53).

(** Ninety and a half, [181 * 2^45 * 2^-46]. *)
Definition ninetyAndHalf : number := S754_finite false 6368371348078592 (-46).

Definition withWatchTimes (percentage minSeconds maxSeconds : Z) : Settings :=
  {| watchTimePercentage := percentage;
     minWatchTimeSeconds := minSeconds;
     maxWatchTimeSeconds := maxSeconds;
     likeVideos := true;
     subscribeToChannels := true;
     pauseBetweenChannelsSeconds := 30;
     rotateChannels := None;
     lastChannelIndex := None;
     lastCommentIndex := None;
     _commentIndexUpdated := false |}.

(** The default settings with rotation switched on in the file. *)
Definition rotating (lastChannel lastComment : Z) : Settings :=
  {| watchTimePercentage := 70;
     minWatchTimeSeconds := 60;
     maxWatchTimeSeconds := 600;
     likeVideos := true;
     subscribeToChannels := true;
     pauseBetweenChannelsSeconds := 30;
     rotateChannels := Some true;
     lastChannelIndex := Some lastChannel;
     lastCommentIndex := Some lastComment;
     _commentIndexUpdated := false |}.

Definition channel (i n : string) : ChannelRecord :=
  {| id := i;
     name := n;
     url := "https://www.youtube.com/@" +:+ n;
     addedOn := "2025-01-01T00:00:00.000Z";
     supportCount := 0;
     lastSupported := None |}.

Definition channelsABC : list ChannelRecord :=
  [channel "UCa" "A"; channel "UCb" "B"; channel "UCc" "C"].

Definition comments3 : list string := ["first"; "second"; "third"].

Definition playing (vid : string) : VideoState :=
  {| videoId := Some vid; hasEnded := false; isNearEnd := false; isPaused := false |}.

(** A watch in which every poll reports the video that was started. *)
Definition steadyWatch : WatchScript :=
  {| ws_start := Returns tt;
     ws_initialVideoId := Returns "dQw4w9WgXcQ";
     ws_poll := fun _ => Returns (playing "dQw4w9WgXcQ");
     ws_resume := fun _ => Returns tt |}.

(** A watch in which autoplay has moved on at the second poll. *)
Definition autoplayWatch : WatchScript :=
  {| ws_start := Returns tt;
     ws_initialVideoId := Returns "dQw4w9WgXcQ";
     ws_poll := fun k => match k with
                         | O => Returns (playing "dQw4w9WgXcQ")
                         | _ => Returns (playing "9bZkp7q19f0")
                         end;
     ws_resume := fun _ => Returns tt |}.

(** A watch in which the page context is lost at the first poll. *)
Definition brokenWatch : WatchScript :=
  {| ws_start := Returns tt;
     ws_initialVideoId := Returns "dQw4w9WgXcQ";
     ws_poll := fun _ => Throws;
     ws_resume := fun _ => Returns tt |}.

(** A visit in which every navigation succeeds, with an engagement
    service that has the [getNextComment] of the specification. *)
Definition visit (w : WatchScript) : VisitScript :=
  {| vs_page := true;
     vs_gotoChannel := Returns tt;
     vs_latestVideo := Returns (Some "https://www.youtube.com/watch?v=dQw4w9WgXcQ");
     vs_gotoVideo := Returns tt;
     vs_details := video (ofZ 600);
     vs_getNextComment := Some EngagementService.getNextComment;
     vs_watch := w |}.

(** The same visit with the engagement service of the sources, which has
    no [getNextComment]. *)
Definition visitAsFound (w : WatchScript) : VisitScript :=
  {| vs_page := true;
     vs_gotoChannel := Returns tt;
     vs_latestVideo := Returns (Some "https://www.youtube.com/watch?v=dQw4w9WgXcQ");
     vs_gotoVideo := Returns tt;
     vs_details := video (ofZ 600);
     vs_getNextComment := None;
     vs_watch := w |}.

(** A visit in which the navigation to the video throws. *)
Definition unreachableVisit : VisitScript :=
  {| vs_page := true;
     vs_gotoChannel := Returns tt;
     vs_latestVideo := Returns (Some "https://www.youtube.com/watch?v=dQw4w9WgXcQ");
     vs_gotoVideo := Throws;
     vs_details := video (ofZ 600);
     vs_getNextComment := None;
     vs_watch := steadyWatch |}.

Definition iteration (v : VisitScript) : Iteration :=
  {| it_visit := v;
     it_now := "2025-06-01T12:00:00.000Z";
     it_saveChannelsOk := true;
     it_saveSettingsOk := true;
     it_continue := "y" |}.

Definition pass (v : VisitScript) : PassScript :=
  {| ps_browser := true;
     ps_authenticated := true;
     ps_confirm := "y";
     ps_iter := fun _ => iteration v;
     ps_restart := "n" |}.

Definition disk (channels : list ChannelRecord) (comments : list string)
    (settings : file Settings) : Disk :=
  {| channelsFile := Content channels;
     commentsFile := Content comments;
     settingsFile := settings |}.

Definition state (channels : list ChannelRecord) (settings : Settings) : RunState :=
  {| rs_channels := channels;
     rs_settings := settings;
     rs_disk := disk channels comments3 (Content settings);
     rs_supportCount := 0;
     rs_trace := [] |}.

End Examples.

(** ** More of the number operations *)

Module NumMore.

Definition add (x y : number) : number := SFadd prec emax x y.

(** [+0], a positive finite number or [+Infinity]. *)
Definition nonneg_or_infinite (x : number) : Prop :=
  match x with
  | S754_zero false | S754_finite false _ _ | S754_infinity false => True
  | _ => False
  end.

(** Truthiness of a number: every number but [NaN], [+0] and [-0]. *)
Definition truthy (x : number) : bool :=
  match x with
  | S754_nan | S754_zero _ => false
  | _ => true
  end.

(** [Math.round]: the nearest integer, a tie going to the larger one; a
    result of zero keeps the sign of [x]. *)
Definition Math_round (x : number) : number :=
  match x with
  | S754_finite s m e =>
      if 0 <=? e then x
      else
        let r := Z.shiftr (2 * cond_Zopp s (Z.pos m) + 2 ^ (- e)) (- e + 1) in
        if r =? 0 then S754_zero s else ofZ r
  | _ => x
  end.

End NumMore.

Export NumMore.

(** ** The video service: reading the details of the current video *)

Module VideoDetailsReader.

(** What the evaluation inside [getVideoDetails] finds on the page: the
    trimmed text of the title element, whether the live badge and the live
    text are visible, the [duration] of the video element, and the numbers
    that [Number] makes of the pieces between the colons of the duration
    text.  [None]: no such element. *)
Record PlayerPage : Type := {
  pp_title : option string;
  pp_liveBadge : bool;
  pp_liveText : bool;
  pp_videoDuration : option number;
  pp_durationParts : option (list number)
}.

Definition defaultDurationSeconds : number := ofZ 300.

(** The seconds of ["HH:MM:SS"] or ["MM:SS"]; any other number of pieces
    leaves the default in place. *)
Definition parseDurationParts (parts : list number) : number :=
  match parts with
  | [hours; minutes; seconds] =>
      add (add (mul hours (ofZ 3600)) (mul minutes (ofZ 60))) seconds
  | [minutes; seconds] => add (mul minutes (ofZ 60)) seconds
  | _ => defaultDurationSeconds
  end.

(** [videoElement && videoElement.duration && videoElement.duration > 0 &&
    videoElement.duration < 36000]. *)
Definition reliableDuration (p : PlayerPage) : option number :=
  match pp_videoDuration p with
  | Some duration =>
      if truthy duration && ltb (ofZ 0) duration && ltb duration (ofZ 36000)
      then Some duration else None
  | None => None
  end.

(** [getVideoDetails(page)]; [Throws]: the evaluation (or anything else
    inside the [try]) threw.  The display text of the duration is left out. *)
Definition getVideoDetails (page : outcome PlayerPage) : VideoDetails :=
  match page with
  | Throws =>
      {| title := "Unknown Video"; durationSeconds := defaultDurationSeconds;
         isLive := false |}
  | Returns p =>
      let title := default "Unknown Video" (pp_title p) in
      if pp_liveBadge p || pp_liveText p
      then {| title := title; durationSeconds := defaultDurationSeconds; isLive := true |}
      else
        let durationSeconds :=
          match reliableDuration p with
          | Some duration => Math_round duration
          | None =>
              match pp_durationParts p with
              | Some parts => parseDurationParts parts
              | None => defaultDurationSeconds
              end
          end in
        let durationSeconds :=
          if negb (truthy durationSeconds) || leb durationSeconds (ofZ 0)
          then defaultDurationSeconds else durationSeconds in
        {| title := title; durationSeconds := durationSeconds; isLive := false |}
  end.

End VideoDetailsReader.

(** ** The menu service: reading a line *)

Module MenuService.

(** [String.prototype.trim] on the white space of ASCII. *)
Fixpoint trimEnd (s : string) : string :=
  match s with
  | EmptyString => EmptyString
  | String c s' =>
      let t := trimEnd s' in
      if SupportSettingsMenuHandler.isWhiteSpace c && String.eqb t ""
      then EmptyString else String c t
  end.

Definition trim (s : string) : string :=
  trimEnd (SupportSettingsMenuHandler.skipWhiteSpace s).

(** [getInput(promptText)] for the line [answer] the operator types. *)
Definition getInput (answer : string) : string :=
  let trimmedAnswer := trim answer in
  if String.eqb trimmedAnswer "" then "EMPTY_INPUT" else trimmedAnswer.

End MenuService.

(** ** The support service: an answer with a timeout *)

Module TimedInput.


End TimedInput.

(** ** The comments menu *)

Module CommentsMenuHandler.

(** [fs.writeJson] of the comment list; a throw is caught by the caller's
    [catch] and leaves the file as it was. *)
Definition writeComments (ok : bool) (comments : list string) (f : file (list string))
    : file (list string) :=
  if ok then Content comments else f.

(** [addComment()], for the reply [commentText] of [menu.getInput]. *)
Definition addComment (commentText : string) (ok : bool) (f : file (list string))
    : file (list string) :=
  if SupportSettingsMenuHandler.cancelled commentText then f
  else
    match f with
    | Absent => writeComments ok ([] ++ [commentText]) f
    | Unreadable => f
    | Content comments => writeComments ok (comments ++ [commentText]) f
    end.

(** [removeComment()], for the reply [choice]; [comments.splice(index, 1)]
    deletes the entry at [index]. *)
Definition removeComment (choice : string) (ok : bool) (f : file (list string))
    : file (list string) :=
  match f with
  | Absent | Unreadable => f
  | Content comments =>
      if (length comments =? 0)%nat then f
      else if SupportSettingsMenuHandler.cancelled choice then f
      else
        match SupportSettingsMenuHandler.parseInt choice with
        | None => f
        | Some number =>
            let index := number - 1 in
            if (index <? 0) || (Z.of_nat (length comments) <=? index) then f
            else writeComments ok (delete (Z.to_nat index) comments) f
        end
  end.

End CommentsMenuHandler.

(** ** The accounts menu: the channel list *)

Module AccountsMenuHandler.

(** [s.split(c)] for a one-character separator: the pieces between the
    separators, at least one. *)
Fixpoint split (c : ascii) (s : string) : list string :=
  match s with
  | EmptyString => [EmptyString]
  | String a s' =>
      if Ascii.eqb a c then EmptyString :: split c s'
      else
        match split c s' with
        | piece :: pieces => String a piece :: pieces
        | [] => [String a EmptyString]
        end
  end.

(** [url.includes('@')]. *)
Fixpoint includes (c : ascii) (s : string) : bool :=
  match s with
  | EmptyString => false
  | String a s' => Ascii.eqb a c || includes c s'
  end.

(** [getChannelIdentifier(url)] of [addChannel]: what follows the first
    ["@"] up to the next ["/"], or the last piece of the path. *)
Definition getChannelIdentifier (url : string) : string :=
  if includes "@" url
  then
    match split "@" url with
    | _ :: afterAt :: _ => default EmptyString (head (split "/" afterAt))
    | _ => url
    end
  else default url (last (split "/" url)).

(** [channelUrl.split('@')[1] || 'New Channel']. *)
Definition channelNameOf (channelUrl : string) : string :=
  match split "@" channelUrl with
  | _ :: afterAt :: _ => if String.eqb afterAt "" then "New Channel" else afterAt
  | _ => "New Channel"
  end.

Definition isDuplicate (channelUrl : string) (channels : list ChannelRecord) : bool :=
  existsb (fun channel =>
             String.eqb (url channel) channelUrl
             || String.eqb (getChannelIdentifier (url channel))
                           (getChannelIdentifier channelUrl))
          channels.

Definition writeChannels (ok : bool) (channels : list ChannelRecord)
    (f : file (list ChannelRecord)) : file (list ChannelRecord) :=
  if ok then Content channels else f.

(** [addChannel()], for the reply [channelUrl]; [channelId] is the random
    identifier and [now] the timestamp. *)
Definition addChannel (channelUrl channelId now : string) (ok : bool)
    (f : file (list ChannelRecord)) : file (list ChannelRecord) :=
  if SupportSettingsMenuHandler.cancelled channelUrl then f
  else
    let newChannel :=
      {| id := channelId;
         name := channelNameOf channelUrl;
         url := channelUrl;
         addedOn := now;
         supportCount := 0;
         lastSupported := None |} in
    match f with
    | Absent => writeChannels ok ([] ++ [newChannel]) f
    | Unreadable => f
    | Content channels =>
        if isDuplicate channelUrl channels then f
        else writeChannels ok (channels ++ [newChannel]) f
    end.

(** [removeChannel()], for the replies [choice] and [confirm]. *)
Definition removeChannel (choice confirm : string) (ok : bool)
    (f : file (list ChannelRecord)) : file (list ChannelRecord) :=
  match f with
  | Absent | Unreadable => f
  | Content channels =>
      if (length channels =? 0)%nat then f
      else if SupportSettingsMenuHandler.cancelled choice then f
      else
        match SupportSettingsMenuHandler.parseInt choice with
        | None => f
        | Some number =>
            let index := number - 1 in
            if (index <? 0) || (Z.of_nat (length channels) <=? index) then f
            else if negb (SupportService.is_yes confirm) then f
            else writeChannels ok (delete (Z.to_nat index) channels) f
        end
  end.

Definition resetChannel (channel : ChannelRecord) : ChannelRecord :=
  {| id := id channel;
     name := name channel;
     url := url channel;
     addedOn := addedOn channel;
     supportCount := 0;
     lastSupported := None |}.

(** [resetCounts()], for the reply [confirm]. *)
Definition resetCounts (confirm : string) (ok : bool)
    (f : file (list ChannelRecord)) : file (list ChannelRecord) :=
  match f with
  | Absent => f
  | Unreadable => f
  | Content channels =>
      if negb (SupportService.is_yes confirm) then f
      else writeChannels ok (resetChannel <$> channels) f
  end.

End AccountsMenuHandler.

(** ** What a run and the menus are measured by *)

Module Observed.
Import SupportService.

(** The same channel, supported zero or more times since. *)
Definition grown (c c' : ChannelRecord) : Prop :=
  id c' = id c /\ name c' = name c /\ url c' = url c /\ addedOn c' = addedOn c /\
  supportCount c <= supportCount c'.

Definition totalSupportCount (channels : list ChannelRecord) : Z :=
  foldr (fun channel n => supportCount channel + n) 0 channels.

(** The channels that the passes of a run report as supported. *)
Definition reported (ends : list PassEnd) : Z :=
  foldr (fun e n => match e with Completed k => k + n | _ => n end) 0 ends.

(** A visit gets as far as the watch: every navigation succeeds and the
    engagement service has a [getNextComment]. *)
Definition reachesWatch (v : VisitScript) : Prop :=
  vs_page v = true /\ vs_gotoChannel v = Returns tt /\
  (exists videoUrl, findLatestVideo v = Some videoUrl) /\
  vs_gotoVideo v = Returns tt /\
  (exists getNextComment, vs_getNextComment v = Some getNextComment).

(** A pass gets as far as the channel loop when the browser is there, the
    operator is logged in and the start is confirmed. *)
Definition starts (ps : PassScript) : Prop :=
  ps_browser ps = true /\ ps_authenticated ps = true /\ is_yes (ps_confirm ps) = true.

(** The three settings that decide the watch time. *)
Definition limits (s : Settings) : Z * Z * Z :=
  (watchTimePercentage s, minWatchTimeSeconds s, maxWatchTimeSeconds s).

(** The ranges that the settings menu asks for. *)
Definition in_range (s : Settings) : Prop :=
  10 <= watchTimePercentage s <= 100 /\
  10 <= minWatchTimeSeconds s <= 300 /\
  60 <= maxWatchTimeSeconds s <= 3600 /\
  10 <= pauseBetweenChannelsSeconds s <= 300 /\
  minWatchTimeSeconds s <= maxWatchTimeSeconds s.

Definition file_in_range (f : file Settings) : Prop :=
  match f with
  | Content s => in_range s
  | Absent | Unreadable => True
  end.

End Observed.

(** ** The state and the queue at the start of the channel loop *)

Module Pass.
Import SupportService.

(** The run state with which [startSupporting] enters the channel loop. *)
Definition initialState (disk : Disk) : RunState :=
  let channels := DataService.loadChannels disk in
  let settings := DataService.loadSettings disk in
  {| rs_channels := channels;
     rs_settings := settings;
     rs_disk := disk;
     rs_supportCount := 0;
     rs_trace :=
       [if resumesRotation settings
        then StartFromIndex (startIndex (Z.of_nat (length channels)) settings)
        else StartFromFirst] |}.

(** The positions of the channel array in the order of [reorderedChannels]. *)
Definition queue (disk : Disk) : list nat :=
  reorderedChannels (seq 0 (length (DataService.loadChannels disk)))
                    (DataService.loadSettings disk).

End Pass.

(** ** More example inputs *)

Module MoreExamples.

(** A page of a video that is not live, with the duration of the video
    element and the pieces of the duration text. *)
Definition playerPage (videoDuration : option number) (parts : option (list number))
    : VideoDetailsReader.PlayerPage :=
  {| VideoDetailsReader.pp_title := Some "A video";
     VideoDetailsReader.pp_liveBadge := false;
     VideoDetailsReader.pp_liveText := false;
     VideoDetailsReader.pp_videoDuration := videoDuration;
     VideoDetailsReader.pp_durationParts := parts |}.

(** A watch in which the third poll finds the video within five seconds
    of its end. *)
Definition endingWatch : VideoService.WatchScript :=
  {| VideoService.ws_start := Returns tt;
     VideoService.ws_initialVideoId := Returns "dQw4w9WgXcQ";
     VideoService.ws_poll := fun k =>
       match k with
       | O | S O => Returns (Examples.playing "dQw4w9WgXcQ")
       | _ => Returns {| VideoService.videoId := Some "dQw4w9WgXcQ";
                         VideoService.hasEnded := false;
                         VideoService.isNearEnd := true;
                         VideoService.isPaused := false |}
       end;
     VideoService.ws_resume := fun _ => Returns tt |}.

(** A watch on a page whose address holds no video identifier, with
    autoplay moving on to another video at every poll. *)
Definition unnamedWatch : VideoService.WatchScript :=
  {| VideoService.ws_start := Returns tt;
     VideoService.ws_initialVideoId := Returns "";
     VideoService.ws_poll := fun _ => Returns (Examples.playing "9bZkp7q19f0");
     VideoService.ws_resume := fun _ => Returns tt |}.

(** A, B and C after two, three and four supports. *)
Definition supportedABC : list ChannelRecord :=
  [SupportService.supported "2025-06-01T12:00:00.000Z"
     (SupportService.supported "2025-05-01T12:00:00.000Z" (Examples.channel "UCa" "A"));
   SupportService.supported "2025-06-01T12:10:00.000Z"
     (SupportService.supported "2025-05-01T12:10:00.000Z"
        (SupportService.supported "2025-04-01T12:10:00.000Z" (Examples.channel "UCb" "B")));
   SupportService.supported "2025-06-01T12:20:00.000Z"
     (SupportService.supported "2025-05-01T12:20:00.000Z"
        (SupportService.supported "2025-04-01T12:20:00.000Z"
           (SupportService.supported "2025-03-01T12:20:00.000Z"
              (Examples.channel "UCc" "C"))))].


Definition channelsABCD : list ChannelRecord :=
  Examples.channelsABC ++ [Examples.channel "UCd" "D"].

(** A pass in which every visit succeeds and the operator answers ["n"]
    to the question after visit number [k], counted from 1. *)
Definition stoppingPass (k : nat) : SupportService.PassScript :=
  {| SupportService.ps_browser := true;
     SupportService.ps_authenticated := true;
     SupportService.ps_confirm := "y";
     SupportService.ps_iter := fun j =>
       {| SupportService.it_visit := Examples.visit Examples.steadyWatch;
          SupportService.it_now := "2025-06-01T12:00:00.000Z";
          SupportService.it_saveChannelsOk := true;
          SupportService.it_saveSettingsOk := true;
          SupportService.it_continue := if (S j =? k)%nat then "n" else "y" |};
     SupportService.ps_restart := "n" |}.

End MoreExamples.

(** * Proofs *)

(** ** Binary64 rounding never rises above a representable bound *)

Ltac hide_pow :=
  repeat match goal with
         | H : context [2 ^ ?e] |- _ =>
             let x := fresh "pw" in set (x := 2 ^ e) in *; clearbody x
         | |- context [2 ^ ?e] =>
             let x := fresh "pw" in set (x := 2 ^ e) in *; clearbody x
         end.

Section NumFacts.

Lemma digits2_pos_bounds (p : positive) :
  2 ^ (Z.pos (digits2_pos p) - 1) <= Z.pos p < 2 ^ Z.pos (digits2_pos p).
Proof.
  induction p as [p IH | p IH |]; cbn [digits2_pos].
  - rewrite Pos2Z.inj_succ. change (Z.pos p~1) with (2 * Z.pos p + 1).
    replace (Z.succ (Z.pos (digits2_pos p)) - 1) with (Z.succ (Z.pos (digits2_pos p) - 1)) by lia.
    rewrite !Z.pow_succ_r by lia. hide_pow. lia.
  - rewrite Pos2Z.inj_succ. change (Z.pos p~0) with (2 * Z.pos p).
    replace (Z.succ (Z.pos (digits2_pos p)) - 1) with (Z.succ (Z.pos (digits2_pos p) - 1)) by lia.
    rewrite !Z.pow_succ_r by lia. hide_pow. lia.
  - cbn. lia.
Qed.

Lemma iter_pos_nat {A} (f : A -> A) (p : positive) (x : A) :
  SpecFloat.iter_pos f p x = Nat.iter (Pos.to_nat p) f x.
Proof.
  revert x. induction p as [p IH | p IH |]; intros x; cbn [SpecFloat.iter_pos].
  - rewrite !IH, Pos2Nat.inj_xI.
    replace (S (2 * Pos.to_nat p))%nat with (Pos.to_nat p + (Pos.to_nat p + 1))%nat by lia.
    rewrite !Nat.iter_add. reflexivity.
  - rewrite !IH, Pos2Nat.inj_xO.
    replace (2 * Pos.to_nat p)%nat with (Pos.to_nat p + Pos.to_nat p)%nat by lia.
    rewrite Nat.iter_add. reflexivity.
  - reflexivity.
Qed.

Lemma shr_1_nonneg (m : Z) (r s : bool) :
  0 <= m ->
  shr_1 (Build_shr_record m r s) = Build_shr_record (m / 2) (Z.odd m) (r || s).
Proof.
  intros Hm. rewrite <- Z.div2_div.
  destruct m as [| [p | p |] |]; try lia; reflexivity.
Qed.

Lemma shr_iter_nonneg (n : nat) (m : Z) :
  0 <= m ->
  exists r s,
    Nat.iter n shr_1 (Build_shr_record m false false)
    = Build_shr_record (m / 2 ^ Z.of_nat n) r s /\
    (m mod 2 ^ Z.of_nat n = 0 -> r = false /\ s = false).
Proof.
  intros Hm. induction n as [| n (r & s & Heq & Hex)].
  - exists false, false. cbn. rewrite Z.div_1_r. auto.
  - rewrite Nat.iter_succ, Heq, shr_1_nonneg by (apply Z.div_pos; lia).
    exists (Z.odd (m / 2 ^ Z.of_nat n)), (r || s). split.
    + f_equal. rewrite Nat2Z.inj_succ, Z.pow_succ_r, (Z.mul_comm 2) by lia.
      rewrite Z.div_div by lia. reflexivity.
    + rewrite Nat2Z.inj_succ, Z.pow_succ_r by lia. intros H0.
      assert (Hp : 0 < 2 ^ Z.of_nat n) by lia.
      pose proof (Z.div_mod m (2 ^ Z.of_nat n) ltac:(lia)) as Hd.
      pose proof (Z.mod_pos_bound m (2 ^ Z.of_nat n) Hp) as Hb.
      apply Z.mod_divide in H0; [| lia]. destruct H0 as [c Hc].
      assert (Hm0 : m mod 2 ^ Z.of_nat n = 0).
      { apply Z.mod_divide; [lia |]. exists (c * 2). lia. }
      destruct (Hex Hm0) as [-> ->]. split; [| reflexivity].
      assert (Hq : m / 2 ^ Z.of_nat n = 2 * c).
      { rewrite Hc. replace (c * (2 * 2 ^ Z.of_nat n)) with (2 * c * 2 ^ Z.of_nat n) by lia.
        apply Z.div_mul. lia. }
      rewrite Hq, Z.odd_mul. reflexivity.
Qed.

End NumFacts.

Section Rounding.

Lemma shr_noop (mrs : shr_record) (e n : Z) : n <= 0 -> shr mrs e n = (mrs, e).
Proof. destruct n; [reflexivity | lia | reflexivity]. Qed.

Lemma shr_spec (m e n : Z) :
  0 <= m -> 0 < n ->
  exists r s,
    shr (Build_shr_record m false false) e n
    = (Build_shr_record (m / 2 ^ n) r s, e + n) /\
    (m mod 2 ^ n = 0 -> r = false /\ s = false).
Proof.
  intros Hm Hn. destruct n as [| p | p]; try lia.
  destruct (shr_iter_nonneg (Pos.to_nat p) m Hm) as (r & s & Heq & Hex).
  rewrite positive_nat_Z in Heq, Hex.
  exists r, s. split; [| exact Hex].
  unfold shr. rewrite iter_pos_nat, Heq. reflexivity.
Qed.

Lemma round_nearest_even_bounds (m : Z) (r s : bool) :
  let m' := round_nearest_even m (loc_of_shr_record (Build_shr_record m r s)) in
  m <= m' <= m + 1 /\ (r = false /\ s = false -> m' = m).
Proof.
  destruct r, s; cbn; try destruct (Z.even m); split; try lia; intros [? ?]; congruence.
Qed.

Lemma digits2_pos_le (q : positive) (n : Z) :
  0 <= n -> Z.pos q < 2 ^ n -> Z.pos (digits2_pos q) <= n.
Proof.
  intros Hn Hq. pose proof (digits2_pos_bounds q) as [Hlo _].
  assert (Hlt : 2 ^ (Z.pos (digits2_pos q) - 1) < 2 ^ n) by lia.
  apply Z.pow_lt_mono_r_iff in Hlt; lia.
Qed.

Lemma fexp_eq (e : Z) : fexp prec emax e = Z.max (e - 53) (-1074).
Proof. reflexivity. Qed.

Lemma round_aux_below (P : positive) (E : Z) (my : positive) (ey : Z) :
  E <= fexp prec emax (Z.pos (digits2_pos P) + E) ->
  Z.pos (digits2_pos my) <= 53 ->
  -1074 <= ey <= 971 ->
  dyadic_le (Z.pos P) E (Z.pos my) ey ->
  below my ey (binary_round_aux prec emax false (Z.pos P) E loc_Exact).
Proof.
  intros Hal Hdy Hey Hle.
  pose proof (digits2_pos_bounds P) as [HPlo HPhi].
  pose proof (digits2_pos_bounds my) as [_ Hmyhi].
  set (dP := Z.pos (digits2_pos P)) in *.
  assert (Hmy53 : Z.pos my < 2 ^ 53).
  { eapply Z.lt_le_trans; [exact Hmyhi |]. apply Z.pow_le_mono_r; lia. }
  rewrite fexp_eq in Hal.
  (* the target exponent does not exceed the bound's exponent *)
  assert (Hf1 : Z.max (dP + E - 53) (-1074) <= ey).
  { apply Z.max_lub; [| lia].
    destruct (Z.le_gt_cases (dP + E - 53) ey) as [? | Hgt]; [assumption | exfalso].
    unfold dyadic_le in Hle. set (c := Z.min E ey) in *.
    assert (Hc1 : 0 <= E - c) by lia. assert (Hc2 : 0 <= ey - c) by lia.
    assert (H1 : 2 ^ (53 + (ey - c)) <= 2 ^ ((dP - 1) + (E - c))).
    { apply Z.pow_le_mono_r; lia. }
    rewrite !Z.pow_add_r in H1 by (unfold dP; lia).
    assert (0 < 2 ^ (E - c)) by (apply Z.pow_pos_nonneg; lia).
    assert (0 < 2 ^ (ey - c)) by (apply Z.pow_pos_nonneg; lia).
    change (2 ^ 53) with 9007199254740992 in *.
    hide_pow. nia. }
  set (f1 := Z.max (dP + E - 53) (-1074)) in *.
  (* first alignment *)
  assert (Hstep1 : exists m1 r s,
             shr (Build_shr_record (Z.pos P) false false) E (f1 - E)
             = (Build_shr_record m1 r s, f1) /\
             0 <= m1 < 2 ^ 53 /\
             let m2 := round_nearest_even m1 (loc_of_shr_record (Build_shr_record m1 r s)) in
             m2 <= Z.pos my * 2 ^ (ey - f1)).
  { assert (Hk : f1 - E = 0 \/ 0 < f1 - E) by lia. destruct Hk as [Hk | Hk].
    - exists (Z.pos P), false, false. rewrite Hk. cbn [shr].
      replace f1 with E by lia. split; [reflexivity |]. split.
      + split; [lia |]. eapply Z.lt_le_trans; [exact HPhi |].
        apply Z.pow_le_mono_r; lia.
      + cbn. unfold dyadic_le in Hle. rewrite Z.min_l in Hle by lia.
        rewrite Z.sub_diag, Z.mul_1_r in Hle. exact Hle.
    - destruct (shr_spec (Z.pos P) E (f1 - E) ltac:(lia) Hk) as (r & s & Heq & Hex).
      exists (Z.pos P / 2 ^ (f1 - E)), r, s.
      replace (E + (f1 - E)) with f1 in Heq by lia. split; [exact Heq |].
      assert (Hpk : 0 < 2 ^ (f1 - E)) by (apply Z.pow_pos_nonneg; lia).
      assert (HY : Z.pos P <= (Z.pos my * 2 ^ (ey - f1)) * 2 ^ (f1 - E)).
      { unfold dyadic_le in Hle. rewrite Z.min_l in Hle by lia.
        rewrite Z.sub_diag, Z.mul_1_r in Hle.
        rewrite <- Z.mul_assoc, <- Z.pow_add_r by lia.
        replace (ey - f1 + (f1 - E)) with (ey - E) by lia. exact Hle. }
      split.
      + split; [apply Z.div_pos; lia |].
        apply Z.div_lt_upper_bound; [lia |].
        rewrite <- Z.pow_add_r by lia.
        eapply Z.lt_le_trans; [exact HPhi |]. apply Z.pow_le_mono_r; lia.
      + pose proof (round_nearest_even_bounds (Z.pos P / 2 ^ (f1 - E)) r s) as [Hb Hexact].
        cbn zeta in *.
        set (m2 := round_nearest_even _ _) in *.
        pose proof (Z.div_mod (Z.pos P) (2 ^ (f1 - E)) ltac:(lia)) as Hdm.
        pose proof (Z.mod_pos_bound (Z.pos P) (2 ^ (f1 - E)) Hpk) as Hmb.
        destruct (Z.eq_dec (Z.pos P mod 2 ^ (f1 - E)) 0) as [Hz | Hnz].
        * rewrite (Hexact (Hex Hz)).
          apply Z.div_le_upper_bound; [lia |]. lia.
        * set (Y := Z.pos my * 2 ^ (ey - f1)) in *.
          set (q := Z.pos P / 2 ^ (f1 - E)) in *.
          set (rm := Z.pos P mod 2 ^ (f1 - E)) in *.
          set (pk := 2 ^ (f1 - E)) in *.
          assert (q < Y) by nia. lia. }
  destruct Hstep1 as (m1 & r & s & Hshr & Hm1 & Hm2).
  pose proof (round_nearest_even_bounds m1 r s) as [Hb _]. cbn zeta in *.
  unfold binary_round_aux, shr_fexp.
  change (shr_record_of_loc (Z.pos P) loc_Exact) with (Build_shr_record (Z.pos P) false false).
  change (Zdigits2 (Z.pos P)) with dP. rewrite fexp_eq. fold f1. rewrite Hshr.
  cbn [shr_m].
  set (m2 := round_nearest_even m1 _) in *.
  change (shr_record_of_loc m2 loc_Exact) with (Build_shr_record m2 false false).
  assert (Hm2r : m2 = 0 \/ (0 < m2 < 2 ^ 53) \/ m2 = 2 ^ 53) by lia.
  destruct Hm2r as [Hz | [Hmid | Htop]].
  - rewrite Hz. cbn [Zdigits2]. rewrite shr_noop by (rewrite fexp_eq; lia).
    left. reflexivity.
  - destruct m2 as [| q | q]; try lia.
    cbn [Zdigits2].
    pose proof (digits2_pos_le q 53 ltac:(lia) (proj2 Hmid)) as Hdq.
    rewrite shr_noop by (rewrite fexp_eq; lia). cbn [shr_m].
    replace (f1 <=? emax - prec) with true by (symmetry; apply Z.leb_le; unfold emax, prec; lia).
    right. exists q, f1. split; [reflexivity |]. unfold f1 at 1. split; [lia |]. split; assumption.
  - assert (Hgap : f1 + 1 <= ey).
    { destruct (Z.le_gt_cases (f1 + 1) ey) as [? | Hgt]; [assumption | exfalso].
      replace (ey - f1) with 0 in Hm2 by lia. rewrite Z.mul_1_r in Hm2. lia. }
    rewrite Htop.
    change (Zdigits2 (2 ^ 53)) with 54. rewrite fexp_eq.
    replace (Z.max (54 + f1 - 53) (-1074) - f1) with 1 by lia.
    cbn [shr SpecFloat.iter_pos shr_1 shr_m Z.pow Z.pow_pos Pos.iter Z.mul Pos.mul].
    replace (f1 + 1 <=? emax - prec) with true by (symmetry; apply Z.leb_le; unfold emax, prec; lia).
    right. exists 4503599627370496%positive, (f1 + 1). split; [reflexivity |].
    split; [unfold f1 at 1; lia |]. split; [| vm_compute; discriminate].
    rewrite Htop in Hm2.
    replace (ey - f1) with (Z.succ (ey - (f1 + 1))) in Hm2 by lia.
    rewrite Z.pow_succ_r in Hm2 by lia.
    change (2 ^ 53) with 9007199254740992 in Hm2. hide_pow. lia.
Qed.

End Rounding.

Section MulFloor.

Lemma dyadic_le_offset (m1 e1 m2 e2 c : Z) :
  c <= e1 -> c <= e2 ->
  (dyadic_le m1 e1 m2 e2 <-> m1 * 2 ^ (e1 - c) <= m2 * 2 ^ (e2 - c)).
Proof.
  intros H1 H2. unfold dyadic_le. set (k := Z.min e1 e2).
  assert (Hk : 0 <= k - c) by lia.
  replace (e1 - c) with ((e1 - k) + (k - c)) by lia.
  replace (e2 - c) with ((e2 - k) + (k - c)) by lia.
  rewrite !Z.pow_add_r by lia.
  assert (0 < 2 ^ (k - c)) by (apply Z.pow_pos_nonneg; lia).
  set (a := m1 * 2 ^ (e1 - k)). set (b := m2 * 2 ^ (e2 - k)).
  replace (m1 * (2 ^ (e1 - k) * 2 ^ (k - c))) with (a * 2 ^ (k - c)) by (unfold a; ring).
  replace (m2 * (2 ^ (e2 - k) * 2 ^ (k - c))) with (b * 2 ^ (k - c)) by (unfold b; ring).
  clearbody a b. hide_pow. split; nia.
Qed.

Lemma bounded_inv (m : positive) (e : Z) :
  bounded prec emax m e = true ->
  Z.pos (digits2_pos m) <= 53 /\ -1074 <= e <= 971.
Proof.
  unfold bounded, canonical_mantissa. rewrite fexp_eq. intros H.
  apply andb_prop in H as [H1 H2].
  apply Z.eqb_eq in H1. apply Z.leb_le in H2. unfold emax, prec in H2. lia.
Qed.

Lemma mul_below (md : positive) (ed : Z) (q : number) :
  bounded prec emax md ed = true ->
  unit_fraction q = true ->
  below md ed (mul (S754_finite false md ed) q).
Proof.
  intros Hb Hq. destruct q as [| | | [] mq eq]; try discriminate.
  cbn in Hq. apply andb_prop in Hq as [Hq H3]. apply andb_prop in Hq as [H1 H2].
  apply Z.leb_le in H1, H2, H3.
  destruct (bounded_inv _ _ Hb) as [Hdig He].
  unfold mul; cbn [SFmul xorb].
  apply round_aux_below; try assumption.
  - rewrite fexp_eq.
    pose proof (digits2_pos_bounds (md * mq)) as [_ Hhi].
    assert (Hlt : 2 ^ 52 < 2 ^ Z.pos (digits2_pos (md * mq))).
    { eapply Z.le_lt_trans; [| exact Hhi]. rewrite Pos2Z.inj_mul. nia. }
    apply Z.pow_lt_mono_r_iff in Hlt; lia.
  - apply (dyadic_le_offset _ _ _ _ (ed + eq)); [lia | lia |].
    rewrite Z.sub_diag, Z.mul_1_r, Pos2Z.inj_mul.
    replace (ed - (ed + eq)) with (- eq) by lia. nia.
Qed.

Lemma digits2_pos_unique (q : positive) (n : Z) :
  2 ^ (n - 1) <= Z.pos q < 2 ^ n -> Z.pos (digits2_pos q) = n.
Proof.
  intros [Hlo Hhi]. pose proof (digits2_pos_bounds q) as [Hlo' Hhi'].
  assert (Hn : 0 < n).
  { destruct (Z.lt_ge_cases 0 n) as [? | Hn0]; [assumption | exfalso].
    assert (2 ^ n <= 1).
    { destruct (Z.eq_dec n 0) as [-> | ?]; [cbn; lia | rewrite Z.pow_neg_r; lia]. }
    lia. }
  assert (H1 : 2 ^ (n - 1) < 2 ^ Z.pos (digits2_pos q)) by lia.
  assert (H2 : 2 ^ (Z.pos (digits2_pos q) - 1) < 2 ^ n) by lia.
  apply Z.pow_lt_mono_r_iff in H1; [| lia | lia].
  apply Z.pow_lt_mono_r_iff in H2; lia.
Qed.

Lemma iter_xO (p d : positive) : Z.pos (Pos.iter xO p d) = Z.pos p * 2 ^ Z.pos d.
Proof.
  induction d as [| d IH] using Pos.peano_ind.
  - cbn. lia.
  - rewrite Pos.iter_succ, Pos2Z.inj_succ, Z.pow_succ_r by lia.
    change (Z.pos (Pos.iter xO p d)~0) with (2 * Z.pos (Pos.iter xO p d)). rewrite IH. ring.
Qed.

Lemma shl_align_spec (mx : positive) (ex ex' : Z) :
  let '(mz, ez) := shl_align mx ex ex' in
  ez = Z.min ex ex' /\ Z.pos mz = Z.pos mx * 2 ^ (ex - ez).
Proof.
  unfold shl_align. destruct (ex' - ex) as [| d | d] eqn:Hd.
  - split; [lia |]. rewrite Z.sub_diag. lia.
  - split; [lia |]. rewrite Z.sub_diag. lia.
  - split; [lia |]. rewrite iter_xO. f_equal. f_equal. lia.
Qed.

Lemma ofZ_below (z : Z) (my : positive) (ey : Z) :
  0 <= z ->
  Z.pos (digits2_pos my) <= 53 -> -1074 <= ey <= 971 ->
  dyadic_le z 0 (Z.pos my) ey ->
  below my ey (ofZ z).
Proof.
  intros Hz Hdy Hey Hle. destruct z as [| pz |]; try lia.
  - left. reflexivity.
  - unfold ofZ, binary_normalize, binary_round.
    pose proof (shl_align_spec pz 0 (fexp prec emax (Z.pos (digits2_pos pz) + 0))) as Hs.
    destruct (shl_align pz 0 _) as [mz ez]. destruct Hs as [Hez Hmz].
    rewrite fexp_eq in Hez.
    assert (Hdz : Z.pos (digits2_pos mz) = Z.pos (digits2_pos pz) + (0 - ez)).
    { apply digits2_pos_unique. rewrite Hmz.
      pose proof (digits2_pos_bounds pz) as [Hlo Hhi].
      replace (Z.pos (digits2_pos pz) + (0 - ez) - 1)
        with ((Z.pos (digits2_pos pz) - 1) + (0 - ez)) by lia.
      rewrite !Z.pow_add_r by lia.
      assert (0 < 2 ^ (0 - ez)) by (apply Z.pow_pos_nonneg; lia).
      hide_pow. nia. }
    apply round_aux_below; try assumption.
    + rewrite fexp_eq, Hdz. lia.
    + apply (dyadic_le_offset _ _ _ _ (Z.min ez ey)); [lia | lia |].
      apply (dyadic_le_offset _ _ _ _ (Z.min ez ey)) in Hle; [| lia | lia].
      rewrite Hmz, <- Z.mul_assoc, <- Z.pow_add_r by lia.
      replace (0 - ez + (ez - Z.min ez ey)) with (0 - Z.min ez ey) by lia. exact Hle.
Qed.

Lemma floor_below (x : number) (my : positive) (ey : Z) :
  Z.pos (digits2_pos my) <= 53 -> -1074 <= ey <= 971 ->
  below my ey x -> below my ey (Math_floor x).
Proof.
  intros Hdy Hey [-> | (m & e & -> & He & Hm & Hd)]; [left; reflexivity |].
  unfold Math_floor. destruct (Z.leb_spec 0 e) as [Hpos | Hneg].
  - right. exists m, e. auto.
  - cbn [cond_Zopp]. rewrite Z.shiftr_div_pow2 by lia.
    assert (Hp : 0 < 2 ^ (- e)) by (apply Z.pow_pos_nonneg; lia).
    apply ofZ_below; try assumption.
    + apply Z.div_pos; lia.
    + apply (dyadic_le_offset _ _ _ _ e); [lia | lia |].
      replace (0 - e) with (- e) by lia.
      pose proof (Z.mul_div_le (Z.pos m) (2 ^ (- e)) Hp). lia.
Qed.

End MulFloor.

Section Order.

Ltac nn x :=
  destruct x as [[] | [] | | [] ? ?]; try contradiction.

Ltac cmp_step :=
  match goal with
  | H : context [(?a ?= ?a)%Z] |- _ => rewrite Z.compare_refl in H
  | |- context [(?a ?= ?a)%Z] => rewrite Z.compare_refl
  | H : context [(?a ?= ?a)%positive] |- _ => rewrite Pos.compare_refl in H
  | |- context [(?a ?= ?a)%positive] => rewrite Pos.compare_refl
  | H : context [(?a ?= ?b)%Z] |- _ => destruct (Z.compare_spec a b); try subst
  | |- context [(?a ?= ?b)%Z] => destruct (Z.compare_spec a b); try subst
  | H : context [(?a ?= ?b)%positive] |- _ => destruct (Pos.compare_spec a b); try subst
  | |- context [(?a ?= ?b)%positive] => destruct (Pos.compare_spec a b); try subst
  end.

Ltac cmp_cases :=
  unfold leb, ltb, SFleb, SFltb, Math_min, Math_max in *; cbn [SFcompare] in *;
  change (Pos.compare_cont Eq) with Pos.compare in *;
  repeat (cmp_step; cbn [SFcompare] in *; change (Pos.compare_cont Eq) with Pos.compare in *);
  try reflexivity; try discriminate; try lia; try exact I.

Lemma leb_refl (x : number) : nonneg x -> leb x x = true.
Proof. intros Hx. nn x; cmp_cases. Qed.

Lemma leb_trans (x y z : number) :
  nonneg x -> nonneg y -> nonneg z ->
  leb x y = true -> leb y z = true -> leb x z = true.
Proof. intros Hx Hy Hz. nn x; nn y; nn z; intros H1 H2; cmp_cases. Qed.

Lemma ltb_leb_trans (x y z : number) :
  nonneg x -> nonneg y -> nonneg z ->
  ltb x y = true -> leb y z = true -> ltb x z = true.
Proof. intros Hx Hy Hz. nn x; nn y; nn z; intros H1 H2; cmp_cases. Qed.

Lemma nonneg_min (x y : number) : nonneg x -> nonneg y -> nonneg (Math_min x y).
Proof. intros Hx Hy. nn x; nn y; cmp_cases. Qed.

Lemma nonneg_max (x y : number) : nonneg x -> nonneg y -> nonneg (Math_max x y).
Proof. intros Hx Hy. nn x; nn y; cmp_cases. Qed.

Lemma min_le_l (x y : number) : nonneg x -> nonneg y -> leb (Math_min x y) x = true.
Proof. intros Hx Hy. nn x; nn y; cmp_cases. Qed.

Lemma min_le_r (x y : number) : nonneg x -> nonneg y -> leb (Math_min x y) y = true.
Proof. intros Hx Hy. nn x; nn y; cmp_cases. Qed.

Lemma max_ge_l (x y : number) : nonneg x -> nonneg y -> leb x (Math_max x y) = true.
Proof. intros Hx Hy. nn x; nn y; cmp_cases. Qed.

Lemma min_glb (x y z : number) :
  nonneg x -> nonneg y -> nonneg z ->
  leb z x = true -> leb z y = true -> leb z (Math_min x y) = true.
Proof. intros Hx Hy Hz. nn x; nn y; nn z; intros H1 H2; cmp_cases. Qed.

Lemma min_glb_lt (x y z : number) :
  nonneg x -> nonneg y -> nonneg z ->
  ltb z x = true -> ltb z y = true -> ltb z (Math_min x y) = true.
Proof. intros Hx Hy Hz. nn x; nn y; nn z; intros H1 H2; cmp_cases. Qed.

Lemma max_lub (x y z : number) :
  nonneg x -> nonneg y -> nonneg z ->
  leb x z = true -> leb y z = true -> leb (Math_max x y) z = true.
Proof. intros Hx Hy Hz. nn x; nn y; nn z; intros H1 H2; cmp_cases. Qed.

Lemma below_nonneg (my : positive) (ey : Z) (r : number) : below my ey r -> nonneg r.
Proof. intros [-> | (m & e & -> & _)]; exact I. Qed.

Lemma below_leb (my : positive) (ey : Z) (r : number) :
  below my ey r -> leb r (S754_finite false my ey) = true.
Proof.
  intros [-> | (m & e & -> & He & Hm & _)]; [reflexivity |].
  unfold leb, SFleb; cbn [SFcompare].
  destruct (Z.compare_spec e ey) as [-> | ? | ?]; [| reflexivity | lia].
  rewrite Z.sub_diag, Z.mul_1_r in Hm.
  change (Pos.compare_cont Eq m my) with (Pos.compare m my).
  destruct (Pos.compare_spec m my); [reflexivity | reflexivity | lia].
Qed.

End Order.

Section WatchTime.
Import VideoService.

Lemma range_check (f : Z -> bool) (lo len : Z) :
  forallb f (seqZ lo len) = true ->
  forall z, lo <= z < lo + len -> f z = true.
Proof.
  intros Hall z Hz. rewrite forallb_forall in Hall. apply Hall.
  apply list_elem_of_In, elem_of_seqZ. lia.
Qed.

Lemma percentage_unit_fraction (p : Z) :
  10 <= p <= 100 -> unit_fraction (div (ofZ p) (ofZ 100)) = true.
Proof.
  intros Hp.
  apply (range_check (fun p => unit_fraction (div (ofZ p) (ofZ 100))) 10 91);
    [vm_compute; reflexivity | lia].
Qed.

Lemma one_le_minimum (z : Z) : 10 <= z <= 300 -> leb (ofZ 1) (ofZ z) = true.
Proof.
  intros Hz.
  apply (range_check (fun z => leb (ofZ 1) (ofZ z)) 10 291);
    [vm_compute; reflexivity | lia].
Qed.

Lemma ofZ_nonneg (z : Z) : 0 <= z <= 2 ^ 52 -> nonneg (ofZ z).
Proof.
  intros Hz. apply (below_nonneg 4503599627370496 0).
  apply ofZ_below; [lia | vm_compute; discriminate | lia |].
  apply (dyadic_le_offset _ _ _ _ 0); [lia | lia |].
  change (2 ^ 52) with 4503599627370496 in Hz. cbn. lia.
Qed.

(** C5 (amended): for every positive finite duration (any binary64 number,
    not only an integer) and settings in range, the watch time is at most
    [max(durationSeconds, 1)] and strictly positive, and it is at least 1
    whenever the duration is at least 1. *)
Theorem calculateWatchTime_bounds (v : VideoDetails) (s : Settings) :
  positive_finite (durationSeconds v) ->
  10 <= watchTimePercentage s <= 100 ->
  10 <= minWatchTimeSeconds s <= 300 ->
  60 <= maxWatchTimeSeconds s <= 3600 ->
  minWatchTimeSeconds s <= maxWatchTimeSeconds s ->
  leb (calculateWatchTime v s) (Math_max (durationSeconds v) (ofZ 1)) = true /\
  ltb (ofZ 0) (calculateWatchTime v s) = true /\
  (leb (ofZ 1) (durationSeconds v) = true ->
   leb (ofZ 1) (calculateWatchTime v s) = true).
Proof.
  intros Hd Hp Hmin Hmax Hmm. unfold calculateWatchTime.
  destruct (durationSeconds v) as [| | | [] md ed] eqn:Ed; try contradiction.
  cbn in Hd. destruct (bounded_inv _ _ Hd) as [Hdig He].
  set (d := S754_finite false md ed).
  set (F := Math_floor (mul d (div (ofZ (watchTimePercentage s)) (ofZ 100)))).
  set (M := ofZ (maxWatchTimeSeconds s)). set (m0 := ofZ (minWatchTimeSeconds s)).
  assert (HF : below md ed F).
  { apply floor_below; [assumption | assumption |].
    apply mul_below; [assumption | apply percentage_unit_fraction; assumption]. }
  assert (Hnd : nonneg d) by exact I.
  assert (HnF : nonneg F) by (eapply below_nonneg; exact HF).
  assert (HnM : nonneg M).
  { apply ofZ_nonneg. change (2 ^ 52) with 4503599627370496. lia. }
  assert (Hnm : nonneg m0).
  { apply ofZ_nonneg. change (2 ^ 52) with 4503599627370496. lia. }
  assert (Hn1 : nonneg (ofZ 1)) by exact I.
  assert (Hn0 : nonneg (ofZ 0)) by exact I.
  pose proof (nonneg_min m0 d Hnm Hnd) as HnA.
  pose proof (nonneg_min F M HnF HnM) as HnB.
  pose proof (nonneg_max _ _ HnA HnB) as HnR.
  pose proof (nonneg_max d (ofZ 1) Hnd Hn1) as HnU.
  assert (H1m : leb (ofZ 1) m0 = true) by (apply one_le_minimum; assumption).
  split; [| split].
  - apply (leb_trans _ d); try assumption; [| apply max_ge_l; assumption].
    apply max_lub; try assumption.
    + apply min_le_r; assumption.
    + apply (leb_trans _ F); try assumption.
      * apply min_le_l; assumption.
      * apply below_leb. exact HF.
  - apply (ltb_leb_trans _ (Math_min m0 d)); try assumption;
      [| apply max_ge_l; assumption].
    apply min_glb_lt; try assumption; [| reflexivity].
    apply (ltb_leb_trans _ (ofZ 1)); try assumption. reflexivity.
  - intros H1d.
    apply (leb_trans _ (Math_min m0 d)); try assumption;
      [| apply max_ge_l; assumption].
    apply min_glb; assumption.
Qed.

(** C5, witness: a duration of 90.5 seconds under the default settings. *)
Lemma calculateWatchTime_bounds_witness :
  positive_finite (durationSeconds (Examples.video Examples.ninetyAndHalf)) /\
  leb (calculateWatchTime (Examples.video Examples.ninetyAndHalf)
         DataService.defaultSettings)
      (Math_max (durationSeconds (Examples.video Examples.ninetyAndHalf)) (ofZ 1)) = true /\
  ltb (ofZ 0) (calculateWatchTime (Examples.video Examples.ninetyAndHalf)
                 DataService.defaultSettings) = true /\
  (leb (ofZ 1) (durationSeconds (Examples.video Examples.ninetyAndHalf)) = true ->
   leb (ofZ 1) (calculateWatchTime (Examples.video Examples.ninetyAndHalf)
                  DataService.defaultSettings) = true).
Proof.
  split; [vm_compute; reflexivity |].
  apply (calculateWatchTime_bounds (Examples.video Examples.ninetyAndHalf)
           DataService.defaultSettings);
    [vm_compute; reflexivity | cbn; lia | cbn; lia | cbn; lia | cbn; lia].
Defined.

(** C5, counterexample: a duration of half a second is positive and the
    default settings are in range, yet the watch time is half a second,
    which is not at least 1. *)
Lemma calculateWatchTime_half_second :
  positive_finite (durationSeconds (Examples.video Examples.half)) /\
  ltb (ofZ 0) (durationSeconds (Examples.video Examples.half)) = true /\
  (10 <= watchTimePercentage DataService.defaultSettings <= 100 /\
   10 <= minWatchTimeSeconds DataService.defaultSettings <= 300 /\
   60 <= maxWatchTimeSeconds DataService.defaultSettings <= 3600 /\
   minWatchTimeSeconds DataService.defaultSettings
   <= maxWatchTimeSeconds DataService.defaultSettings) /\
  calculateWatchTime (Examples.video Examples.half) DataService.defaultSettings
  = Examples.half /\
  leb (ofZ 1)
      (calculateWatchTime (Examples.video Examples.half) DataService.defaultSettings)
  = false.
Proof.
  split; [vm_compute; reflexivity |]. split; [reflexivity |].
  split; [cbn; lia |]. split; vm_compute; reflexivity.
Qed.

(** The boundary and the typical case of the specification: 50 seconds
    gives 50, 600 seconds gives 420. *)
Example calculateWatchTime_boundary :
  calculateWatchTime (Examples.video (ofZ 50)) (Examples.withWatchTimes 70 60 600)
  = ofZ 50.
Proof. vm_compute. reflexivity. Qed.

Example calculateWatchTime_typical :
  calculateWatchTime (Examples.video (ofZ 600)) (Examples.withWatchTimes 70 60 600)
  = ofZ 420.
Proof. vm_compute. reflexivity. Qed.

(** C1: at a 90-second video under the default settings (70 percent, 60 to
    600 seconds) the calculator returns 62, where the four-step algorithm
    gives 63: [70 / 100] is rounded to binary64 before the multiplication,
    and [90 * 0.7] comes out just below 63.  The legacy computation, which
    multiplies before it divides, returns 63.  A 100-second video at 57
    percent gives 56 instead of 57 in the same way. *)
Theorem calculateWatchTime_misses_spec_at_90 :
  mul (ofZ 90) (div (ofZ 70) (ofZ 100)) = S754_finite false 8866461766385663 (-47) /\
  ofZ 63 = S754_finite false 8866461766385664 (-47) /\
  calculateWatchTime (Examples.video (ofZ 90)) DataService.defaultSettings = ofZ 62 /\
  Spec.watchTime 90 70 60 600 = 63 /\
  ofZ 62 <> ofZ 63 /\
  LegacySupportService.getVideoWatchTime (Examples.video (ofZ 90))
    DataService.defaultSettings = ofZ 63 /\
  calculateWatchTime (Examples.video (ofZ 100)) (Examples.withWatchTimes 57 10 600)
  = ofZ 56 /\
  Spec.watchTime 100 57 10 600 = 57.
Proof.
  repeat split; try (vm_compute; reflexivity). vm_compute. discriminate.
Qed.

End WatchTime.

(** ** Channel rotation *)

Section Rotation.
Import SupportService.
Context {A : Type}.
Implicit Types (channels l : list A) (s : Settings).

Lemma slice_from l (k : Z) :
  0 <= k <= Z.of_nat (length l) -> JsArray.slice l k None = drop (Z.to_nat k) l.
Proof.
  intros Hk. unfold JsArray.slice, JsArray.relativeIndex.
  destruct (Z.ltb_spec k 0); [lia |].
  rewrite Z.min_l by lia. apply take_ge. rewrite length_drop. lia.
Qed.

Lemma slice_upto l (k : Z) :
  0 <= k <= Z.of_nat (length l) -> JsArray.slice l 0 (Some k) = take (Z.to_nat k) l.
Proof.
  intros Hk. unfold JsArray.slice, JsArray.relativeIndex.
  destruct (Z.ltb_spec k 0); [lia |]. cbn [Z.ltb Z.compare].
  rewrite !Z.min_l by lia. rewrite Z.sub_0_r. reflexivity.
Qed.

Lemma startIndex_range (n : Z) s : 0 < n -> 0 <= startIndex n s < n.
Proof.
  intros Hn. unfold startIndex.
  destruct (rotateChannels s) as [[] |]; try lia.
  destruct (lastChannelIndex s) as [last |]; try lia.
  destruct (Z.leb_spec 0 last); [| lia].
  apply Z.rem_bound_pos; lia.
Qed.

Lemma length_pos l : l <> [] -> 0 < Z.of_nat (length l).
Proof. destruct l; [congruence | cbn; lia]. Qed.

Lemma reorderedChannels_rotateLeft channels s :
  channels <> [] ->
  reorderedChannels channels s
  = Spec.rotateLeft (Z.to_nat (startIndex (Z.of_nat (length channels)) s)) channels.
Proof.
  intros Hne. pose proof (startIndex_range _ s (length_pos _ Hne)) as Hr.
  unfold reorderedChannels, Spec.rotateLeft.
  rewrite slice_from, slice_upto by lia. reflexivity.
Qed.

Lemma rotateLeft_perm (k : nat) l : Spec.rotateLeft k l ≡ₚ l.
Proof.
  unfold Spec.rotateLeft. rewrite Permutation_app_comm. by rewrite take_drop.
Qed.

Lemma rotateLeft_lookup (k i : nat) l :
  (k <= length l)%nat -> (i < length l)%nat ->
  Spec.rotateLeft k l !! i = l !! ((k + i) `mod` length l)%nat.
Proof.
  intros Hk Hi. unfold Spec.rotateLeft.
  destruct (decide (i < length l - k)%nat) as [Hlt | Hge].
  - rewrite lookup_app_l by (rewrite length_drop; lia).
    rewrite lookup_drop, Nat.mod_small by lia. reflexivity.
  - rewrite lookup_app_r by (rewrite length_drop; lia).
    rewrite length_drop, lookup_take_lt by lia. f_equal.
    apply (Nat.mod_unique _ _ 1); lia.
Qed.

End Rotation.

Section RotationClaims.
Import SupportService.

Lemma reorderedChannels_position {A} (channels : list A) (s : Settings) (i c : nat) :
  channels <> [] ->
  reorderedChannels (seq 0 (length channels)) s !! i = Some c ->
  (i < length channels)%nat /\
  c = ((Z.to_nat (startIndex (Z.of_nat (length channels)) s) + i) `mod` length channels)%nat /\
  reorderedChannels channels s !! i = channels !! c.
Proof.
  intros Hne Hi.
  pose proof (startIndex_range _ s (length_pos _ Hne)) as Hr.
  assert (Hseq : seq 0 (length channels) <> []) by (destruct channels; [congruence | discriminate]).
  rewrite reorderedChannels_rotateLeft in Hi by assumption.
  rewrite length_seq in Hi.
  assert (Hlt : (i < length channels)%nat).
  { apply lookup_lt_Some in Hi.
    rewrite (Permutation_length (rotateLeft_perm _ _)), length_seq in Hi. exact Hi. }
  rewrite rotateLeft_lookup in Hi by (rewrite length_seq; lia).
  rewrite length_seq in Hi. apply lookup_seq in Hi as [-> _].
  split; [assumption |]. split; [reflexivity |].
  rewrite reorderedChannels_rotateLeft by assumption.
  apply rotateLeft_lookup; lia.
Qed.

(** C2: for a non-empty channel list and every value of [rotateChannels]
    and [lastChannelIndex] (in particular an index in [[-1, length - 1]]),
    the visiting order is a permutation of the list: same length, no
    duplicate introduced, every position of the array visited exactly once,
    and the channel visited at step [i] is the one at the position the
    order names.  The order depends on nothing but the list and the two
    rotation fields. *)
Theorem reorderedChannels_permutation {A} (channels : list A) (s : Settings) :
  channels <> [] ->
  reorderedChannels channels s ≡ₚ channels /\
  length (reorderedChannels channels s) = length channels /\
  (NoDup channels -> NoDup (reorderedChannels channels s)) /\
  reorderedChannels (seq 0 (length channels)) s ≡ₚ seq 0 (length channels) /\
  NoDup (reorderedChannels (seq 0 (length channels)) s) /\
  (forall i c, reorderedChannels (seq 0 (length channels)) s !! i = Some c ->
               reorderedChannels channels s !! i = channels !! c) /\
  (forall s', rotateChannels s' = rotateChannels s ->
              lastChannelIndex s' = lastChannelIndex s ->
              reorderedChannels channels s' = reorderedChannels channels s).
Proof.
  intros Hne.
  assert (Hseq : seq 0 (length channels) <> []) by (destruct channels; [congruence | discriminate]).
  assert (Hperm : reorderedChannels channels s ≡ₚ channels).
  { rewrite reorderedChannels_rotateLeft by assumption. apply rotateLeft_perm. }
  assert (Hperm' : reorderedChannels (seq 0 (length channels)) s ≡ₚ seq 0 (length channels)).
  { rewrite reorderedChannels_rotateLeft by assumption. apply rotateLeft_perm. }
  split; [exact Hperm |]. split; [by rewrite Hperm |].
  split; [intros Hnd; by rewrite Hperm |].
  split; [exact Hperm' |].
  split; [rewrite Hperm'; apply NoDup_seq |].
  split.
  - intros i c Hi. by apply reorderedChannels_position.
  - intros s' Hr Hl. unfold reorderedChannels, startIndex. rewrite Hr, Hl. reflexivity.
Qed.

(** C2, witness: the channels A, B, C with rotation on and [lastChannelIndex = 0]. *)
Lemma reorderedChannels_permutation_witness :
  Examples.channelsABC <> [] /\
  reorderedChannels Examples.channelsABC (Examples.rotating 0 (-1)) ≡ₚ Examples.channelsABC.
Proof.
  split; [discriminate |].
  apply (reorderedChannels_permutation Examples.channelsABC (Examples.rotating 0 (-1))).
  discriminate.
Defined.

(** C4: for a non-empty channel list the order is the list itself when
    [rotateChannels] is not true or [lastChannelIndex] is negative (or
    absent), and the list rotated left by [(lastChannelIndex + 1) mod
    length] when [rotateChannels] is true and [lastChannelIndex >= 0];
    A, B, C with [lastChannelIndex = 0] gives B, C, A. *)
Theorem reorderedChannels_order {A} (channels : list A) (s : Settings) :
  channels <> [] ->
  ((rotateChannels s <> Some true \/
    match lastChannelIndex s with Some last => last < 0 | None => True end) ->
   reorderedChannels channels s = channels) /\
  (forall last,
     rotateChannels s = Some true -> lastChannelIndex s = Some last -> 0 <= last ->
     reorderedChannels channels s
     = Spec.rotateLeft (Z.to_nat ((last + 1) mod Z.of_nat (length channels))) channels) /\
  reorderedChannels ["A"; "B"; "C"] (Examples.rotating 0 (-1)) = ["B"; "C"; "A"].
Proof.
  intros Hne. pose proof (length_pos _ Hne) as Hn.
  split; [| split; [| reflexivity]].
  - intros Hoff. rewrite reorderedChannels_rotateLeft by assumption.
    assert (Hz : startIndex (Z.of_nat (length channels)) s = 0).
    { unfold startIndex. destruct (rotateChannels s) as [[] |] eqn:Hr; try reflexivity.
      destruct Hoff as [Hoff | Hoff]; [congruence |].
      destruct (lastChannelIndex s) as [last |]; [| reflexivity].
      destruct (Z.leb_spec 0 last); [lia | reflexivity]. }
    rewrite Hz. unfold Spec.rotateLeft. cbn. apply app_nil_r.
  - intros last Hr Hl Hlast. rewrite reorderedChannels_rotateLeft by assumption.
    unfold startIndex. rewrite Hr, Hl.
    destruct (Z.leb_spec 0 last); [| lia].
    rewrite Z.rem_mod_nonneg by lia. reflexivity.
Qed.

(** C4, witness: A, B, C with [lastChannelIndex = 0] are visited as B, C, A. *)
Lemma reorderedChannels_order_witness :
  Examples.channelsABC <> [] /\
  name <$> reorderedChannels Examples.channelsABC (Examples.rotating 0 (-1))
  = ["B"; "C"; "A"].
Proof.
  split; [discriminate |].
  rewrite (proj1 (proj2 (reorderedChannels_order Examples.channelsABC
                           (Examples.rotating 0 (-1)) ltac:(discriminate)))
             0 eq_refl eq_refl ltac:(lia)).
  reflexivity.
Defined.

End RotationClaims.

(** ** Comment rotation *)

Section CommentRotation.
Import EngagementService SupportService.

Lemma at_nonneg {A} (l : list A) (i : Z) : 0 <= i -> JsArray.at_ l i = l !! Z.to_nat i.
Proof. intros Hi. unfold JsArray.at_. destruct (Z.ltb_spec i 0); [lia | reflexivity]. Qed.

Lemma selectComment_spec (comments : list string) (s : Settings) (last : Z) :
  comments <> [] -> lastCommentIndex s = Some last -> -1 <= last ->
  let next := (last + 1) mod Z.of_nat (length comments) in
  0 <= next < Z.of_nat (length comments) /\
  fst (selectComment comments s)
  = {| comment := comments !! Z.to_nat next; index := next; isRotated := true |} /\
  lastCommentIndex (snd (selectComment comments s)) = Some next.
Proof.
  intros Hne Hl Hlast next. pose proof (length_pos _ Hne) as Hn.
  assert (Hr : 0 <= next < Z.of_nat (length comments)) by (apply Z.mod_pos_bound; lia).
  split; [exact Hr |].
  unfold selectComment, getNextComment. rewrite Hl. cbn [default fst snd isRotated index].
  rewrite (at_nonneg _ _ (proj1 Hr)). split; reflexivity.
Qed.

Lemma rotationCalls_length (k : nat) (comments : list string) (s : Settings) :
  length (rotationCalls k comments s) = k.
Proof.
  revert s. induction k as [| k IH]; intros s; [reflexivity |].
  cbn [rotationCalls]. destruct (selectComment comments s) as [r s'].
  cbn. by rewrite IH.
Qed.

Lemma rotationCalls_lookup (k : nat) (comments : list string) (s : Settings)
    (last : Z) (j : nat) :
  comments <> [] -> lastCommentIndex s = Some last -> -1 <= last -> (j < k)%nat ->
  rotationCalls k comments s !! j
  = Some (comments !! Z.to_nat ((last + 1 + Z.of_nat j) mod Z.of_nat (length comments))).
Proof.
  intros Hne. revert s last j.
  induction k as [| k IH]; intros s last j Hl Hlast Hj; [lia |].
  destruct (selectComment_spec comments s last Hne Hl Hlast) as (Hr & Hfst & Hsnd).
  cbn [rotationCalls]. destruct (selectComment comments s) as [r s'].
  cbn [fst snd] in Hfst, Hsnd. subst r. cbn [comment].
  destruct j as [| j].
  - cbn. rewrite Z.add_0_r. reflexivity.
  - rewrite lookup_cons. rewrite (IH s' _ j Hsnd) by lia.
    do 3 f_equal.
    rewrite Nat2Z.inj_succ.
    replace (last + 1 + Z.succ (Z.of_nat j)) with ((last + 1) + (1 + Z.of_nat j)) by lia.
    rewrite <- (Zplus_mod_idemp_l (last + 1)). f_equal. lia.
Qed.

(** C3: for a non-empty pool of [n] comments and [lastCommentIndex >= -1]
    the rotation selector returns the comment at [(lastCommentIndex + 1) mod
    n] with that index and [isRotated = true]; the caller stores the index,
    and [n] consecutive visits leave the comments of the pool in their
    original order starting there and wrapping from the last to the first,
    each exactly once. *)
Theorem getNextComment_rotation (comments : list string) (s : Settings) (last : Z) :
  comments <> [] -> lastCommentIndex s = Some last -> -1 <= last ->
  let n := Z.of_nat (length comments) in
  let next := (last + 1) mod n in
  getNextComment comments s
  = {| comment := comments !! Z.to_nat next; index := next; isRotated := true |} /\
  0 <= next < n /\
  is_Some (comments !! Z.to_nat next) /\
  lastCommentIndex (snd (selectComment comments s)) = Some next /\
  rotationCalls (length comments) comments s
  = Some <$> Spec.rotateLeft (Z.to_nat next) comments.
Proof.
  intros Hne Hl Hlast n next.
  destruct (selectComment_spec comments s last Hne Hl Hlast) as (Hr & Hfst & Hsnd).
  fold n next in Hr, Hfst, Hsnd.
  split; [exact Hfst |]. split; [exact Hr |].
  split; [apply lookup_lt_is_Some; lia |]. split; [exact Hsnd |].
  apply list_eq. intros j.
  destruct (decide (j < length comments)%nat) as [Hj | Hj].
  - rewrite (rotationCalls_lookup _ _ _ last) by assumption.
    rewrite list_lookup_fmap, rotateLeft_lookup by lia.
    assert (Hidx : Z.to_nat ((last + 1 + Z.of_nat j) mod Z.of_nat (length comments))
                   = ((Z.to_nat next + j) `mod` length comments)%nat).
    { apply Nat2Z.inj. rewrite Nat2Z.inj_mod, Nat2Z.inj_add, !Z2Nat.id.
      - unfold next, n. rewrite Zplus_mod_idemp_l. reflexivity.
      - lia.
      - apply Z.mod_pos_bound. lia. }
    rewrite Hidx.
    destruct (lookup_lt_is_Some_2 comments ((Z.to_nat next + j) `mod` length comments)%nat)
      as [x Hx]; [apply Nat.mod_upper_bound; lia |].
    rewrite Hx. reflexivity.
  - rewrite !lookup_ge_None_2; [reflexivity | |].
    + rewrite length_fmap, (Permutation_length (rotateLeft_perm _ _)). lia.
    + rewrite rotationCalls_length. lia.
Qed.

(** C3, witness: three comments, the first of which was used last. *)
Lemma getNextComment_rotation_witness :
  Examples.comments3 <> [] /\
  rotationCalls 3 Examples.comments3 (Examples.rotating 0 0)
  = [Some "second"; Some "third"; Some "first"].
Proof.
  split; [discriminate |].
  exact (proj2 (proj2 (proj2 (proj2
    (getNextComment_rotation Examples.comments3 (Examples.rotating 0 0) 0
       ltac:(discriminate) eq_refl ltac:(lia)))))).
Defined.

End CommentRotation.

(** ** One visit *)

(** No event of the list is a resumed rotation. *)
Ltac not_among :=
  let k := fresh "k" in
  let Hin := fresh "Hin" in
  intros k Hin; cbn in Hin;
  rewrite ?elem_of_app, ?elem_of_cons, ?elem_of_nil in Hin;
  intuition discriminate.

Section Visit.
Import VideoService EngagementService SupportService.

Lemma selectComment_rotation_fields (comments : list string) (s : Settings) :
  rotateChannels (snd (selectComment comments s)) = rotateChannels s /\
  lastChannelIndex (snd (selectComment comments s)) = lastChannelIndex s.
Proof. split; reflexivity. Qed.

Lemma supportChannel_inv (fuel : nat) (v : VisitScript) (channel : ChannelRecord)
    (s s' : Settings) (comments : list string) (b : bool) (evs : list event) :
  supportChannel fuel v channel s comments = Some (b, s', evs) ->
  rotateChannels s' = rotateChannels s /\
  lastChannelIndex s' = lastChannelIndex s /\
  (forall k, StartFromIndex k ∉ evs) /\
  (b = false -> s' = s).
Proof.
  unfold supportChannel. intros H.
  destruct (vs_page v); cbn [negb] in H;
    [| inversion H; subst; repeat split; auto; not_among].
  destruct (navigateToChannelVideos v); cbn [negb] in H;
    [| inversion H; subst; repeat split; auto; not_among].
  destruct (findLatestVideo v) as [videoUrl |];
    [| inversion H; subst; repeat split; auto; not_among].
  destruct (vs_gotoVideo v); [| inversion H; subst; repeat split; auto; not_among].
  destruct (vs_getNextComment v) as [getNextComment |];
    [| destruct (subscribeToChannels s), (likeVideos s);
       inversion H; subst; repeat split; auto; not_among].
  destruct (watchVideo fuel _ _); [| discriminate].
  inversion H; subst. unfold recordComment.
  repeat split; try discriminate;
    try (destruct (isRotated (getNextComment comments s)); reflexivity).
  destruct (subscribeToChannels s), (likeVideos s); not_among.
Qed.

(** Once the video page is reached, with an engagement service that has
    the selector, the visit succeeds, whatever [watchVideo] returns. *)
Lemma supportChannel_reached (fuel : nat) (v : VisitScript) (channel : ChannelRecord)
    (s : Settings) (comments : list string) (videoUrl : string) (watched : bool)
    (getNextComment : list string -> Settings -> CommentResult) :
  vs_page v = true ->
  vs_gotoChannel v = Returns tt ->
  findLatestVideo v = Some videoUrl ->
  vs_gotoVideo v = Returns tt ->
  vs_getNextComment v = Some getNextComment ->
  watchVideo fuel (vs_watch v) (calculateWatchTime (vs_details v) s) = Some watched ->
  exists evs,
    supportChannel fuel v channel s comments
    = Some (true, recordComment (getNextComment comments s) s, evs).
Proof.
  intros Hp Hc Hv Hg Hn Hw. unfold supportChannel, navigateToChannelVideos.
  rewrite Hp, Hc, Hv, Hg, Hn. cbn [negb]. rewrite Hw. eauto.
Qed.


Lemma findIndexFrom_first {A} (p : A -> bool) (l : list A) (c : nat) (x : A) (i0 : Z) :
  l !! c = Some x -> p x = true ->
  (forall j y, (j < c)%nat -> l !! j = Some y -> p y = false) ->
  JsArray.findIndexFrom p l i0 = i0 + Z.of_nat c.
Proof.
  revert c i0. induction l as [| a l IH]; intros c i0 Hc Hx Hbefore; [discriminate |].
  destruct c as [| c]; cbn [JsArray.findIndexFrom].
  - cbn in Hc. inversion Hc; subst. rewrite Hx. lia.
  - rewrite (Hbefore 0%nat a) by (lia || reflexivity).
    rewrite (IH c (i0 + 1)); [lia | exact Hc | exact Hx |].
    intros j y Hj Hy. apply (Hbefore (S j) y); [lia | exact Hy].
Qed.

Lemma findIndex_by_id (channels : list ChannelRecord) (c : nat) (channel : ChannelRecord) :
  NoDup (id <$> channels) ->
  channels !! c = Some channel ->
  JsArray.findIndex (fun c' => String.eqb (id c') (id channel)) channels = Z.of_nat c.
Proof.
  intros Hnd Hc. unfold JsArray.findIndex.
  rewrite (findIndexFrom_first _ _ c channel); [lia | exact Hc | apply String.eqb_refl |].
  intros j y Hj Hy. apply String.eqb_neq. intros Heq.
  assert (j = c); [| lia].
  apply (NoDup_lookup (id <$> channels) j c (id y)); [assumption | |].
  - rewrite list_lookup_fmap, Hy. reflexivity.
  - rewrite list_lookup_fmap, Hc. cbn. by rewrite Heq.
Qed.

Lemma ids_after_support (channels : list ChannelRecord) (c : nat)
    (channel : ChannelRecord) (now : string) :
  channels !! c = Some channel ->
  id <$> <[c := supported now channel]> channels = id <$> channels.
Proof.
  intros Hc. rewrite list_fmap_insert. apply list_insert_id.
  rewrite list_lookup_fmap, Hc. reflexivity.
Qed.

(** What a successful iteration leaves behind. *)
Lemma visitStep_success (fuel : nat) (it : Iteration) (comments : list string)
    (c : nat) (st st' : RunState) :
  visitStep fuel it comments c st = Some (true, st') ->
  exists channel s1 evs,
    rs_channels st !! c = Some channel /\
    supportChannel fuel (it_visit it) channel (rs_settings st) comments
    = Some (true, s1, evs) /\
    rs_channels st' = <[c := supported (it_now it) channel]> (rs_channels st) /\
    rs_supportCount st' = rs_supportCount st + 1 /\
    rs_trace st' = rs_trace st ++ evs /\
    rotateChannels (rs_settings st') = rotateChannels s1 /\
    lastChannelIndex (rs_settings st')
    = (if match rotateChannels s1 with Some true => true | _ => false end
       then Some (JsArray.findIndex
                    (fun c' => String.eqb (id c') (id channel)) (rs_channels st))
       else lastChannelIndex s1).
Proof.
  unfold visitStep. intros H.
  destruct (rs_channels st !! c) as [channel |]; [| discriminate].
  destruct (supportChannel _ _ _ _ _) as [[[[] s1] evs] |] eqn:Hs;
    [| discriminate | discriminate].
  inversion H; subst; clear H. exists channel, s1, evs. cbn.
  repeat split; try reflexivity; try exact Hs;
    destruct (rotateChannels s1) as [[] |] eqn:Hr; cbn;
    repeat (case_match; cbn); congruence.
Qed.

End Visit.

Section VisitClaims.
Import VideoService EngagementService SupportService.

(** C8: with [rotateChannels] true, a successful visit of the channel that
    stands at step [i] of the rotated order sets [lastChannelIndex] to the
    position [c] of that channel in the original array, which is [(startIndex
    + i) mod length] and differs from [i] whenever the order is rotated; this
    holds for every non-empty list with unique ids and every rotation offset,
    at every iteration of the loop (the ids of the array and [rotateChannels]
    are kept by the iteration). *)
Theorem lastChannelIndex_is_original_index (fuel : nat) (it : Iteration)
    (comments : list string) (channels : list ChannelRecord) (settings : Settings)
    (i c : nat) (st st' : RunState) :
  channels <> [] ->
  NoDup (id <$> channels) ->
  reorderedChannels (seq 0 (length channels)) settings !! i = Some c ->
  id <$> rs_channels st = id <$> channels ->
  rotateChannels (rs_settings st) = Some true ->
  visitStep fuel it comments c st = Some (true, st') ->
  lastChannelIndex (rs_settings st') = Some (Z.of_nat c) /\
  (id <$> channels) !! c = id <$> (rs_channels st !! c) /\
  is_Some (channels !! c) /\
  Z.of_nat c = (startIndex (Z.of_nat (length channels)) settings + Z.of_nat i)
               mod Z.of_nat (length channels) /\
  (startIndex (Z.of_nat (length channels)) settings <> 0 -> c <> i) /\
  id <$> rs_channels st' = id <$> channels /\
  rotateChannels (rs_settings st') = Some true.
Proof.
  intros Hne Hnd Hi Hids Hrot Hstep.
  destruct (visitStep_success _ _ _ _ _ _ Hstep)
    as (channel & s1 & evs & Hc & Hs & Hch & _ & _ & Hr' & Hl').
  destruct (supportChannel_inv _ _ _ _ _ _ _ _ Hs) as (Hr1 & _ & _ & _).
  rewrite Hr1, Hrot in Hr', Hl'.
  destruct (reorderedChannels_position channels settings i c Hne Hi) as (Hlt & Hcpos & _).
  pose proof (startIndex_range _ settings (length_pos _ Hne)) as Hrange.
  assert (Hclt : (c < length channels)%nat).
  { apply lookup_lt_Some in Hc. rewrite <- (length_fmap id), Hids, length_fmap in Hc. exact Hc. }
  assert (HcZ : Z.of_nat c
                = (startIndex (Z.of_nat (length channels)) settings + Z.of_nat i)
                  mod Z.of_nat (length channels)).
  { rewrite Hcpos, Nat2Z.inj_mod, Nat2Z.inj_add, Z2Nat.id by lia. reflexivity. }
  split.
  - rewrite Hl'. f_equal. apply findIndex_by_id; [| exact Hc].
    rewrite Hids. exact Hnd.
  - split; [rewrite <- Hids, list_lookup_fmap; reflexivity |].
    split; [apply lookup_lt_is_Some; exact Hclt |].
    split; [exact HcZ |]. split.
    + intros Hstart Heq. subst c.
      set (n := Z.of_nat (length channels)) in *.
      set (k := startIndex n settings) in *.
      assert (Hcase : k + Z.of_nat i < n \/ n <= k + Z.of_nat i < 2 * n) by lia.
      destruct Hcase as [Hsm | Hbig].
      * rewrite Z.mod_small in HcZ by lia. lia.
      * assert (Hm : (k + Z.of_nat i) mod n = k + Z.of_nat i - n).
        { symmetry. apply (Z.mod_unique_pos _ _ 1); lia. }
        lia.
    + split; [| exact Hr'].
      rewrite Hch, ids_after_support by exact Hc. exact Hids.
Qed.

(** C8, witness: A, B, C resumed after index 0; the first channel visited
    is B, and its success records index 1, not position 0 of the order. *)
Lemma lastChannelIndex_is_original_index_witness :
  exists st',
    visitStep 100 (Examples.iteration (Examples.visit Examples.autoplayWatch))
      Examples.comments3 1
      (Examples.state Examples.channelsABC (Examples.rotating 0 (-1)))
    = Some (true, st') /\
    lastChannelIndex (rs_settings st') = Some 1.
Proof.
  eexists. split; [vm_compute; reflexivity |].
  refine (proj1 (lastChannelIndex_is_original_index 100
            (Examples.iteration (Examples.visit Examples.autoplayWatch))
            Examples.comments3 Examples.channelsABC (Examples.rotating 0 (-1))
            0 1 (Examples.state Examples.channelsABC (Examples.rotating 0 (-1))) _
            _ _ _ _ _ _)).
  - discriminate.
  - apply (bool_decide_unpack _). vm_compute. exact I.
  - vm_compute. reflexivity.
  - reflexivity.
  - reflexivity.
  - vm_compute. reflexivity.
Defined.

(** The fuel is no restriction: when the loop condition is false after [n]
    more rounds at the latest, [n] units of fuel give a result. *)
Lemma watchLoop_enough_fuel (n fuel : nat) (w : WatchScript) (vid : string)
    (target : number) (k : nat) (elapsed : Z) :
  ltb (ofZ (elapsed + checkInterval * Z.of_nat n)) target = false ->
  (n <= fuel)%nat ->
  is_Some (watchLoop fuel w vid target k elapsed).
Proof.
  revert fuel k elapsed. induction n as [| n IH]; intros fuel k elapsed Hstop Hfuel.
  - rewrite Z.mul_0_r, Z.add_0_r in Hstop.
    destruct fuel; cbn [watchLoop]; rewrite Hstop; cbn [negb]; eauto.
  - destruct fuel as [| fuel]; [lia |]. cbn [watchLoop].
    destruct (negb (ltb (ofZ elapsed) target)); [eauto |].
    destruct (ws_poll w k) as [st |]; [| eauto].
    destruct (_ && _); [eauto |]. destruct (_ || _); [eauto |].
    destruct (if isPaused st then ws_resume w k else Returns tt); [| eauto].
    apply IH; [| lia].
    rewrite Nat2Z.inj_succ in Hstop.
    replace (elapsed + checkInterval + checkInterval * Z.of_nat n)
      with (elapsed + checkInterval * Z.succ (Z.of_nat n)) by lia.
    exact Hstop.
Qed.

(** As long as the polls report the started video, neither ended nor near
    its end, and the target is not reached, the loop goes on. *)
Lemma watchLoop_video_changed (fuel : nat) (w : WatchScript) (vid : string)
    (target : number) (k j : nat) (elapsed : Z) :
  vid <> "" ->
  (forall i, (j <= i < j + k)%nat ->
     exists st, ws_poll w i = Returns st /\ videoId st = Some vid /\
                hasEnded st = false /\ isNearEnd st = false /\
                (isPaused st = true -> ws_resume w i = Returns tt)) ->
  (exists st, ws_poll w (j + k)%nat = Returns st /\ videoId st <> Some vid) ->
  (forall i, (i <= k)%nat -> ltb (ofZ (elapsed + 10 * Z.of_nat i)) target = true) ->
  (k < fuel)%nat ->
  watchLoop fuel w vid target j elapsed = Some (Returns VideoChanged).
Proof.
  intros Hvid. revert fuel j elapsed.
  induction k as [| k IH]; intros fuel j elapsed Hsteady Hchange Hlt Hfuel.
  - destruct fuel as [| fuel]; [lia |]. cbn [watchLoop].
    pose proof (Hlt 0%nat ltac:(lia)) as H0. rewrite Z.mul_0_r, Z.add_0_r in H0.
    rewrite H0. cbn [negb].
    destruct Hchange as (st & Hp & Hid). rewrite Nat.add_0_r in Hp. rewrite Hp.
    rewrite bool_decide_false by exact Hid.
    apply String.eqb_neq in Hvid. rewrite Hvid. reflexivity.
  - destruct fuel as [| fuel]; [lia |]. cbn [watchLoop].
    pose proof (Hlt 0%nat ltac:(lia)) as H0. rewrite Z.mul_0_r, Z.add_0_r in H0.
    rewrite H0. cbn [negb].
    destruct (Hsteady j ltac:(lia)) as (st & Hp & Hid & He & Hn & Hres).
    rewrite Hp, bool_decide_true by exact Hid. cbn [negb andb].
    rewrite He, Hn. cbn [orb].
    assert (Hr : (if isPaused st then ws_resume w j else Returns tt) = Returns tt).
    { destruct (isPaused st); [apply Hres; reflexivity | reflexivity]. }
    rewrite Hr. apply IH.
    + intros i Hi. apply Hsteady. lia.
    + replace (S j + k)%nat with (j + S k)%nat by lia. exact Hchange.
    + intros i Hi. specialize (Hlt (S i) ltac:(lia)).
      unfold checkInterval. rewrite Nat2Z.inj_succ in Hlt.
      replace (elapsed + 10 + 10 * Z.of_nat i)
        with (elapsed + 10 * Z.succ (Z.of_nat i)) by lia. exact Hlt.
    + lia.
Qed.

(** An iteration whose visit reaches the video page, with an engagement
    service that has the selector, counts the channel as supported, with
    the support count raised by one and the timestamp set, whatever
    [watchVideo] returns. *)
Lemma visitStep_reached (fuel : nat) (it : Iteration) (comments : list string)
    (c : nat) (st : RunState) (channel : ChannelRecord) (videoUrl : string)
    (watched : bool) (getNextComment : list string -> Settings -> CommentResult) :
  rs_channels st !! c = Some channel ->
  vs_page (it_visit it) = true ->
  vs_gotoChannel (it_visit it) = Returns tt ->
  findLatestVideo (it_visit it) = Some videoUrl ->
  vs_gotoVideo (it_visit it) = Returns tt ->
  vs_getNextComment (it_visit it) = Some getNextComment ->
  watchVideo fuel (vs_watch (it_visit it))
    (calculateWatchTime (vs_details (it_visit it)) (rs_settings st)) = Some watched ->
  exists st',
    visitStep fuel it comments c st = Some (true, st') /\
    rs_channels st' !! c = Some (supported (it_now it) channel) /\
    rs_supportCount st' = rs_supportCount st + 1.
Proof.
  intros Hc Hp Hg Hv Hgv Hn Hw.
  destruct (supportChannel_reached fuel (it_visit it) channel (rs_settings st) comments
              videoUrl watched getNextComment Hp Hg Hv Hgv Hn Hw) as (evs & Hs).
  unfold visitStep. rewrite Hc, Hs. eexists. split; [reflexivity |]. cbn.
  split; [| reflexivity].
  apply list_lookup_insert_eq. apply lookup_lt_Some in Hc. exact Hc.
Qed.

(** When the video identifier changes at poll [k] of a visit that has
    got as far as the watch (the initial identifier being known), the watch
    ends there, and the visit is a success: support count raised, timestamp
    set. *)
Lemma video_change_counts_as_supported (fuel : nat) (it : Iteration)
    (comments : list string) (c : nat) (st : RunState) (channel : ChannelRecord)
    (videoUrl vid : string) (k : nat)
    (getNextComment : list string -> Settings -> CommentResult) :
  rs_channels st !! c = Some channel ->
  vs_page (it_visit it) = true ->
  vs_gotoChannel (it_visit it) = Returns tt ->
  findLatestVideo (it_visit it) = Some videoUrl ->
  vs_gotoVideo (it_visit it) = Returns tt ->
  vs_getNextComment (it_visit it) = Some getNextComment ->
  ws_start (vs_watch (it_visit it)) = Returns tt ->
  ws_initialVideoId (vs_watch (it_visit it)) = Returns vid ->
  vid <> "" ->
  (forall i, (i < k)%nat ->
     exists vst, ws_poll (vs_watch (it_visit it)) i = Returns vst /\
                 videoId vst = Some vid /\ hasEnded vst = false /\
                 isNearEnd vst = false /\
                 (isPaused vst = true -> ws_resume (vs_watch (it_visit it)) i = Returns tt)) ->
  (exists vst, ws_poll (vs_watch (it_visit it)) k = Returns vst /\ videoId vst <> Some vid) ->
  (forall i, (i <= k)%nat ->
     ltb (ofZ (10 * Z.of_nat i))
         (calculateWatchTime (vs_details (it_visit it)) (rs_settings st)) = true) ->
  (k < fuel)%nat ->
  watchLoop fuel (vs_watch (it_visit it)) vid
    (calculateWatchTime (vs_details (it_visit it)) (rs_settings st)) 0 0
  = Some (Returns VideoChanged) /\
  watchVideo fuel (vs_watch (it_visit it))
    (calculateWatchTime (vs_details (it_visit it)) (rs_settings st)) = Some true /\
  exists st',
    visitStep fuel it comments c st = Some (true, st') /\
    rs_channels st' !! c = Some (supported (it_now it) channel) /\
    supportCount (supported (it_now it) channel) = supportCount channel + 1 /\
    lastSupported (supported (it_now it) channel) = Some (it_now it) /\
    rs_supportCount st' = rs_supportCount st + 1.
Proof.
  intros Hc Hp Hg Hv Hgv Hn Hs Hi Hvid Hsteady Hchange Hlt Hfuel.
  assert (Hloop : watchLoop fuel (vs_watch (it_visit it)) vid
                    (calculateWatchTime (vs_details (it_visit it)) (rs_settings st)) 0 0
                  = Some (Returns VideoChanged)).
  { apply (watchLoop_video_changed _ _ _ _ k); try assumption.
    intros i Hik. apply Hsteady. lia. }
  split; [exact Hloop |].
  assert (Hw : watchVideo fuel (vs_watch (it_visit it))
                 (calculateWatchTime (vs_details (it_visit it)) (rs_settings st))
               = Some true).
  { unfold watchVideo. rewrite Hs, Hi, Hloop. reflexivity. }
  split; [exact Hw |].
  destruct (visitStep_reached fuel it comments c st channel videoUrl true getNextComment
              Hc Hp Hg Hv Hgv Hn Hw) as (st' & Hstep & Hch & Hcount).
  exists st'. repeat split; assumption || reflexivity.
Qed.

(** The script in which autoplay moves on at the second poll. *)
Example video_change_at_second_poll :
  watchLoop 100 Examples.autoplayWatch "dQw4w9WgXcQ"
    (calculateWatchTime (Examples.video (ofZ 600)) (Examples.rotating 0 (-1))) 0 0
  = Some (Returns VideoChanged).
Proof.
  refine (proj1 (video_change_counts_as_supported 100
            (Examples.iteration (Examples.visit Examples.autoplayWatch))
            Examples.comments3 1
            (Examples.state Examples.channelsABC (Examples.rotating 0 (-1)))
            (Examples.channel "UCb" "B")
            "https://www.youtube.com/watch?v=dQw4w9WgXcQ" "dQw4w9WgXcQ" 1
            EngagementService.getNextComment
            eq_refl eq_refl eq_refl eq_refl eq_refl eq_refl eq_refl eq_refl _ _ _ _ _)).
  - discriminate.
  - intros i Hi. assert (i = 0%nat) as -> by lia.
    exists (Examples.playing "dQw4w9WgXcQ"). repeat split; reflexivity.
  - exists (Examples.playing "9bZkp7q19f0"). split; [reflexivity | discriminate].
  - intros i Hi. assert (i = 0%nat \/ i = 1%nat) as [-> | ->] by lia;
      vm_compute; reflexivity.
  - lia.
Qed.



(** With an engagement service that has the selector the watch is reached,
    and the status that [watchVideo] returns is not read: a watch whose
    first poll throws makes [watchVideo] return [false], yet
    [supportChannel] returns [true] and the iteration raises the channel's
    support count and sets its timestamp, exactly as when autoplay moves
    on; a throw of the navigation to the video makes the visit fail and
    leaves the count alone. *)
Example watch_error_with_selector :
  let st := Examples.state Examples.channelsABC (Examples.rotating 0 (-1)) in
  (forall fuel target, watchVideo (S fuel) Examples.brokenWatch target = Some false
                       \/ ltb (ofZ 0) target = false) /\
  watchVideo 100 Examples.brokenWatch
    (calculateWatchTime (vs_details (Examples.visit Examples.brokenWatch)) (rs_settings st))
  = Some false /\
  (exists st',
     visitStep 100 (Examples.iteration (Examples.visit Examples.brokenWatch))
       Examples.comments3 1 st = Some (true, st') /\
     supportCount <$> rs_channels st' = [0; 1; 0] /\
     lastSupported <$> rs_channels st' = [None; Some "2025-06-01T12:00:00.000Z"; None] /\
     rs_supportCount st' = 1) /\
  (exists st',
     visitStep 100 (Examples.iteration (Examples.visit Examples.autoplayWatch))
       Examples.comments3 1 st = Some (true, st') /\
     supportCount <$> rs_channels st' = [0; 1; 0] /\
     rs_supportCount st' = 1) /\
  (exists st',
     visitStep 100 (Examples.iteration Examples.unreachableVisit)
       Examples.comments3 1 st = Some (false, st') /\
     supportCount <$> rs_channels st' = [0; 0; 0] /\
     rs_supportCount st' = 0).
Proof.
  intros st. split.
  - intros fuel target. unfold watchVideo. cbn.
    destruct (ltb (S754_zero false) target); [left; reflexivity | right; reflexivity].
  - split; [vm_compute; reflexivity |].
    split; [eexists; split; [vm_compute; reflexivity |]; repeat split |].
    split; eexists; (split; [vm_compute; reflexivity |]); repeat split.
Qed.

End VisitClaims.

(** ** The run *)

Section Run.
Import VideoService EngagementService SupportService.

Lemma loadSettings_saveChannels (ok : bool) (channels : list ChannelRecord) (d : Disk) :
  DataService.loadSettings (DataService.saveChannels ok channels d)
  = DataService.loadSettings d.
Proof. destruct ok; reflexivity. Qed.

Lemma loadSettings_saveSettings (ok : bool) (s : Settings) (d : Disk) :
  DataService.loadSettings (DataService.saveSettings ok s d)
  = if ok then s else DataService.loadSettings d.
Proof. destruct ok; reflexivity. Qed.

Lemma visitStep_keeps (r : option bool) (fuel : nat) (it : Iteration)
    (comments : list string) (c : nat) (st st' : RunState) (b : bool) :
  keeps r st -> visitStep fuel it comments c st = Some (b, st') -> keeps r st'.
Proof.
  intros (Hs & Hd & Ht) H. unfold visitStep in H.
  destruct (rs_channels st !! c) as [channel |]; [| discriminate].
  destruct (supportChannel _ _ _ _ _) as [[[success s1] evs] |] eqn:Hsup; [| discriminate].
  destruct (supportChannel_inv _ _ _ _ _ _ _ _ Hsup) as (Hr1 & _ & Hev & _).
  assert (Htrace : forall k, StartFromIndex k ∉ rs_trace st ++ evs).
  { intros k Hin. apply elem_of_app in Hin as [Hin | Hin];
      [exact (Ht k Hin) | exact (Hev k Hin)]. }
  destruct success; inversion H; subst; clear H; unfold keeps; cbn.
  - split; [| split; [| exact Htrace]].
    + destruct (rotateChannels s1) as [[] |] eqn:Hr; cbn;
        repeat (case_match; cbn); congruence.
    + destruct (rotateChannels s1) as [[] |] eqn:Hr; cbn;
        repeat (case_match; cbn);
        rewrite ?loadSettings_saveSettings, ?loadSettings_saveChannels;
        repeat (case_match; cbn); congruence.
  - split; [congruence |]. split; [exact Hd | exact Htrace].
Qed.

Lemma visitLoop_keeps (r : option bool) (fuel : nat) (iter : nat -> Iteration)
    (comments : list string) (queue : list nat) (i : nat) (st st' : RunState) :
  keeps r st -> visitLoop fuel iter comments queue i st = Some st' -> keeps r st'.
Proof.
  revert i st. induction queue as [| c queue IH]; intros i st Hk H; cbn [visitLoop] in H.
  - inversion H; subst. exact Hk.
  - destruct (visitStep fuel (iter i) comments c st) as [[b st1] |] eqn:Hstep; [| discriminate].
    pose proof (visitStep_keeps r _ _ _ _ _ _ _ Hk Hstep) as Hk1.
    destruct (is_yes _); [exact (IH _ _ Hk1 H) | inversion H; subst; exact Hk1].
Qed.

Lemma resumesRotation_off (s : Settings) :
  rotateChannels s <> Some true -> resumesRotation s = false.
Proof.
  unfold resumesRotation. destruct (rotateChannels s) as [[] |]; [congruence | |]; reflexivity.
Qed.

Lemma startSupporting_keeps (passes fuel : nat) (script : nat -> PassScript) (pass : nat)
    (disk disk' : Disk) (evs : list event) (ends : list PassEnd) :
  rotateChannels (DataService.loadSettings disk) <> Some true ->
  startSupporting passes fuel script pass disk = Some (disk', evs, ends) ->
  (forall k, StartFromIndex k ∉ evs) /\
  rotateChannels (DataService.loadSettings disk')
  = rotateChannels (DataService.loadSettings disk).
Proof.
  revert pass disk disk' evs ends.
  induction passes as [| passes IH]; intros pass disk disk' evs ends Hoff H;
    cbn [startSupporting] in H;
    [inversion H; subst; split; [not_among | reflexivity] |].
  destruct (ps_browser (script pass)); cbn [negb] in H;
    [| inversion H; subst; split; [not_among | reflexivity]].
  destruct (ps_authenticated (script pass)); cbn [negb] in H;
    [| inversion H; subst; split; [not_among | reflexivity]].
  destruct (length (DataService.loadChannels disk) =? 0)%nat;
    [inversion H; subst; split; [not_among | reflexivity] |].
  destruct (length (DataService.loadComments disk) =? 0)%nat;
    [inversion H; subst; split; [not_among | reflexivity] |].
  destruct (is_yes (ps_confirm (script pass))); cbn [negb] in H;
    [| inversion H; subst; split; [not_among | reflexivity]].
  rewrite (resumesRotation_off _ Hoff) in H.
  match type of H with
  | match visitLoop ?f ?it ?cm ?q ?i ?st0 with _ => _ end = _ =>
      destruct (visitLoop f it cm q i st0) as [st |] eqn:Hloop; [| discriminate];
      assert (Hk0 : keeps (rotateChannels (DataService.loadSettings disk)) st0)
        by (unfold keeps; cbn; split; [reflexivity | split; [reflexivity | not_among]]);
      pose proof (visitLoop_keeps _ _ _ _ _ _ _ _ Hk0 Hloop) as Hk
  end.
  destruct Hk as (_ & Hd & Ht).
  destruct (is_yes (ps_restart (script pass))).
  - destruct (startSupporting passes fuel script (S pass) (rs_disk st))
      as [[[disk1 evs1] ends1] |] eqn:Hrec; [| discriminate].
    inversion H; subst; clear H.
    destruct (IH _ _ _ _ _ ltac:(rewrite Hd; exact Hoff) Hrec) as [Hev1 Hd1].
    split; [| congruence].
    intros k Hin. apply elem_of_app in Hin as [Hin | Hin];
      [exact (Ht k Hin) | exact (Hev1 k Hin)].
  - inversion H; subst; clear H. split; assumption.
Qed.

End Run.

Section RunClaims.
Import VideoService EngagementService SupportService.

(** C7: an empty channel list or an empty comment pool ends the run in its
    first pass, whatever the scripts and for every bound on the passes: the
    disk is returned as it was (no support count raised, no setting changed)
    and no event is a navigation; with the browser ready and the account
    logged in, the only event is the message of the failed precondition. *)
Theorem empty_lists_abort_before_any_visit (passes fuel : nat)
    (script : nat -> PassScript) (pass : nat) (disk : Disk) :
  DataService.loadChannels disk = [] \/ DataService.loadComments disk = [] ->
  exists evs pend,
    startSupporting (S passes) fuel script pass disk = Some (disk, evs, [pend]) /\
    (forall u, Goto u ∉ evs) /\
    (pend = BrowserNotInitialized \/ pend = NotLoggedIn \/
     pend = NoChannels \/ pend = NoComments) /\
    (ps_browser (script pass) = true -> ps_authenticated (script pass) = true ->
     (pend = NoChannels /\ evs = [Console noChannelsMessage]) \/
     (pend = NoComments /\ evs = [Console noCommentsMessage])).
Proof.
  intros Hempty. cbn [startSupporting].
  destruct (ps_browser (script pass)); cbn [negb];
    [| exists [], BrowserNotInitialized;
       split; [reflexivity |]; split; [not_among |]; split; [auto | discriminate]].
  destruct (ps_authenticated (script pass)); cbn [negb];
    [| exists [], NotLoggedIn;
       split; [reflexivity |]; split; [not_among |]; split; [auto | discriminate]].
  destruct (DataService.loadChannels disk) as [| ch chs] eqn:Hch.
  - exists [Console noChannelsMessage], NoChannels. cbn.
    split; [reflexivity |]. split; [not_among |]. split; auto.
  - destruct Hempty as [Hempty | Hempty]; [discriminate |]. rewrite Hempty.
    exists [Console noCommentsMessage], NoComments. cbn.
    split; [reflexivity |]. split; [not_among |]. split; auto.
Qed.

(** C7, witness: three channels and an empty comment pool. *)
Lemma empty_lists_abort_before_any_visit_witness :
  exists evs pend,
    startSupporting 3 100 (fun _ => Examples.pass (Examples.visit Examples.steadyWatch)) 0
      (Examples.disk Examples.channelsABC [] Absent)
    = Some (Examples.disk Examples.channelsABC [] Absent, evs, [pend]) /\
    (forall u, Goto u ∉ evs) /\
    pend = NoComments /\ evs = [Console noCommentsMessage].
Proof.
  destruct (empty_lists_abort_before_any_visit 2 100
              (fun _ => Examples.pass (Examples.visit Examples.steadyWatch)) 0
              (Examples.disk Examples.channelsABC [] Absent)
              (or_intror eq_refl))
    as (evs & pend & Heq & Hgo & _ & Hpre).
  exists evs, pend. split; [exact Heq |]. split; [exact Hgo |].
  destruct (Hpre eq_refl eq_refl) as [[-> ->] | [-> ->]];
    [vm_compute in Heq; discriminate Heq | split; reflexivity].
Defined.

Lemma reorderedChannels_not_resumed {A} (channels : list A) (s : Settings) :
  resumesRotation s = false -> reorderedChannels channels s = channels.
Proof.
  intros Hoff.
  assert (Hz : startIndex (Z.of_nat (length channels)) s = 0).
  { unfold startIndex. unfold resumesRotation in Hoff.
    destruct (rotateChannels s) as [[] |]; try reflexivity.
    destruct (lastChannelIndex s); [| reflexivity]. rewrite Hoff. reflexivity. }
  unfold reorderedChannels. rewrite Hz, slice_from, slice_upto by lia.
  cbn. apply app_nil_r.
Qed.

(** C10: when the settings file is absent or unreadable, [loadSettings]
    returns the default object, which has none of [rotateChannels],
    [lastChannelIndex], [lastCommentIndex]; the guard of the rotation is then
    false, every list is visited in its stored order from index 0, and in
    every run from that disk no pass resumes a rotation and the settings
    written back still have no [rotateChannels]. *)
Theorem default_settings_never_rotate (disk : Disk) :
  settingsFile disk = Absent \/ settingsFile disk = Unreadable ->
  DataService.loadSettings disk = DataService.defaultSettings /\
  rotateChannels (DataService.loadSettings disk) = None /\
  lastChannelIndex (DataService.loadSettings disk) = None /\
  lastCommentIndex (DataService.loadSettings disk) = None /\
  resumesRotation (DataService.loadSettings disk) = false /\
  (forall n, startIndex n (DataService.loadSettings disk) = 0) /\
  (forall (A : Type) (channels : list A),
     reorderedChannels channels (DataService.loadSettings disk) = channels) /\
  (forall passes fuel script pass disk' evs ends,
     startSupporting passes fuel script pass disk = Some (disk', evs, ends) ->
     (forall k, StartFromIndex k ∉ evs) /\
     rotateChannels (DataService.loadSettings disk') = None).
Proof.
  intros Hfile.
  assert (Hdef : DataService.loadSettings disk = DataService.defaultSettings).
  { unfold DataService.loadSettings. destruct Hfile as [-> | ->]; reflexivity. }
  rewrite Hdef. repeat split; try reflexivity.
  - intros A channels. apply reorderedChannels_not_resumed. reflexivity.
  - eapply startSupporting_keeps; [| eassumption]. rewrite Hdef. discriminate.
  - destruct (startSupporting_keeps _ _ _ _ _ _ _ _
                ltac:(rewrite Hdef; discriminate) H) as [_ Hr].
    rewrite Hr, Hdef. reflexivity.
Qed.

(** C10, witness: no settings file, the channels A, B, C. *)
Lemma default_settings_never_rotate_witness :
  rotateChannels (DataService.loadSettings
                    (Examples.disk Examples.channelsABC Examples.comments3 Absent)) = None /\
  reorderedChannels Examples.channelsABC
    (DataService.loadSettings (Examples.disk Examples.channelsABC Examples.comments3 Absent))
  = Examples.channelsABC.
Proof.
  pose proof (default_settings_never_rotate
                (Examples.disk Examples.channelsABC Examples.comments3 Absent)
                (or_introl eq_refl)) as (_ & Hr & _ & _ & _ & _ & Hord & _).
  split; [exact Hr | exact (Hord _ Examples.channelsABC)].
Defined.

End RunClaims.

(** ** The settings menu *)

Section SettingsMenu.
Import SupportSettingsMenuHandler.

Lemma saveSettings_ok (ok : bool) (s : Settings) (f : file Settings) :
  minWatchTimeSeconds s <= maxWatchTimeSeconds s -> file_ok f ->
  file_ok (saveSettings ok s f).
Proof. intros Hs Hf. destruct ok; [exact Hs | exact Hf]. Qed.

Ltac edit_cases :=
  repeat match goal with
         | |- context [if ?b then _ else _] => destruct b eqn:?
         | |- context [match parseInt ?i with _ => _ end] => destruct (parseInt i) eqn:?
         end.

Lemma handleChoice_keeps (choice input : string) (ok : bool)
    (s : Settings) (f : file Settings) :
  minWatchTimeSeconds s <= maxWatchTimeSeconds s ->
  minWatchTimeSeconds (fst (handleChoice choice input ok s f))
  <= maxWatchTimeSeconds (fst (handleChoice choice input ok s f)) /\
  (file_ok f -> file_ok (snd (handleChoice choice input ok s f))).
Proof.
  intros Hs.
  unfold handleChoice, changeWatchTimePercentage, changeMinWatchTime,
    changeMaxWatchTime, toggleLikeVideos, toggleSubscribe, changePauseTime,
    resetToDefaults.
  edit_cases; cbn [fst snd]; (split; [| intros Hf; try apply saveSettings_ok]);
    cbn; try assumption; lia.
Qed.

(** C9: from a state with [min <= max], changing the minimum rejects every
    value above the current maximum and changing the maximum rejects every
    value below the current minimum, both leaving the settings object and
    the file as they were; and every operation of the menu leaves a settings
    object and a settings file that still satisfy [min <= max]. *)
Theorem settings_edits_keep_min_le_max (s : Settings) :
  minWatchTimeSeconds s <= maxWatchTimeSeconds s ->
  (forall input ok f newValue,
     parseInt input = Some newValue -> maxWatchTimeSeconds s < newValue ->
     changeMinWatchTime input ok s f = (s, f)) /\
  (forall input ok f newValue,
     parseInt input = Some newValue -> newValue < minWatchTimeSeconds s ->
     changeMaxWatchTime input ok s f = (s, f)) /\
  (forall choice input ok f,
     minWatchTimeSeconds (fst (handleChoice choice input ok s f))
     <= maxWatchTimeSeconds (fst (handleChoice choice input ok s f)) /\
     (file_ok f -> file_ok (snd (handleChoice choice input ok s f)))).
Proof.
  intros Hs. split; [| split].
  - intros input ok f v Hp Hv. unfold changeMinWatchTime. rewrite Hp.
    destruct (cancelled input); [reflexivity |].
    destruct ((v <? 10) || (300 <? v)); [reflexivity |].
    destruct (Z.ltb_spec (maxWatchTimeSeconds s) v); [reflexivity | lia].
  - intros input ok f v Hp Hv. unfold changeMaxWatchTime. rewrite Hp.
    destruct (cancelled input); [reflexivity |].
    destruct ((v <? 60) || (3600 <? v)); [reflexivity |].
    destruct (Z.ltb_spec v (minWatchTimeSeconds s)); [reflexivity | lia].
  - intros choice input ok f. apply handleChoice_keeps. exact Hs.
Qed.

(** C9, witness: with a minimum of 100 a maximum of 80 is refused; under
    the defaults (60 to 600) a minimum of 120 is accepted. *)
Lemma settings_edits_keep_min_le_max_witness :
  changeMaxWatchTime "80" true (Examples.withWatchTimes 70 100 600) Absent
  = (Examples.withWatchTimes 70 100 600, Absent) /\
  minWatchTimeSeconds (fst (handleChoice "2" "120" true DataService.defaultSettings Absent))
  <= maxWatchTimeSeconds (fst (handleChoice "2" "120" true DataService.defaultSettings Absent)).
Proof.
  split.
  - apply (proj1 (proj2 (settings_edits_keep_min_le_max (Examples.withWatchTimes 70 100 600)
                           ltac:(cbn; lia))) "80" true Absent 80);
      [vm_compute; reflexivity | cbn; lia].
  - apply (proj2 (proj2 (settings_edits_keep_min_le_max DataService.defaultSettings
                           ltac:(cbn; lia)))).
Defined.

(** A whole round of the menu keeps the invariant of the settings file. *)
Lemma showMenu_keeps_file_ok (okLoad : bool) (choice input : string) (ok : bool)
    (f : file Settings) :
  file_ok f -> file_ok (showMenu okLoad choice input ok f).
Proof.
  intros Hf. unfold showMenu.
  destruct (loadSettings okLoad f) as [s f1] eqn:Hload.
  assert (Hs : minWatchTimeSeconds s <= maxWatchTimeSeconds s /\ file_ok f1).
  { unfold loadSettings in Hload. destruct f as [| | s0]; inversion Hload; subst.
    - split; [cbn; lia | destruct okLoad; cbn; [lia | exact I]].
    - split; [cbn; lia | exact I].
    - split; assumption. }
  destruct Hs as [Hs Hf1]. apply handleChoice_keeps; assumption.
Qed.

End SettingsMenu.

(** * Further properties *)

(** ** Exact conversions and the order of binary64 numbers *)

Ltac fsplit x :=
  destruct x as [[] | [] | | [] ? ?]; try contradiction.

Ltac fcmp_step :=
  match goal with
  | H : context [(?a ?= ?a)%Z] |- _ => rewrite Z.compare_refl in H
  | |- context [(?a ?= ?a)%Z] => rewrite Z.compare_refl
  | H : context [(?a ?= ?a)%positive] |- _ => rewrite Pos.compare_refl in H
  | |- context [(?a ?= ?a)%positive] => rewrite Pos.compare_refl
  | H : context [(?a ?= ?b)%Z] |- _ => destruct (Z.compare_spec a b); try subst
  | |- context [(?a ?= ?b)%Z] => destruct (Z.compare_spec a b); try subst
  | H : context [(?a ?= ?b)%positive] |- _ => destruct (Pos.compare_spec a b); try subst
  | |- context [(?a ?= ?b)%positive] => destruct (Pos.compare_spec a b); try subst
  end.

Ltac fcmp :=
  unfold leb, ltb, SFleb, SFltb, Math_min, Math_max in *; cbn [SFcompare] in *;
  change (Pos.compare_cont Eq) with Pos.compare in *;
  repeat (fcmp_step; cbn [SFcompare] in *; change (Pos.compare_cont Eq) with Pos.compare in *);
  try reflexivity; try discriminate; try lia; try exact I.

Section ExactNumbers.

Lemma round_aux_exact (P : positive) (E : Z) :
  fexp prec emax (Z.pos (digits2_pos P) + E) = E -> E <= 971 ->
  binary_round_aux prec emax false (Z.pos P) E loc_Exact = S754_finite false P E.
Proof.
  intros Hf HE. unfold binary_round_aux, shr_fexp.
  change (Zdigits2 (Z.pos P)) with (Z.pos (digits2_pos P)).
  rewrite Hf, Z.sub_diag. cbn [shr shr_record_of_loc shr_m loc_of_shr_record round_nearest_even].
  change (Zdigits2 (Z.pos P)) with (Z.pos (digits2_pos P)).
  rewrite Hf, Z.sub_diag. cbn [shr shr_record_of_loc shr_m].
  replace (E <=? emax - prec) with true; [reflexivity |].
  symmetry. apply Z.leb_le. unfold emax, prec. lia.
Qed.

(** An integer below [2^53] is converted exactly: its mantissa is the
    integer shifted to 53 bits. *)
Lemma ofZ_exact (z : Z) :
  0 < z < 2 ^ 53 ->
  exists m e, ofZ z = S754_finite false m e /\
              -52 <= e <= 0 /\
              Z.pos m = z * 2 ^ (- e) /\
              Z.pos (digits2_pos m) = 53.
Proof.
  intros Hz. destruct z as [| pz |]; try lia.
  pose proof (digits2_pos_bounds pz) as [Hlo Hhi].
  pose proof (digits2_pos_le pz 53 ltac:(lia) (proj2 Hz)) as Hd.
  unfold ofZ, binary_normalize, binary_round.
  pose proof (shl_align_spec pz 0 (fexp prec emax (Z.pos (digits2_pos pz) + 0))) as Hs.
  destruct (shl_align pz 0 _) as [mz ez]. destruct Hs as [Hez Hmz].
  rewrite fexp_eq in Hez.
  assert (Hez' : ez = Z.pos (digits2_pos pz) - 53) by lia.
  assert (Hdz : Z.pos (digits2_pos mz) = 53).
  { apply digits2_pos_unique. rewrite Hmz.
    replace 53 with (Z.pos (digits2_pos pz) + (0 - ez)) at 2 by lia.
    replace (53 - 1) with ((Z.pos (digits2_pos pz) - 1) + (0 - ez)) by lia.
    rewrite !Z.pow_add_r by lia.
    assert (0 < 2 ^ (0 - ez)) by (apply Z.pow_pos_nonneg; lia).
    hide_pow. nia. }
  exists mz, ez. split.
  - apply round_aux_exact; [rewrite fexp_eq, Hdz; lia | lia].
  - split; [lia |]. split; [rewrite Hmz; f_equal; f_equal; lia | exact Hdz].
Qed.

Lemma ofZ_leb (a b : Z) : 0 <= a <= b -> b < 2 ^ 53 -> leb (ofZ a) (ofZ b) = true.
Proof.
  intros Hab Hb.
  destruct (Z.eq_dec b 0) as [-> | Hb0]; [replace a with 0 by lia; reflexivity |].
  destruct (ofZ_exact b ltac:(lia)) as (mb & eb & Heq & He & Hm & Hd).
  rewrite Heq. apply below_leb. apply ofZ_below; [lia | lia | lia |].
  apply (dyadic_le_offset _ _ _ _ eb); [lia | lia |].
  rewrite Z.sub_diag, Z.mul_1_r, Hm. replace (0 - eb) with (- eb) by lia.
  assert (0 < 2 ^ (- eb)) by (apply Z.pow_pos_nonneg; lia). nia.
Qed.

Lemma ofZ_ltb (a b : Z) : 0 <= a < b -> b < 2 ^ 53 -> ltb (ofZ a) (ofZ b) = true.
Proof.
  intros Hab Hb.
  destruct (ofZ_exact b ltac:(lia)) as (mb & eb & Heqb & Heb & Hmb & Hdb).
  destruct (Z.eq_dec a 0) as [-> | Ha0]; [rewrite Heqb; reflexivity |].
  destruct (ofZ_exact a ltac:(lia)) as (ma & ea & Heqa & Hea & Hma & Hda).
  rewrite Heqa, Heqb. unfold ltb, SFltb; cbn [SFcompare].
  pose proof (digits2_pos_bounds ma) as [Hma1 _]. rewrite Hda in Hma1.
  pose proof (digits2_pos_bounds mb) as [_ Hmb2]. rewrite Hdb in Hmb2.
  change (2 ^ (53 - 1)) with 4503599627370496 in Hma1.
  change (2 ^ 53) with 9007199254740992 in Hmb2.
  destruct (Z.compare_spec ea eb) as [-> | Hlt | Hgt]; [| reflexivity | exfalso].
  - change (Pos.compare_cont Eq ma mb) with (Pos.compare ma mb).
    assert (0 < 2 ^ (- eb)) by (apply Z.pow_pos_nonneg; lia).
    destruct (Pos.compare_spec ma mb) as [-> | ? | ?]; [nia | reflexivity | nia].
  - replace (- eb) with ((- ea) + (ea - eb)) in Hmb by lia.
    rewrite Z.pow_add_r in Hmb by lia.
    assert (0 < 2 ^ (- ea)) by (apply Z.pow_pos_nonneg; lia).
    assert (2 <= 2 ^ (ea - eb)).
    { change 2 with (2 ^ 1) at 1. apply Z.pow_le_mono_r; lia. }
    set (pa := 2 ^ (- ea)) in *. set (q := 2 ^ (ea - eb)) in *.
    assert (H1 : Z.pos ma < b * pa) by nia.
    assert (H2 : 2 * (b * pa) <= b * pa * q) by nia.
    rewrite Z.mul_assoc in Hmb. lia.
Qed.

Lemma leb_ltb_false (x y : number) :
  nonneg x -> nonneg y -> leb x y = true -> ltb y x = false.
Proof. intros Hx Hy. fsplit x; fsplit y; intros H; fcmp. Qed.

Lemma ofZ_small_nonneg (z : Z) : 0 <= z < 2 ^ 53 -> nonneg (ofZ z).
Proof.
  intros Hz. destruct (Z.eq_dec z 0) as [-> | ?]; [exact I |].
  destruct (ofZ_exact z ltac:(lia)) as (m & e & -> & _). exact I.
Qed.

End ExactNumbers.

(** ** The watch time and the cap of the settings *)

Section WatchTimeCap.
Import VideoService.

Lemma min_l_eq (x y : number) :
  nonneg x -> nonneg y -> leb x y = true -> Math_min x y = x.
Proof. intros Hx Hy H. fsplit x; fsplit y; fcmp. Qed.

Lemma max_l_eq (x y : number) :
  nonneg x -> nonneg y -> ltb y x = true -> Math_max x y = x.
Proof. intros Hx Hy H. fsplit x; fsplit y; fcmp. Qed.

Lemma leb_ltb_trans (x y z : number) :
  nonneg x -> nonneg y -> nonneg z ->
  leb x y = true -> ltb y z = true -> ltb x z = true.
Proof. intros Hx Hy Hz H1 H2. fsplit x; fsplit y; fsplit z; fcmp. Qed.

Lemma ltb_leb (x y : number) :
  nonneg x -> nonneg y -> ltb x y = true -> leb x y = true.
Proof. intros Hx Hy H. fsplit x; fsplit y; fcmp. Qed.

(** The computed watch time is a number that is not negative, at least the
    smaller of the minimum and the duration, and at most the maximum. *)
Lemma calculateWatchTime_cap (v : VideoDetails) (s : Settings) :
  positive_finite (durationSeconds v) ->
  10 <= watchTimePercentage s <= 100 ->
  0 <= minWatchTimeSeconds s <= maxWatchTimeSeconds s ->
  maxWatchTimeSeconds s < 2 ^ 53 ->
  nonneg (calculateWatchTime v s) /\
  leb (Math_min (ofZ (minWatchTimeSeconds s)) (durationSeconds v))
      (calculateWatchTime v s) = true /\
  leb (calculateWatchTime v s) (ofZ (maxWatchTimeSeconds s)) = true.
Proof.
  intros Hd Hp Hmm Hmax. unfold calculateWatchTime.
  destruct (durationSeconds v) as [| | | [] md ed] eqn:Ed; try contradiction.
  cbn in Hd. destruct (bounded_inv _ _ Hd) as [Hdig He].
  set (d := S754_finite false md ed).
  set (F := Math_floor (mul d (div (ofZ (watchTimePercentage s)) (ofZ 100)))).
  set (M := ofZ (maxWatchTimeSeconds s)). set (m0 := ofZ (minWatchTimeSeconds s)).
  assert (HF : below md ed F).
  { apply floor_below; [assumption | assumption |].
    apply mul_below; [assumption | apply percentage_unit_fraction; assumption]. }
  assert (Hnd : nonneg d) by exact I.
  assert (HnF : nonneg F) by (eapply below_nonneg; exact HF).
  assert (HnM : nonneg M) by (apply ofZ_small_nonneg; lia).
  assert (Hnm : nonneg m0) by (apply ofZ_small_nonneg; lia).
  pose proof (nonneg_min m0 d Hnm Hnd) as HnA.
  pose proof (nonneg_min F M HnF HnM) as HnB.
  split; [apply nonneg_max; assumption |].
  split; [apply max_ge_l; assumption |].
  apply max_lub; try assumption.
  - apply (leb_trans _ m0); try assumption.
    + apply min_le_l; assumption.
    + apply ofZ_leb; lia.
  - apply min_le_r; assumption.
Qed.

(** X1: with a minimum not above the maximum, the watch time lies between
    the smaller of [minWatchTimeSeconds] and the duration, and
    [maxWatchTimeSeconds], whatever the (positive, finite) duration. *)
Theorem calculateWatchTime_between_limits (v : VideoDetails) (s : Settings) :
  positive_finite (durationSeconds v) ->
  10 <= watchTimePercentage s <= 100 ->
  0 <= minWatchTimeSeconds s <= maxWatchTimeSeconds s ->
  maxWatchTimeSeconds s < 2 ^ 53 ->
  leb (Math_min (ofZ (minWatchTimeSeconds s)) (durationSeconds v))
      (calculateWatchTime v s) = true /\
  leb (calculateWatchTime v s) (ofZ (maxWatchTimeSeconds s)) = true.
Proof.
  intros Hd Hp Hmm Hmax.
  exact (proj2 (calculateWatchTime_cap v s Hd Hp Hmm Hmax)).
Qed.

Lemma calculateWatchTime_between_limits_witness :
  leb (Math_min (ofZ 10) Examples.ninetyAndHalf)
      (calculateWatchTime (Examples.video Examples.ninetyAndHalf)
         (Examples.withWatchTimes 100 10 60)) = true /\
  leb (calculateWatchTime (Examples.video Examples.ninetyAndHalf)
         (Examples.withWatchTimes 100 10 60))
      (ofZ 60) = true.
Proof.
  apply (calculateWatchTime_between_limits (Examples.video Examples.ninetyAndHalf)
           (Examples.withWatchTimes 100 10 60));
    [vm_compute; reflexivity | cbn; lia | cbn; lia | cbn; lia].
Defined.

(** X2: nothing in [calculateWatchTime] orders the two limits.  With a
    minimum above the maximum, a video at least as long as the minimum is
    watched for exactly the minimum, which is more than the maximum. *)
Theorem calculateWatchTime_min_above_max (v : VideoDetails) (s : Settings) :
  positive_finite (durationSeconds v) ->
  10 <= watchTimePercentage s <= 100 ->
  0 <= maxWatchTimeSeconds s < minWatchTimeSeconds s ->
  minWatchTimeSeconds s < 2 ^ 53 ->
  leb (ofZ (minWatchTimeSeconds s)) (durationSeconds v) = true ->
  calculateWatchTime v s = ofZ (minWatchTimeSeconds s) /\
  ltb (ofZ (maxWatchTimeSeconds s)) (calculateWatchTime v s) = true.
Proof.
  intros Hd Hp Hmm Hmin Hlong. unfold calculateWatchTime.
  destruct (durationSeconds v) as [| | | [] md ed] eqn:Ed; try contradiction.
  cbn in Hd. destruct (bounded_inv _ _ Hd) as [Hdig He].
  set (d := S754_finite false md ed) in *.
  set (F := Math_floor (mul d (div (ofZ (watchTimePercentage s)) (ofZ 100)))).
  set (M := ofZ (maxWatchTimeSeconds s)). set (m0 := ofZ (minWatchTimeSeconds s)) in *.
  assert (HF : below md ed F).
  { apply floor_below; [assumption | assumption |].
    apply mul_below; [assumption | apply percentage_unit_fraction; assumption]. }
  assert (Hnd : nonneg d) by exact I.
  assert (HnF : nonneg F) by (eapply below_nonneg; exact HF).
  assert (HnM : nonneg M) by (apply ofZ_small_nonneg; lia).
  assert (Hnm : nonneg m0) by (apply ofZ_small_nonneg; lia).
  pose proof (nonneg_min F M HnF HnM) as HnB.
  assert (HMm : ltb M m0 = true) by (apply ofZ_ltb; lia).
  rewrite (min_l_eq m0 d) by assumption.
  rewrite max_l_eq; try assumption.
  - split; [reflexivity | assumption].
  - apply (leb_ltb_trans _ M); try assumption. apply min_le_r; assumption.
Qed.

Lemma calculateWatchTime_min_above_max_witness :
  calculateWatchTime (Examples.video (ofZ 600)) (Examples.withWatchTimes 70 300 60)
  = ofZ 300 /\
  ltb (ofZ 60)
      (calculateWatchTime (Examples.video (ofZ 600)) (Examples.withWatchTimes 70 300 60))
  = true.
Proof.
  apply (calculateWatchTime_min_above_max (Examples.video (ofZ 600))
           (Examples.withWatchTimes 70 300 60));
    [vm_compute; reflexivity | cbn; lia | cbn; lia | cbn; lia | vm_compute; reflexivity].
Defined.

(** With the computed watch time, [ceil(maxWatchTimeSeconds / 10)] units of
    fuel, or more, are enough for the watch loop. *)
Lemma watchVideo_enough_fuel (fuel : nat) (w : WatchScript) (v : VideoDetails)
    (s : Settings) :
  positive_finite (durationSeconds v) ->
  10 <= watchTimePercentage s <= 100 ->
  0 <= minWatchTimeSeconds s <= maxWatchTimeSeconds s ->
  maxWatchTimeSeconds s < 2 ^ 52 ->
  (Z.to_nat ((maxWatchTimeSeconds s + 9) / 10) <= fuel)%nat ->
  is_Some (watchVideo fuel w (calculateWatchTime v s)).
Proof.
  intros Hd Hp Hmm Hmax Hfuel.
  assert (H52 : 2 ^ 52 < 2 ^ 53) by (vm_compute; reflexivity).
  destruct (calculateWatchTime_cap v s Hd Hp Hmm ltac:(lia)) as (Hnt & _ & Hcap).
  set (target := calculateWatchTime v s) in *.
  set (n := Z.to_nat ((maxWatchTimeSeconds s + 9) / 10)) in *.
  assert (Hn : maxWatchTimeSeconds s <= 10 * Z.of_nat n <= maxWatchTimeSeconds s + 9).
  { unfold n. rewrite Z2Nat.id by (apply Z.div_pos; lia).
    pose proof (Z.div_mod (maxWatchTimeSeconds s + 9) 10 ltac:(lia)).
    pose proof (Z.mod_pos_bound (maxWatchTimeSeconds s + 9) 10 ltac:(lia)). lia. }
  assert (Hstop : ltb (ofZ (0 + checkInterval * Z.of_nat n)) target = false).
  { unfold checkInterval. rewrite Z.add_0_l.
    assert (H9 : 2 ^ 52 + 9 < 2 ^ 53) by (vm_compute; reflexivity).
    apply leb_ltb_false; [assumption | apply ofZ_small_nonneg; lia |].
    apply (leb_trans _ (ofZ (maxWatchTimeSeconds s))); try assumption;
      try (apply ofZ_small_nonneg; lia).
    apply ofZ_leb; lia. }
  pose proof (watchLoop_enough_fuel n fuel w) as Hloop.
  unfold watchVideo. destruct (ws_start w); [| eauto].
  destruct (ws_initialVideoId w) as [vid |]; [| eauto].
  destruct (Hloop vid target 0%nat 0 Hstop Hfuel) as [r ->].
  destruct r; eauto.
Qed.

(** X3: the watch loop of [watchVideo] is left after at most
    [ceil(maxWatchTimeSeconds / 10)] polls when it is given the computed
    watch time, whatever the page reports: that many units of fuel always
    give a result. *)
Theorem watchVideo_ends_within_max (w : WatchScript) (v : VideoDetails) (s : Settings) :
  positive_finite (durationSeconds v) ->
  10 <= watchTimePercentage s <= 100 ->
  0 <= minWatchTimeSeconds s <= maxWatchTimeSeconds s ->
  maxWatchTimeSeconds s < 2 ^ 52 ->
  is_Some (watchVideo (Z.to_nat ((maxWatchTimeSeconds s + 9) / 10)) w
                      (calculateWatchTime v s)).
Proof.
  intros Hd Hp Hmm Hmax. apply watchVideo_enough_fuel; try assumption. lia.
Qed.

Lemma watchVideo_ends_within_max_witness :
  is_Some (watchVideo 60 Examples.steadyWatch
             (calculateWatchTime (Examples.video (ofZ 1000)) DataService.defaultSettings)).
Proof.
  apply (watchVideo_ends_within_max Examples.steadyWatch (Examples.video (ofZ 1000))
           DataService.defaultSettings);
    [vm_compute; reflexivity | cbn; lia | cbn; lia | cbn; lia].
Defined.

End WatchTimeCap.

(** ** The legacy watch time *)

Section LegacyWatchTime.
Import LegacySupportService.

Lemma shr_m_iter (n : nat) (mrs : shr_record) :
  0 <= shr_m mrs -> 0 <= shr_m (Nat.iter n shr_1 mrs).
Proof.
  intros Hm. induction n as [| n IH]; [exact Hm |].
  rewrite Nat.iter_succ. destruct (Nat.iter n shr_1 mrs) as [m r s].
  cbn [shr_m] in IH. rewrite shr_1_nonneg by assumption. cbn [shr_m].
  apply Z.div_pos; lia.
Qed.

Lemma shr_m_shr (mrs : shr_record) (e n : Z) :
  0 <= shr_m mrs -> 0 <= shr_m (fst (shr mrs e n)).
Proof.
  intros Hm. destruct n as [| p | p]; cbn [shr fst]; try assumption.
  rewrite iter_pos_nat. apply shr_m_iter. assumption.
Qed.

Lemma shr_fexp_nonneg (m e : Z) (l : location) :
  0 <= m -> 0 <= shr_m (fst (shr_fexp prec emax m e l)).
Proof.
  intros Hm. unfold shr_fexp. apply shr_m_shr.
  destruct l as [| []]; exact Hm.
Qed.

(** Rounding a mantissa that is not negative gives [+0], a positive finite
    number or [+Infinity], never [NaN]. *)
Lemma round_aux_sign (m e : Z) (l : location) :
  0 <= m -> nonneg_or_infinite (binary_round_aux prec emax false m e l).
Proof.
  intros Hm. unfold binary_round_aux.
  pose proof (shr_fexp_nonneg m e l Hm) as H1.
  destruct (shr_fexp prec emax m e l) as [mrs' e']. cbn [fst] in H1.
  assert (H2 : 0 <= round_nearest_even (shr_m mrs') (loc_of_shr_record mrs')).
  { destruct mrs' as [m' r s]. cbn [shr_m] in *.
    pose proof (round_nearest_even_bounds m' r s) as [Hb _]. lia. }
  pose proof (shr_fexp_nonneg _ e' loc_Exact H2) as H3.
  destruct (shr_fexp prec emax _ e' loc_Exact) as [mrs'' e'']. cbn [fst] in H3.
  destruct (shr_m mrs'') as [| p | p]; [exact I | | lia].
  destruct (e'' <=? emax - prec); exact I.
Qed.

Lemma mul_sign (x y : number) :
  positive_finite x -> nonneg y -> nonneg_or_infinite (mul x y).
Proof.
  intros Hx Hy. fsplit x; fsplit y; [exact I |].
  unfold mul, SFmul. cbn [xorb]. apply round_aux_sign. lia.
Qed.

Lemma div_sign (x : number) (my : positive) (ey : Z) :
  nonneg_or_infinite x -> nonneg_or_infinite (div x (S754_finite false my ey)).
Proof.
  intros Hx. destruct x as [[] | [] | | [] mx ex]; try contradiction; try exact I.
  unfold div, SFdiv, SFdiv_core_binary.
  set (e' := IntDef.Z.min _ _). set (m' := match ex - ey - e' with 0 => _ | _ => _ end).
  assert (Hm' : 0 <= m').
  { unfold m'. destruct (ex - ey - e'); [lia | | lia].
    apply Z.shiftl_nonneg. lia. }
  pose proof (Z.div_pos m' (Z.pos my) Hm' ltac:(lia)) as Hq.
  unfold Z.div in Hq. change IntDef.Z.div_eucl with Z.div_eucl.
  destruct (Z.div_eucl m' (Z.pos my)) as [q r]. cbn [xorb].
  apply round_aux_sign. exact Hq.
Qed.

Lemma ofZ_sign (z : Z) : 0 <= z -> nonneg_or_infinite (ofZ z).
Proof.
  intros Hz. destruct z as [| p | p]; [exact I | | lia].
  unfold ofZ, binary_normalize, binary_round.
  destruct (shl_align p 0 _) as [mz ez]. apply round_aux_sign. lia.
Qed.

Lemma floor_sign (x : number) : nonneg_or_infinite x -> nonneg_or_infinite (Math_floor x).
Proof.
  intros Hx. destruct x as [[] | [] | | [] m e]; try contradiction; try exact I.
  unfold Math_floor. destruct (0 <=? e); [exact I |].
  apply ofZ_sign. cbn [cond_Zopp]. apply Z.shiftr_nonneg. lia.
Qed.

(** The smaller of anything that is not negative and a finite cap is
    finite and at most the cap. *)
Lemma min_cap (x y : number) :
  nonneg_or_infinite x -> nonneg y ->
  nonneg (Math_min x y) /\ leb (Math_min x y) y = true.
Proof.
  intros Hx Hy.
  destruct x as [[] | [] | | [] mx ex]; try contradiction; fsplit y;
    split; fcmp.
Qed.

Lemma leb_not_ltb (x y : number) :
  nonneg x -> nonneg y -> ltb x y = true -> leb y x = false.
Proof. intros Hx Hy H. fsplit x; fsplit y; fcmp. Qed.

(** X4: the legacy [getVideoWatchTime] clamps: with a minimum not above the
    maximum its result lies between the two limits for every positive finite
    duration, so a video shorter than the minimum is given a watch time
    longer than the video. *)
Theorem getVideoWatchTime_clamps (v : VideoDetails) (s : Settings) :
  positive_finite (durationSeconds v) ->
  0 <= watchTimePercentage s < 2 ^ 53 ->
  0 <= minWatchTimeSeconds s <= maxWatchTimeSeconds s ->
  maxWatchTimeSeconds s < 2 ^ 53 ->
  leb (ofZ (minWatchTimeSeconds s)) (getVideoWatchTime v s) = true /\
  leb (getVideoWatchTime v s) (ofZ (maxWatchTimeSeconds s)) = true /\
  (ltb (durationSeconds v) (ofZ (minWatchTimeSeconds s)) = true ->
   ltb (durationSeconds v) (getVideoWatchTime v s) = true).
Proof.
  intros Hd Hp Hmm Hmax. unfold getVideoWatchTime.
  set (d := durationSeconds v) in *.
  set (F := Math_floor (div (mul d (ofZ (watchTimePercentage s))) (ofZ 100))).
  set (M := ofZ (maxWatchTimeSeconds s)). set (m0 := ofZ (minWatchTimeSeconds s)).
  assert (HF : nonneg_or_infinite F).
  { apply floor_sign. change (ofZ 100) with (S754_finite false 7036874417766400 (-46)).
    apply div_sign. apply mul_sign; [assumption |]. apply ofZ_small_nonneg. lia. }
  assert (HnM : nonneg M) by (apply ofZ_small_nonneg; lia).
  assert (Hnm : nonneg m0) by (apply ofZ_small_nonneg; lia).
  assert (Hnd : nonneg d) by (fsplit d; exact I).
  destruct (min_cap F M HF HnM) as [HnB HB].
  pose proof (nonneg_max _ _ Hnm HnB) as HnR.
  assert (Hlo : leb m0 (Math_max m0 (Math_min F M)) = true)
    by (apply max_ge_l; assumption).
  split; [exact Hlo | split].
  - apply max_lub; try assumption. apply ofZ_leb; lia.
  - intros Hshort. apply (ltb_leb_trans _ m0); assumption.
Qed.

Lemma getVideoWatchTime_clamps_witness :
  leb (ofZ 60) (getVideoWatchTime (Examples.video (ofZ 20)) DataService.defaultSettings)
  = true /\
  leb (getVideoWatchTime (Examples.video (ofZ 20)) DataService.defaultSettings) (ofZ 600)
  = true /\
  (ltb (ofZ 20) (ofZ 60) = true ->
   ltb (ofZ 20) (getVideoWatchTime (Examples.video (ofZ 20)) DataService.defaultSettings)
   = true).
Proof.
  apply (getVideoWatchTime_clamps (Examples.video (ofZ 20)) DataService.defaultSettings);
    [vm_compute; reflexivity | cbn; lia | cbn; lia | cbn; lia].
Defined.

End LegacyWatchTime.

(** ** The details of the current video *)

Section VideoDetailsFacts.
Import VideoDetailsReader.


(** The last check of [getVideoDetails] lets only a positive number pass. *)
Lemma duration_guard (d : number) :
  ltb (ofZ 0)
      (if negb (truthy d) || leb d (ofZ 0) then defaultDurationSeconds else d) = true.
Proof. destruct d as [[] | [] | | [] m e]; reflexivity. Qed.

(** X5: whatever the page holds, and also when reading it throws, the
    duration that [getVideoDetails] returns is a number above zero (never
    [NaN], zero or negative). *)
Theorem getVideoDetails_duration_positive (page : outcome PlayerPage) :
  ltb (ofZ 0) (durationSeconds (getVideoDetails page)) = true.
Proof.
  destruct page as [p |]; [| reflexivity]. unfold getVideoDetails.
  destruct (pp_liveBadge p || pp_liveText p); [reflexivity |].
  cbn [durationSeconds]. apply duration_guard.
Qed.




End VideoDetailsFacts.

(** ** Visits and runs *)

Section VisitsAndRuns.
Import VideoService EngagementService SupportService Observed.

(** X7: a visit comments only when it succeeds, and a failed visit leaves
    the settings, and with them the comment rotation, untouched.  A failed
    visit leaves nothing but navigations behind, unless it fails at the
    call of [getNextComment], which the engagement service of the sources
    does not have: by then it has subscribed and liked as the settings say.
    A successful visit, which takes an engagement service that has the
    method, subscribes and likes as the settings say, in that order, then
    leaves exactly one comment, the one the selector returned, and records
    its index when the selector marks it as rotated. *)
Theorem supportChannel_engagement (fuel : nat) (v : VisitScript) (channel : ChannelRecord)
    (s s' : Settings) (comments : list string) (b : bool) (evs : list event) :
  supportChannel fuel v channel s comments = Some (b, s', evs) ->
  if b
  then exists videoUrl getNextComment,
         vs_getNextComment v = Some getNextComment /\
         evs = [Goto (url channel +:+ "/videos"); Goto videoUrl]
               ++ (if subscribeToChannels s then [Subscribe] else [])
               ++ (if likeVideos s then [Like] else [])
               ++ [LeaveComment (comment (getNextComment comments s))] /\
         s' = recordComment (getNextComment comments s) s
  else s' = s /\
       ((forall e, e ∈ evs -> exists u, e = Goto u) \/
        exists videoUrl,
          vs_getNextComment v = None /\
          evs = [Goto (url channel +:+ "/videos"); Goto videoUrl]
                ++ (if subscribeToChannels s then [Subscribe] else [])
                ++ (if likeVideos s then [Like] else [])).
Proof.
  unfold supportChannel. intros H.
  assert (Hnav : forall l : list string, forall e, e ∈ (Goto <$> l) -> exists u, e = Goto u).
  { intros l e He. apply list_elem_of_fmap in He as (u & -> & _). eauto. }
  destruct (vs_page v); cbn [negb] in H;
    [| inversion H; subst; split; [reflexivity | left; exact (Hnav [])]].
  destruct (navigateToChannelVideos v); cbn [negb] in H;
    [| inversion H; subst; split; [reflexivity | left; exact (Hnav [_])]].
  destruct (findLatestVideo v) as [videoUrl |];
    [| inversion H; subst; split; [reflexivity | left; exact (Hnav [_])]].
  destruct (vs_gotoVideo v);
    [| inversion H; subst; split; [reflexivity | left; exact (Hnav [_; _])]].
  destruct (vs_getNextComment v) as [getNextComment |].
  - destruct (watchVideo fuel _ _); [| discriminate].
    inversion H; subst; clear H. exists videoUrl, getNextComment.
    split; [reflexivity |]. split; [| reflexivity].
    destruct (subscribeToChannels s), (likeVideos s); reflexivity.
  - inversion H; subst; clear H. split; [reflexivity |]. right.
    exists videoUrl. split; [reflexivity |].
    destruct (subscribeToChannels s'), (likeVideos s'); reflexivity.
Qed.

Lemma supportChannel_engagement_witness :
  Examples.rotating 0 (-1) = Examples.rotating 0 (-1) /\
  ((forall e,
      e ∈ [Goto "https://www.youtube.com/@A/videos";
           Goto "https://www.youtube.com/watch?v=dQw4w9WgXcQ"; Subscribe; Like] ->
      exists u, e = Goto u) \/
   exists videoUrl,
     vs_getNextComment (Examples.visitAsFound Examples.steadyWatch) = None /\
     [Goto "https://www.youtube.com/@A/videos";
      Goto "https://www.youtube.com/watch?v=dQw4w9WgXcQ"; Subscribe; Like]
     = [Goto (url (Examples.channel "UCa" "A") +:+ "/videos"); Goto videoUrl]
       ++ (if subscribeToChannels (Examples.rotating 0 (-1)) then [Subscribe] else [])
       ++ (if likeVideos (Examples.rotating 0 (-1)) then [Like] else [])).
Proof.
  apply (supportChannel_engagement 100 (Examples.visitAsFound Examples.steadyWatch)
           (Examples.channel "UCa" "A") (Examples.rotating 0 (-1)) _
           Examples.comments3 false).
  vm_compute. reflexivity.
Defined.

End VisitsAndRuns.

(** ** What a run does to the channel list *)

Section RunAccounts.
Import VideoService EngagementService SupportService Observed.

Lemma grown_refl (c : ChannelRecord) : grown c c.
Proof. unfold grown. repeat split; lia. Qed.

Lemma grown_trans (a b c : ChannelRecord) : grown a b -> grown b c -> grown a c.
Proof. unfold grown. intros (? & ? & ? & ? & ?) (? & ? & ? & ? & ?). repeat split; try congruence; lia. Qed.

Lemma grown_list_refl (l : list ChannelRecord) : Forall2 grown l l.
Proof. induction l; constructor; [apply grown_refl | assumption]. Qed.

Lemma grown_list_trans (l k m : list ChannelRecord) :
  Forall2 grown l k -> Forall2 grown k m -> Forall2 grown l m.
Proof.
  intros H. revert m. induction H as [| x y l k Hxy _ IH]; intros m Hm.
  - inversion Hm; subst. constructor.
  - inversion Hm; subst. constructor; [eapply grown_trans; eassumption | auto].
Qed.

Lemma grown_list_insert (l : list ChannelRecord) (c : nat) (channel : ChannelRecord)
    (now : string) :
  l !! c = Some channel -> Forall2 grown l (<[c := supported now channel]> l).
Proof.
  revert c. induction l as [| a l IH]; intros c Hc; [discriminate |].
  destruct c as [| c]; cbn in *.
  - inversion Hc; subst. constructor; [| apply grown_list_refl].
    unfold grown. cbn. repeat split; lia.
  - constructor; [apply grown_refl | apply IH; assumption].
Qed.

Lemma total_insert (l : list ChannelRecord) (c : nat) (channel : ChannelRecord)
    (now : string) :
  l !! c = Some channel ->
  totalSupportCount (<[c := supported now channel]> l) = totalSupportCount l + 1.
Proof.
  revert c. induction l as [| a l IH]; intros c Hc; [discriminate |].
  destruct c as [| c].
  - cbn in *. inversion Hc; subst. lia.
  - change (totalSupportCount (<[S c := supported now channel]> (a :: l)))
      with (supportCount a + totalSupportCount (<[c := supported now channel]> l)).
    rewrite (IH c Hc).
    change (totalSupportCount (a :: l)) with (supportCount a + totalSupportCount l). lia.
Qed.

Lemma total_grown (l k : list ChannelRecord) :
  Forall2 grown l k -> totalSupportCount l <= totalSupportCount k.
Proof.
  induction 1 as [| x y l k (_ & _ & _ & _ & Hxy) _ IH]; [reflexivity |].
  change (supportCount x + totalSupportCount l <= supportCount y + totalSupportCount k). lia.
Qed.

(** One iteration of the channel loop, read off [visitStep]. *)
Lemma visitStep_cases (fuel : nat) (it : Iteration) (comments : list string)
    (c : nat) (st st1 : RunState) (b : bool) :
  visitStep fuel it comments c st = Some (b, st1) ->
  commentsFile (rs_disk st1) = commentsFile (rs_disk st) /\
  (b = false ->
   rs_channels st1 = rs_channels st /\ rs_disk st1 = rs_disk st /\
   rs_supportCount st1 = rs_supportCount st) /\
  (b = true ->
   exists channel,
     rs_channels st !! c = Some channel /\
     rs_channels st1 = <[c := supported (it_now it) channel]> (rs_channels st) /\
     rs_supportCount st1 = rs_supportCount st + 1 /\
     channelsFile (rs_disk st1)
     = if it_saveChannelsOk it then Content (rs_channels st1)
       else channelsFile (rs_disk st)).
Proof.
  unfold visitStep. intros H.
  destruct (rs_channels st !! c) as [channel |]; [| discriminate].
  destruct (supportChannel _ _ _ _ _) as [[[[] s1] evs] |]; [| | discriminate];
    inversion H; subst; clear H; cbn.
  - split; [| split; [discriminate |]].
    + destruct (it_saveChannelsOk it), (it_saveSettingsOk it);
        repeat (case_match; cbn); reflexivity.
    + intros _. exists channel. repeat split.
      destruct (it_saveChannelsOk it), (it_saveSettingsOk it);
        repeat (case_match; cbn); reflexivity.
  - split; [reflexivity |]. split; [auto | discriminate].
Qed.

(** The channel loop: the comment file stays, the channels only grow, the
    channel file holds the array as it was at the start or at some point of
    the loop, and the counts grow by what the loop counts. *)
Lemma visitLoop_account (fuel : nat) (iter : nat -> Iteration) (comments : list string)
    (queue : list nat) (i : nat) (st st' : RunState) :
  visitLoop fuel iter comments queue i st = Some st' ->
  commentsFile (rs_disk st') = commentsFile (rs_disk st) /\
  Forall2 grown (rs_channels st) (rs_channels st') /\
  (channelsFile (rs_disk st') = channelsFile (rs_disk st) \/
   exists l, channelsFile (rs_disk st') = Content l /\
             Forall2 grown (rs_channels st) l /\ Forall2 grown l (rs_channels st')) /\
  totalSupportCount (rs_channels st')
  = totalSupportCount (rs_channels st) + (rs_supportCount st' - rs_supportCount st) /\
  0 <= rs_supportCount st' - rs_supportCount st <= Z.of_nat (length queue).
Proof.
  revert i st. induction queue as [| c queue IH]; intros i st H; cbn [visitLoop] in H.
  - inversion H; subst. cbn.
    repeat split; try lia; [apply grown_list_refl | left; reflexivity].
  - destruct (visitStep fuel (iter i) comments c st) as [[b st1] |] eqn:Hstep; [| discriminate].
    destruct (visitStep_cases _ _ _ _ _ _ _ Hstep) as (Hcf & Hfail & Hsucc).
    assert (Hone : Forall2 grown (rs_channels st) (rs_channels st1) /\
                   (channelsFile (rs_disk st1) = channelsFile (rs_disk st) \/
                    channelsFile (rs_disk st1) = Content (rs_channels st1)) /\
                   totalSupportCount (rs_channels st1)
                   = totalSupportCount (rs_channels st)
                     + (rs_supportCount st1 - rs_supportCount st) /\
                   0 <= rs_supportCount st1 - rs_supportCount st <= 1).
    { destruct b.
      - destruct (Hsucc eq_refl) as (channel & Hc & Hch & Hn & Hd).
        rewrite Hch, Hn. split; [apply grown_list_insert; assumption |].
        split; [| split; [rewrite total_insert by assumption; lia | lia]].
        rewrite Hd, Hch. destruct (it_saveChannelsOk (iter i)); auto.
      - destruct (Hfail eq_refl) as (Hch & Hd & Hn). rewrite Hch, Hd, Hn.
        split; [apply grown_list_refl |]. split; [auto | lia]. }
    destruct Hone as (Hg1 & Hd1 & Ht1 & Hn1).
    assert (Hrest : commentsFile (rs_disk st') = commentsFile (rs_disk st1) /\
              Forall2 grown (rs_channels st1) (rs_channels st') /\
              (channelsFile (rs_disk st') = channelsFile (rs_disk st1) \/
               exists l, channelsFile (rs_disk st') = Content l /\
                         Forall2 grown (rs_channels st1) l /\
                         Forall2 grown l (rs_channels st')) /\
              totalSupportCount (rs_channels st')
              = totalSupportCount (rs_channels st1)
                + (rs_supportCount st' - rs_supportCount st1) /\
              0 <= rs_supportCount st' - rs_supportCount st1 <= Z.of_nat (length queue)).
    { destruct (is_yes _); [exact (IH _ _ H) |].
      inversion H; subst. repeat split; try lia; [apply grown_list_refl | left; reflexivity]. }
    destruct Hrest as (Hcf2 & Hg2 & Hd2 & Ht2 & Hn2).
    split; [congruence |]. split; [eapply grown_list_trans; eassumption |].
    split; [| split; [lia | cbn [length]; lia]].
    destruct Hd2 as [Hsame | (l & Hl & Hl1 & Hl2)].
    + destruct Hd1 as [Hsame1 | Hnew]; [left; congruence | right].
      exists (rs_channels st1). split; [congruence | split; assumption].
    + right. exists l. split; [assumption |].
      split; [eapply grown_list_trans; eassumption | assumption].
Qed.

(** When every write of the channel file succeeds, the file holds the
    array after the loop as it did before. *)
Lemma visitLoop_in_step (fuel : nat) (iter : nat -> Iteration) (comments : list string)
    (queue : list nat) (i : nat) (st st' : RunState) :
  (forall j, it_saveChannelsOk (iter j) = true) ->
  visitLoop fuel iter comments queue i st = Some st' ->
  DataService.loadChannels (rs_disk st) = rs_channels st ->
  DataService.loadChannels (rs_disk st') = rs_channels st'.
Proof.
  intros Hok. revert i st. induction queue as [| c queue IH]; intros i st H Hsync;
    cbn [visitLoop] in H.
  - inversion H; subst. exact Hsync.
  - destruct (visitStep fuel (iter i) comments c st) as [[b st1] |] eqn:Hstep; [| discriminate].
    destruct (visitStep_cases _ _ _ _ _ _ _ Hstep) as (_ & Hfail & Hsucc).
    assert (Hsync1 : DataService.loadChannels (rs_disk st1) = rs_channels st1).
    { destruct b.
      - destruct (Hsucc eq_refl) as (channel & _ & _ & _ & Hd).
        rewrite Hok in Hd. unfold DataService.loadChannels. rewrite Hd. reflexivity.
      - destruct (Hfail eq_refl) as (Hch & Hd & _). rewrite Hch, Hd. exact Hsync. }
    destruct (is_yes _); [exact (IH _ _ H Hsync1) | inversion H; subst; exact Hsync1].
Qed.

(** One pass of [startSupporting]: it ends before the channel loop and
    leaves the disk alone, or it runs the loop from the initial state. *)
Lemma startSupporting_pass (passes fuel : nat) (script : nat -> PassScript) (pass : nat)
    (disk disk' : Disk) (evs : list event) (ends : list PassEnd) :
  startSupporting (S passes) fuel script pass disk = Some (disk', evs, ends) ->
  (disk' = disk /\ reported ends = 0 /\
   (ps_browser (script pass) = false \/ ps_authenticated (script pass) = false \/
    DataService.loadChannels disk = [] \/ DataService.loadComments disk = [] \/
    is_yes (ps_confirm (script pass)) = false)) \/
  exists st,
    DataService.loadChannels disk <> [] /\
    DataService.loadComments disk <> [] /\
    visitLoop fuel (ps_iter (script pass)) (DataService.loadComments disk)
      (Pass.queue disk) 0 (Pass.initialState disk) = Some st /\
    ((disk' = rs_disk st /\ ends = [Completed (rs_supportCount st)]) \/
     exists evs1 ends1,
       startSupporting passes fuel script (S pass) (rs_disk st)
       = Some (disk', evs1, ends1) /\
       ends = Completed (rs_supportCount st) :: ends1).
Proof.
  cbn [startSupporting]. intros H.
  destruct (ps_browser (script pass)); cbn [negb] in H;
    [| inversion H; subst; left; repeat split; auto].
  destruct (ps_authenticated (script pass)); cbn [negb] in H;
    [| inversion H; subst; left; repeat split; auto].
  destruct (DataService.loadChannels disk) as [| c0 cs] eqn:Hch; cbn [length Nat.eqb] in H;
    [inversion H; subst; left; repeat split; auto |].
  destruct (DataService.loadComments disk) as [| m0 ms] eqn:Hcm; cbn [length Nat.eqb] in H;
    [inversion H; subst; left; repeat split; auto |].
  destruct (is_yes (ps_confirm (script pass))); cbn [negb] in H;
    [| inversion H; subst; left; repeat split; auto 6].
  right. unfold Pass.queue, Pass.initialState. rewrite Hch. cbn [length].
  match type of H with
  | match visitLoop ?f ?it ?cm ?q ?i ?st0 with _ => _ end = _ =>
      destruct (visitLoop f it cm q i st0) as [st |] eqn:Hloop; [| discriminate]
  end.
  exists st. split; [discriminate |]. split; [discriminate |]. split; [reflexivity |].
  destruct (is_yes (ps_restart (script pass))).
  - destruct (startSupporting passes fuel script (S pass) (rs_disk st))
      as [[[disk1 evs1] ends1] |] eqn:Hrec; [| discriminate].
    inversion H; subst; clear H. right. eauto.
  - inversion H; subst; clear H. left. split; reflexivity.
Qed.

End RunAccounts.

(** ** Runs as a whole *)

Section Runs.
Import VideoService EngagementService SupportService Observed.

(** What the channel loop of one pass leaves on the disk. *)
Lemma pass_disk (fuel : nat) (iter : nat -> Iteration) (disk : Disk) (st : RunState) :
  visitLoop fuel iter (DataService.loadComments disk) (Pass.queue disk) 0
    (Pass.initialState disk) = Some st ->
  commentsFile (rs_disk st) = commentsFile disk /\
  Forall2 grown (DataService.loadChannels disk) (DataService.loadChannels (rs_disk st)) /\
  Forall2 grown (DataService.loadChannels (rs_disk st)) (rs_channels st) /\
  totalSupportCount (rs_channels st)
  = totalSupportCount (DataService.loadChannels disk) + rs_supportCount st /\
  0 <= rs_supportCount st <= Z.of_nat (length (Pass.queue disk)).
Proof.
  intros Hloop.
  destruct (visitLoop_account _ _ _ _ _ _ _ Hloop) as (Hcf & Hg & Hd & Ht & Hn).
  cbn [Pass.initialState rs_channels rs_disk rs_supportCount] in *.
  rewrite Z.sub_0_r in Ht, Hn.
  split; [exact Hcf |]. split; [| split; [| split; assumption]].
  - destruct Hd as [Hsame | (l & Hl & Hl1 & _)];
      unfold DataService.loadChannels at 2; [rewrite Hsame | rewrite Hl; exact Hl1].
    apply grown_list_refl.
  - destruct Hd as [Hsame | (l & Hl & _ & Hl2)];
      unfold DataService.loadChannels; [rewrite Hsame | rewrite Hl; exact Hl2].
    exact Hg.
Qed.

(** X8: a run, over any number of passes, never touches the comment file
    and never adds, drops, reorders or renames a channel; no support count
    ever goes down, and together the counts on the disk grow by no more
    than the passes report. *)
Theorem startSupporting_keeps_channels (passes fuel : nat) (script : nat -> PassScript)
    (pass : nat) (disk disk' : Disk) (evs : list event) (ends : list PassEnd) :
  startSupporting passes fuel script pass disk = Some (disk', evs, ends) ->
  commentsFile disk' = commentsFile disk /\
  Forall2 grown (DataService.loadChannels disk) (DataService.loadChannels disk') /\
  0 <= reported ends /\
  totalSupportCount (DataService.loadChannels disk')
  <= totalSupportCount (DataService.loadChannels disk) + reported ends.
Proof.
  revert pass disk disk' evs ends.
  induction passes as [| passes IH]; intros pass disk disk' evs ends H.
  - cbn in H. inversion H; subst. cbn.
    split; [reflexivity |]. split; [apply grown_list_refl | lia].
  - destruct (startSupporting_pass _ _ _ _ _ _ _ _ H)
      as [(-> & Hrep & _) | (st & _ & _ & Hloop & Hend)].
    + rewrite Hrep. split; [reflexivity |]. split; [apply grown_list_refl | lia].
    + destruct (pass_disk _ _ _ _ Hloop) as (Hcf & Hg & Hgm & Ht & Hn).
      pose proof (total_grown _ _ Hgm) as Hle.
      destruct Hend as [[-> ->] | (evs1 & ends1 & Hrec & ->)].
      * cbn. split; [exact Hcf |]. split; [exact Hg | lia].
      * destruct (IH _ _ _ _ _ Hrec) as (Hcf1 & Hg1 & Hr1 & Ht1).
        change (reported (Completed (rs_supportCount st) :: ends1))
          with (rs_supportCount st + reported ends1).
        split; [congruence |]. split; [eapply grown_list_trans; eassumption | lia].
Qed.

Lemma startSupporting_keeps_channels_witness :
  exists disk' evs ends,
    startSupporting 2 100 (fun _ => Examples.pass (Examples.visit Examples.steadyWatch)) 0
      (Examples.disk Examples.channelsABC Examples.comments3 Absent)
    = Some (disk', evs, ends) /\
    commentsFile disk' = Content Examples.comments3 /\
    Forall2 grown Examples.channelsABC (DataService.loadChannels disk') /\
    0 <= reported ends /\
    totalSupportCount (DataService.loadChannels disk')
    <= totalSupportCount Examples.channelsABC + reported ends.
Proof.
  eexists _, _, _. split; [vm_compute; reflexivity |].
  eapply (startSupporting_keeps_channels 2 100
           (fun _ => Examples.pass (Examples.visit Examples.steadyWatch)) 0
           (Examples.disk Examples.channelsABC Examples.comments3 Absent)).
  vm_compute. reflexivity.
Defined.

(** X9: when every write of the channel file succeeds, the support counts
    on the disk grow by exactly the number of channels that the passes of
    the run report as supported. *)
Theorem startSupporting_counts_add_up (passes fuel : nat) (script : nat -> PassScript)
    (pass : nat) (disk disk' : Disk) (evs : list event) (ends : list PassEnd) :
  (forall p j, it_saveChannelsOk (ps_iter (script p) j) = true) ->
  startSupporting passes fuel script pass disk = Some (disk', evs, ends) ->
  totalSupportCount (DataService.loadChannels disk')
  = totalSupportCount (DataService.loadChannels disk) + reported ends.
Proof.
  intros Hok. revert pass disk disk' evs ends.
  induction passes as [| passes IH]; intros pass disk disk' evs ends H.
  - cbn in H. inversion H; subst. cbn. lia.
  - destruct (startSupporting_pass _ _ _ _ _ _ _ _ H)
      as [(-> & Hrep & _) | (st & _ & _ & Hloop & Hend)]; [lia |].
    destruct (pass_disk _ _ _ _ Hloop) as (_ & _ & _ & Ht & _).
    pose proof (visitLoop_in_step _ _ _ _ _ _ _ (Hok pass) Hloop eq_refl) as Hsync.
    destruct Hend as [[-> ->] | (evs1 & ends1 & Hrec & ->)].
    + rewrite Hsync, Ht. cbn. lia.
    + rewrite (IH _ _ _ _ _ Hrec), Hsync, Ht.
      change (reported (Completed (rs_supportCount st) :: ends1))
        with (rs_supportCount st + reported ends1). lia.
Qed.

Lemma startSupporting_counts_add_up_witness :
  exists disk' evs ends,
    startSupporting 2 100 (fun _ => Examples.pass (Examples.visit Examples.steadyWatch)) 0
      (Examples.disk Examples.channelsABC Examples.comments3 Absent)
    = Some (disk', evs, ends) /\
    totalSupportCount (DataService.loadChannels disk')
    = totalSupportCount Examples.channelsABC + reported ends.
Proof.
  eexists _, _, _. split; [vm_compute; reflexivity |].
  eapply (startSupporting_counts_add_up 2 100
           (fun _ => Examples.pass (Examples.visit Examples.steadyWatch)) 0
           (Examples.disk Examples.channelsABC Examples.comments3 Absent));
    [reflexivity | vm_compute; reflexivity].
Defined.

End Runs.

(** ** One pass *)

Section OnePass.
Import VideoService EngagementService SupportService Observed.

Lemma queue_perm (disk : Disk) :
  DataService.loadChannels disk <> [] ->
  Pass.queue disk ≡ₚ seq 0 (length (DataService.loadChannels disk)).
Proof.
  unfold Pass.queue. destruct (DataService.loadChannels disk) as [| c cs]; [congruence |].
  intros _. rewrite reorderedChannels_rotateLeft by discriminate. apply rotateLeft_perm.
Qed.

(** In the channel loop over positions without repetition each channel is
    supported at most once, and a position outside the queue not at all. *)
Lemma visitLoop_once (fuel : nat) (iter : nat -> Iteration) (comments : list string)
    (queue : list nat) (i : nat) (st st' : RunState) (p : nat) (c c' : ChannelRecord) :
  visitLoop fuel iter comments queue i st = Some st' ->
  NoDup queue ->
  rs_channels st !! p = Some c -> rs_channels st' !! p = Some c' ->
  supportCount c' <= supportCount c + 1 /\
  (p ∉ queue -> supportCount c' = supportCount c).
Proof.
  revert i st c. induction queue as [| q queue IH]; intros i st c H Hnd Hc Hc';
    cbn [visitLoop] in H.
  - inversion H; subst. rewrite Hc in Hc'. inversion Hc'; subst. split; [lia | auto].
  - destruct (visitStep fuel (iter i) comments q st) as [[b st1] |] eqn:Hstep; [| discriminate].
    destruct (visitStep_cases _ _ _ _ _ _ _ Hstep) as (_ & Hfail & Hsucc).
    apply NoDup_cons in Hnd as [Hq Hnd].
    assert (Hmid : exists c1, rs_channels st1 !! p = Some c1 /\
                     supportCount c1 <= supportCount c + 1 /\
                     (p <> q -> supportCount c1 = supportCount c) /\
                     supportCount c <= supportCount c1).
    { destruct b.
      - destruct (Hsucc eq_refl) as (channel & Hch & -> & _).
        destruct (decide (p = q)) as [-> | Hne].
        + rewrite Hch in Hc. inversion Hc; subst.
          exists (supported (it_now (iter i)) c). split.
          * apply list_lookup_insert_eq. apply lookup_lt_Some in Hch. exact Hch.
          * cbn. split; [lia | split; [congruence | lia]].
        + exists c. split; [rewrite list_lookup_insert_ne by congruence; exact Hc |].
          split; [lia | split; [reflexivity | lia]].
      - destruct (Hfail eq_refl) as (-> & _). exists c.
        split; [exact Hc | split; [lia | split; [reflexivity | lia]]]. }
    destruct Hmid as (c1 & Hc1 & Hb1 & Heq1 & Hlo1).
    destruct (is_yes _).
    + destruct (IH _ _ _ H Hnd Hc1 Hc') as [Hb2 Heq2].
      split.
      * destruct (decide (p = q)) as [-> | Hne]; [rewrite (Heq2 Hq); exact Hb1 |].
        rewrite <- (Heq1 Hne). exact Hb2.
      * intros Hp. rewrite not_elem_of_cons in Hp. destruct Hp as [Hpq Hpn].
        rewrite (Heq2 Hpn). exact (Heq1 Hpq).
    + inversion H; subst. rewrite Hc1 in Hc'. inversion Hc'; subst.
      split; [exact Hb1 |]. intros Hp. rewrite not_elem_of_cons in Hp.
      exact (Heq1 (proj1 Hp)).
Qed.

(** X10: in one pass no channel is supported twice: every count on the
    disk grows by at most one, and the pass reports at most as many
    channels as the list holds. *)
Theorem pass_supports_each_channel_once (fuel : nat) (script : nat -> PassScript)
    (pass : nat) (disk disk' : Disk) (evs : list event) (ends : list PassEnd) :
  startSupporting 1 fuel script pass disk = Some (disk', evs, ends) ->
  Forall2 (fun c c' => supportCount c <= supportCount c' <= supportCount c + 1)
          (DataService.loadChannels disk) (DataService.loadChannels disk') /\
  reported ends <= Z.of_nat (length (DataService.loadChannels disk)).
Proof.
  intros H.
  assert (Hsame : Forall2 (fun c c' => supportCount c <= supportCount c' <= supportCount c + 1)
                    (DataService.loadChannels disk) (DataService.loadChannels disk)).
  { induction (DataService.loadChannels disk); constructor; [lia | assumption]. }
  destruct (startSupporting_pass _ _ _ _ _ _ _ _ H)
    as [(-> & Hrep & _) | (st & Hne & _ & Hloop & Hend)]; [split; [exact Hsame | lia] |].
  destruct (pass_disk _ _ _ _ Hloop) as (_ & Hg & Hgm & _ & Hn).
  rewrite (Permutation_length (queue_perm disk Hne)), length_seq in Hn.
  assert (Hnd : NoDup (Pass.queue disk)).
  { rewrite (queue_perm disk Hne). apply NoDup_seq. }
  assert (Hdisk : Forall2 (fun c c' => supportCount c <= supportCount c' <= supportCount c + 1)
                    (DataService.loadChannels disk) (DataService.loadChannels (rs_disk st))).
  { apply Forall2_same_length_lookup. split; [exact (Forall2_length _ _ _ Hg) |].
    intros p c d Hc Hd.
    destruct (Forall2_lookup_l _ _ _ _ _ Hgm Hd) as (c' & Hc' & (_ & _ & _ & _ & Hdc)).
    destruct (Forall2_lookup_lr _ _ _ _ _ _ Hg Hc Hd) as (_ & _ & _ & _ & Hcd).
    destruct (visitLoop_once _ _ _ _ _ _ _ p c c' Hloop Hnd Hc Hc') as [Hb _]. lia. }
  destruct Hend as [[-> ->] | (evs1 & ends1 & Hrec & ->)].
  - split; [exact Hdisk | cbn; lia].
  - cbn in Hrec. inversion Hrec; subst. split; [exact Hdisk | cbn; lia].
Qed.

Lemma pass_supports_each_channel_once_witness :
  exists disk' evs ends,
    startSupporting 1 100 (fun _ => Examples.pass (Examples.visit Examples.steadyWatch)) 0
      (Examples.disk Examples.channelsABC Examples.comments3 Absent)
    = Some (disk', evs, ends) /\
    Forall2 (fun c c' => supportCount c <= supportCount c' <= supportCount c + 1)
            Examples.channelsABC (DataService.loadChannels disk') /\
    reported ends <= 3.
Proof.
  eexists _, _, _. split; [vm_compute; reflexivity |].
  eapply (pass_supports_each_channel_once 100
            (fun _ => Examples.pass (Examples.visit Examples.steadyWatch)) 0
            (Examples.disk Examples.channelsABC Examples.comments3 Absent)).
  vm_compute. reflexivity.
Defined.

End OnePass.

(** ** Resuming after an interrupted pass *)

Section Resume.
Import VideoService EngagementService SupportService Observed.

Lemma supportChannel_reaches (fuel : nat) (v : VisitScript) (channel : ChannelRecord)
    (s s' : Settings) (comments : list string) (b : bool) (evs : list event) :
  reachesWatch v ->
  supportChannel fuel v channel s comments = Some (b, s', evs) -> b = true.
Proof.
  intros (Hp & Hg & (videoUrl & Hv) & Hgv & (getNextComment & Hn)).
  unfold supportChannel, navigateToChannelVideos.
  rewrite Hp, Hg, Hv, Hgv, Hn. cbn [negb].
  destruct (watchVideo _ _ _); [| discriminate].
  intros H. inversion H. reflexivity.
Qed.

(** A successful iteration under rotation records the position of the
    channel and, when the write succeeds, leaves the settings file equal
    to the settings object. *)
Lemma visitStep_rotation (fuel : nat) (it : Iteration) (comments : list string)
    (c : nat) (st st1 : RunState) (b : bool) :
  reachesWatch (it_visit it) ->
  visitStep fuel it comments c st = Some (b, st1) ->
  rotateChannels (rs_settings st) = Some true ->
  NoDup (id <$> rs_channels st) ->
  rotateChannels (rs_settings st1) = Some true /\
  lastChannelIndex (rs_settings st1) = Some (Z.of_nat c) /\
  id <$> rs_channels st1 = id <$> rs_channels st /\
  rs_supportCount st1 = rs_supportCount st + 1 /\
  (it_saveSettingsOk it = true -> settingsFile (rs_disk st1) = Content (rs_settings st1)).
Proof.
  intros Hreach H Hrot Hnd. unfold visitStep in H.
  destruct (rs_channels st !! c) as [channel |] eqn:Hc; [| discriminate].
  destruct (supportChannel _ _ _ _ _) as [[[success s1] evs] |] eqn:Hs; [| discriminate].
  pose proof (supportChannel_reaches _ _ _ _ _ _ _ _ Hreach Hs) as ->.
  destruct (supportChannel_inv _ _ _ _ _ _ _ _ Hs) as (Hr1 & _ & _ & _).
  rewrite Hrot in Hr1. rewrite Hr1 in H. cbn [orb] in H.
  inversion H; subst; clear H. cbn.
  split; [destruct (_commentIndexUpdated s1); cbn; exact Hr1 |].
  split; [destruct (_commentIndexUpdated s1); cbn; f_equal;
          apply findIndex_by_id; assumption |].
  split; [apply ids_after_support; exact Hc |]. split; [reflexivity |].
  intros ->. destruct (_commentIndexUpdated s1), (it_saveChannelsOk it); reflexivity.
Qed.

(** The channel loop in which the first [k] visits get as far as the watch
    and the operator lets the loop go on until the [k]-th: the settings and
    the settings file end with the position visited last. *)
Lemma visitLoop_resume (fuel : nat) (iter : nat -> Iteration) (comments : list string)
    (queue : list nat) (i : nat) (st st' : RunState) (k : nat) :
  visitLoop fuel iter comments queue i st = Some st' ->
  rotateChannels (rs_settings st) = Some true ->
  NoDup (id <$> rs_channels st) ->
  (0 < k <= length queue)%nat ->
  (forall j, (j < k)%nat ->
     reachesWatch (it_visit (iter (i + j)%nat)) /\
     it_saveSettingsOk (iter (i + j)%nat) = true) ->
  (forall j, (S j < k)%nat -> is_yes (it_continue (iter (i + j)%nat)) = true) ->
  ((k < length queue)%nat -> is_yes (it_continue (iter (i + (k - 1))%nat)) = false) ->
  exists c,
    queue !! (k - 1)%nat = Some c /\
    settingsFile (rs_disk st') = Content (rs_settings st') /\
    lastChannelIndex (rs_settings st') = Some (Z.of_nat c) /\
    rotateChannels (rs_settings st') = Some true /\
    rs_supportCount st' = rs_supportCount st + Z.of_nat k.
Proof.
  revert i st k. induction queue as [| q queue IH]; intros i st k H Hrot Hnd Hk Hvis Hyes Hno;
    [cbn in Hk; lia |].
  cbn [visitLoop] in H.
  destruct (visitStep fuel (iter i) comments q st) as [[b st1] |] eqn:Hstep; [| discriminate].
  destruct (Hvis 0%nat ltac:(lia)) as [Hreach Hsave]. rewrite Nat.add_0_r in Hreach, Hsave.
  destruct (visitStep_rotation _ _ _ _ _ _ _ Hreach Hstep Hrot Hnd)
    as (Hrot1 & Hlast1 & Hids1 & Hn1 & Hdisk1).
  destruct k as [| [| k]]; [lia | |].
  - (* the first visit is the last one *)
    assert (Hst : st' = st1).
    { destruct queue as [| q' queue'].
      - destruct (is_yes _); cbn in H; inversion H; reflexivity.
      - cbn [length Nat.sub] in Hno. rewrite Nat.add_0_r in Hno.
        rewrite Hno in H by lia.
        inversion H; reflexivity. }
    subst st'. exists q. split; [reflexivity |].
    split; [exact (Hdisk1 Hsave) |]. split; [exact Hlast1 |]. split; [exact Hrot1 | lia].
  - pose proof (Hyes 0%nat ltac:(lia)) as Hy0. rewrite Nat.add_0_r in Hy0.
    rewrite Hy0 in H.
    destruct (IH (S i) st1 (S k) H Hrot1 ltac:(rewrite Hids1; exact Hnd)
                ltac:(cbn [length] in Hk; lia)) as (c & Hc & Hd & Hl & Hr & Hn).
    + intros j Hj. replace (S i + j)%nat with (i + S j)%nat by lia. apply Hvis. lia.
    + intros j Hj. replace (S i + j)%nat with (i + S j)%nat by lia. apply Hyes. lia.
    + intros Hlt. replace (S i + (S k - 1))%nat with (i + (S (S k) - 1))%nat by lia.
      apply Hno. cbn [length]. lia.
    + exists c. split; [| split; [exact Hd | split; [exact Hl | split; [exact Hr | lia]]]].
      replace (S (S k) - 1)%nat with (S (S k - 1)) by lia. exact Hc.
Qed.

(** X11: rotation resumes where a pass stopped, once visits can succeed.
    When rotation is on, the channel identifiers are distinct, the first
    [k] visits of a pass get as far as the watch (every navigation
    succeeds and the engagement service has a [getNextComment], which the
    one of the sources has not), the settings file is written after each
    of them, and the operator stops the pass after the [k]-th (or the list
    ends there), the pass reports [k] channels and the next pass starts
    [k] positions further round the list. *)
Theorem interrupted_pass_resumes (fuel : nat) (script : nat -> PassScript) (pass : nat)
    (disk disk' : Disk) (evs : list event) (ends : list PassEnd) (k : nat) :
  startSupporting 1 fuel script pass disk = Some (disk', evs, ends) ->
  starts (script pass) ->
  DataService.loadComments disk <> [] ->
  NoDup (id <$> DataService.loadChannels disk) ->
  rotateChannels (DataService.loadSettings disk) = Some true ->
  (0 < k <= length (DataService.loadChannels disk))%nat ->
  (forall j, (j < k)%nat ->
     reachesWatch (it_visit (ps_iter (script pass) j)) /\
     it_saveSettingsOk (ps_iter (script pass) j) = true) ->
  (forall j, (S j < k)%nat -> is_yes (it_continue (ps_iter (script pass) j)) = true) ->
  ((k < length (DataService.loadChannels disk))%nat ->
   is_yes (it_continue (ps_iter (script pass) (k - 1))) = false) ->
  reported ends = Z.of_nat k /\
  length (DataService.loadChannels disk') = length (DataService.loadChannels disk) /\
  startIndex (Z.of_nat (length (DataService.loadChannels disk')))
    (DataService.loadSettings disk')
  = (startIndex (Z.of_nat (length (DataService.loadChannels disk)))
       (DataService.loadSettings disk) + Z.of_nat k)
    mod Z.of_nat (length (DataService.loadChannels disk)).
Proof.
  intros H (Hb & Ha & Hcf) Hcm Hnd Hrot Hk Hvis Hyes Hno.
  destruct (startSupporting_pass _ _ _ _ _ _ _ _ H)
    as [(_ & _ & [Hx | [Hx | [Hx | [Hx | Hx]]]]) | (st & Hne & _ & Hloop & Hend)];
    try congruence; [rewrite Hx in Hk; cbn in Hk; lia |].
  destruct (pass_disk _ _ _ _ Hloop) as (_ & Hg & _ & _ & _).
  pose proof (Forall2_length _ _ _ Hg) as Hlen.
  assert (Hkq : (0 < k <= length (Pass.queue disk))%nat).
  { rewrite (Permutation_length (queue_perm disk Hne)), length_seq. exact Hk. }
  destruct (visitLoop_resume _ _ _ _ _ _ _ k Hloop Hrot Hnd Hkq Hvis Hyes)
    as (c & Hc & Hd & Hl & Hr & Hn).
  { rewrite (Permutation_length (queue_perm disk Hne)), length_seq. exact Hno. }
  cbn [Pass.initialState rs_supportCount] in Hn.
  assert (Hdisk' : disk' = rs_disk st /\ reported ends = rs_supportCount st).
  { destruct Hend as [[-> ->] | (evs1 & ends1 & Hrec & ->)]; [split; cbn; [reflexivity | lia] |].
    cbn in Hrec. inversion Hrec; subst. split; cbn; [reflexivity | lia]. }
  destruct Hdisk' as [-> Hrep]. split; [lia |]. split; [symmetry; exact Hlen |].
  rewrite <- Hlen.
  destruct (reorderedChannels_position (DataService.loadChannels disk)
              (DataService.loadSettings disk) (k - 1) c Hne Hc) as (_ & Hpos & _).
  pose proof (startIndex_range _ (DataService.loadSettings disk) (length_pos _ Hne)) as Hr0.
  set (n := Z.of_nat (length (DataService.loadChannels disk))) in *.
  set (start := startIndex n (DataService.loadSettings disk)) in *.
  assert (HcZ : Z.of_nat c = (start + Z.of_nat (k - 1)) mod n).
  { rewrite Hpos, Nat2Z.inj_mod, Nat2Z.inj_add, Z2Nat.id by lia. reflexivity. }
  unfold startIndex at 1, DataService.loadSettings at 1 2. rewrite Hd, Hr, Hl.
  destruct (Z.leb_spec 0 (Z.of_nat c)); [| lia].
  rewrite Z.rem_mod_nonneg by lia. rewrite HcZ, Z.add_mod_idemp_l by lia.
  f_equal. lia.
Qed.

Lemma interrupted_pass_resumes_witness :
  exists disk' evs ends,
    startSupporting 1 100 (fun _ => MoreExamples.stoppingPass 2) 0
      (Examples.disk Examples.channelsABC Examples.comments3
         (Content (Examples.rotating 0 (-1))))
    = Some (disk', evs, ends) /\
    reported ends = 2 /\
    length (DataService.loadChannels disk') = 3%nat /\
    startIndex (Z.of_nat (length (DataService.loadChannels disk')))
      (DataService.loadSettings disk')
    = (1 + 2) mod 3.
Proof.
  eexists _, _, _. split; [vm_compute; reflexivity |].
  eapply (interrupted_pass_resumes 100 (fun _ => MoreExamples.stoppingPass 2) 0
            (Examples.disk Examples.channelsABC Examples.comments3
               (Content (Examples.rotating 0 (-1)))) _ _ _ 2).
  - vm_compute. reflexivity.
  - repeat split.
  - discriminate.
  - apply (bool_decide_unpack _). vm_compute. exact I.
  - reflexivity.
  - cbn. lia.
  - intros j Hj. repeat split;
      [exists "https://www.youtube.com/watch?v=dQw4w9WgXcQ"; reflexivity
      | exists EngagementService.getNextComment; reflexivity].
  - intros j Hj. destruct j as [| j]; [reflexivity | lia].
  - intros _. reflexivity.
Defined.

End Resume.

(** ** Every observed run ends *)

Section RunReturns.
Import VideoService EngagementService SupportService Observed.

(** A visit changes none of the settings that decide the watch time. *)
Lemma supportChannel_limits (fuel : nat) (v : VisitScript) (channel : ChannelRecord)
    (s s' : Settings) (comments : list string) (b : bool) (evs : list event) :
  supportChannel fuel v channel s comments = Some (b, s', evs) -> limits s' = limits s.
Proof.
  unfold supportChannel. intros H.
  destruct (vs_page v); cbn [negb] in H; [| inversion H; reflexivity].
  destruct (navigateToChannelVideos v); cbn [negb] in H; [| inversion H; reflexivity].
  destruct (findLatestVideo v); [| inversion H; reflexivity].
  destruct (vs_gotoVideo v); [| inversion H; reflexivity].
  destruct (vs_getNextComment v) as [getNextComment |]; [| inversion H; reflexivity].
  destruct (watchVideo fuel _ _); [| discriminate]. inversion H; subst.
  unfold recordComment. destruct (isRotated _); reflexivity.
Qed.

Lemma supportChannel_returns (fuel : nat) (v : VisitScript) (channel : ChannelRecord)
    (s : Settings) (comments : list string) :
  positive_finite (durationSeconds (vs_details v)) ->
  10 <= watchTimePercentage s <= 100 ->
  0 <= minWatchTimeSeconds s <= maxWatchTimeSeconds s ->
  maxWatchTimeSeconds s < 2 ^ 52 ->
  (Z.to_nat ((maxWatchTimeSeconds s + 9) / 10) <= fuel)%nat ->
  is_Some (supportChannel fuel v channel s comments).
Proof.
  intros Hd Hp Hmm Hmax Hfuel. unfold supportChannel.
  destruct (negb (vs_page v)); [eauto |].
  destruct (negb (navigateToChannelVideos v)); [eauto |].
  destruct (findLatestVideo v); [| eauto].
  destruct (vs_gotoVideo v); [| eauto].
  destruct (vs_getNextComment v) as [getNextComment |]; [| eauto].
  destruct (watchVideo_enough_fuel fuel (vs_watch v) (vs_details v) s Hd Hp Hmm Hmax Hfuel)
    as [r ->]. eauto.
Qed.

(** One iteration keeps the limits, in the settings object and in the
    settings file, and the length of the channel array. *)
Lemma visitStep_limits (fuel : nat) (it : Iteration) (comments : list string)
    (c : nat) (st st1 : RunState) (b : bool) (t : Z * Z * Z) :
  visitStep fuel it comments c st = Some (b, st1) ->
  limits (rs_settings st) = t -> limits (DataService.loadSettings (rs_disk st)) = t ->
  limits (rs_settings st1) = t /\ limits (DataService.loadSettings (rs_disk st1)) = t /\
  length (rs_channels st1) = length (rs_channels st).
Proof.
  unfold visitStep. intros H Hs Hd.
  destruct (rs_channels st !! c) as [channel |]; [| discriminate].
  destruct (supportChannel _ _ _ _ _) as [[[success s1] evs] |] eqn:Hsup; [| discriminate].
  pose proof (supportChannel_limits _ _ _ _ _ _ _ _ Hsup) as Hl. rewrite Hs in Hl.
  destruct success; inversion H; subst; clear H; cbn; [| auto].
  split; [| split; [| apply length_insert]].
  - destruct (rotateChannels s1) as [[] |]; cbn; repeat (case_match; cbn); exact Hl.
  - destruct (rotateChannels s1) as [[] |]; cbn; repeat (case_match; cbn);
      rewrite ?loadSettings_saveSettings, ?loadSettings_saveChannels;
      repeat (case_match; cbn); first [exact Hl | exact Hd].
Qed.

Lemma visitLoop_returns (fuel : nat) (iter : nat -> Iteration) (comments : list string)
    (queue : list nat) (i : nat) (st : RunState) (t : Z * Z * Z) :
  (forall j, positive_finite (durationSeconds (vs_details (it_visit (iter j))))) ->
  10 <= t.1.1 <= 100 -> 0 <= t.1.2 <= t.2 -> t.2 < 2 ^ 52 ->
  (Z.to_nat ((t.2 + 9) / 10) <= fuel)%nat ->
  Forall (fun c => (c < length (rs_channels st))%nat) queue ->
  limits (rs_settings st) = t -> limits (DataService.loadSettings (rs_disk st)) = t ->
  exists st', visitLoop fuel iter comments queue i st = Some st' /\
              limits (DataService.loadSettings (rs_disk st')) = t.
Proof.
  intros Hd Hp Hmm Hmax Hfuel. revert i st.
  induction queue as [| c queue IH]; intros i st Hq Hs Hdisk; cbn [visitLoop]; [eauto |].
  apply Forall_cons in Hq as [Hc Hq].
  destruct (lookup_lt_is_Some_2 _ _ Hc) as [channel Hch].
  assert (Hstep : is_Some (visitStep fuel (iter i) comments c st)).
  { unfold visitStep. rewrite Hch.
    destruct (supportChannel_returns fuel (it_visit (iter i)) channel (rs_settings st)
                comments (Hd i)) as [[[[] s1] evs] ->];
      try eauto; unfold limits in Hs; subst t; cbn in *; assumption. }
  destruct Hstep as [[b st1] Hstep]. rewrite Hstep.
  destruct (visitStep_limits _ _ _ _ _ _ _ _ Hstep Hs Hdisk) as (Hs1 & Hd1 & Hlen).
  destruct (is_yes _); [| eauto].
  apply IH; [| assumption | assumption].
  rewrite Hlen. exact Hq.
Qed.

(** X12: the fuel of the model is no restriction.  When the limits in the
    settings file are in order and every video has a positive finite
    duration, each watch loop of a run ends within
    [ceil(maxWatchTimeSeconds / 10)] polls, so that much fuel gives a
    result for any number of observed passes. *)
Theorem startSupporting_returns (passes fuel : nat) (script : nat -> PassScript)
    (pass : nat) (disk : Disk) :
  (forall p j,
     positive_finite (durationSeconds (vs_details (it_visit (ps_iter (script p) j))))) ->
  10 <= watchTimePercentage (DataService.loadSettings disk) <= 100 ->
  0 <= minWatchTimeSeconds (DataService.loadSettings disk)
    <= maxWatchTimeSeconds (DataService.loadSettings disk) ->
  maxWatchTimeSeconds (DataService.loadSettings disk) < 2 ^ 52 ->
  (Z.to_nat ((maxWatchTimeSeconds (DataService.loadSettings disk) + 9) / 10) <= fuel)%nat ->
  is_Some (startSupporting passes fuel script pass disk).
Proof.
  intros Hd. revert pass disk.
  induction passes as [| passes IH]; intros pass disk Hp Hmm Hmax Hfuel;
    cbn [startSupporting]; [eauto |].
  destruct (negb (ps_browser (script pass))); [eauto |].
  destruct (negb (ps_authenticated (script pass))); [eauto |].
  destruct (DataService.loadChannels disk) as [| c0 cs] eqn:Hch; cbn [length Nat.eqb];
    [eauto |].
  destruct (length (DataService.loadComments disk) =? 0)%nat; [eauto |].
  destruct (negb (is_yes (ps_confirm (script pass)))); [eauto |].
  match goal with
  | |- is_Some (match visitLoop ?f ?it ?cm ?q ?i ?st0 with _ => _ end) =>
      destruct (visitLoop_returns f it cm q i st0
                  (limits (DataService.loadSettings disk)) (Hd pass) Hp Hmm Hmax Hfuel)
        as (st & -> & Hl)
  end.
  - cbn [rs_channels]. 
    assert (Hne : c0 :: cs <> []) by discriminate.
    change (S (length cs)) with (length (c0 :: cs)).
    rewrite reorderedChannels_rotateLeft by discriminate.
    rewrite rotateLeft_perm. apply Forall_forall. intros c Hin.
    apply elem_of_seq in Hin. lia.
  - reflexivity.
  - reflexivity.
  - destruct (is_yes (ps_restart (script pass))); [| eauto].
    unfold limits in Hl. inversion Hl as [[Hl1 Hl2 Hl3]].
    destruct (IH (S pass) (rs_disk st)) as [[[disk1 evs1] ends1] ->];
      try rewrite Hl1; try rewrite Hl2; try rewrite Hl3; try assumption. eauto.
Qed.

Lemma startSupporting_returns_witness :
  is_Some (startSupporting 3 60 (fun _ => Examples.pass (Examples.visit Examples.steadyWatch))
             0 (Examples.disk Examples.channelsABC Examples.comments3 Absent)).
Proof.
  apply (startSupporting_returns 3 60
           (fun _ => Examples.pass (Examples.visit Examples.steadyWatch)) 0
           (Examples.disk Examples.channelsABC Examples.comments3 Absent));
    [intros p j; vm_compute; reflexivity | cbn; lia | cbn; lia | cbn; lia | vm_compute; lia].
Defined.

End RunReturns.

(** ** Runs with the engagement service of the sources *)

Section RunsAsFound.
Import VideoService EngagementService SupportService Observed.





(** The events of one pass over A, B and C as the sources have it: at each
    channel two navigations, the subscription and the like, and nothing
    else. *)
Example pass_as_found :
  startSupporting 1 0 (fun _ => Examples.pass (Examples.visitAsFound Examples.steadyWatch)) 0
    (Examples.disk Examples.channelsABC Examples.comments3 Absent)
  = Some (Examples.disk Examples.channelsABC Examples.comments3 Absent,
          [StartFromFirst;
           Goto "https://www.youtube.com/@A/videos";
           Goto "https://www.youtube.com/watch?v=dQw4w9WgXcQ"; Subscribe; Like;
           Goto "https://www.youtube.com/@B/videos";
           Goto "https://www.youtube.com/watch?v=dQw4w9WgXcQ"; Subscribe; Like;
           Goto "https://www.youtube.com/@C/videos";
           Goto "https://www.youtube.com/watch?v=dQw4w9WgXcQ"; Subscribe; Like],
          [Completed 0]).
Proof. vm_compute. reflexivity. Qed.

End RunsAsFound.

(** ** The settings menu: ranges and rotation state *)

Section SettingsRanges.
Import SupportSettingsMenuHandler Observed.

Ltac menu_cases :=
  repeat match goal with
         | |- context [if ?b then _ else _] => destruct b eqn:?
         | |- context [match parseInt ?i with _ => _ end] => destruct (parseInt i) eqn:?
         end.

Ltac menu_bounds :=
  repeat match goal with
         | H : (_ || _) = false |- _ => apply orb_false_elim in H; destruct H
         | H : (_ <? _) = false |- _ => apply Z.ltb_ge in H
         | H : (_ <? _) = true |- _ => apply Z.ltb_lt in H
         end.

Lemma handleChoice_ranges (choice input : string) (ok : bool)
    (s : Settings) (f : file Settings) :
  in_range s -> file_in_range f ->
  in_range (fst (handleChoice choice input ok s f)) /\
  file_in_range (snd (handleChoice choice input ok s f)).
Proof.
  intros Hs Hf.
  unfold handleChoice, changeWatchTimePercentage, changeMinWatchTime,
    changeMaxWatchTime, toggleLikeVideos, toggleSubscribe, changePauseTime,
    resetToDefaults, saveSettings.
  menu_cases; cbn [fst snd]; (split; try assumption);
    menu_bounds; unfold file_in_range, in_range in *; cbn; lia.
Qed.

(** X13: a settings file whose numbers are in the ranges the menu asks for
    (percentage 10 to 100, minimum 10 to 300, maximum 60 to 3600, pause 10
    to 300, minimum not above maximum) stays so through every round of the
    menu, whatever is chosen and typed; a missing file is created with the
    defaults, which are in range. *)
Theorem showMenu_keeps_ranges (okLoad : bool) (choice input : string) (ok : bool)
    (f : file Settings) :
  file_in_range f -> file_in_range (showMenu okLoad choice input ok f).
Proof.
  intros Hf. unfold showMenu.
  destruct (loadSettings okLoad f) as [s f1] eqn:Hload.
  assert (Hs : in_range s /\ file_in_range f1).
  { unfold loadSettings in Hload. destruct f as [| | s0]; inversion Hload; subst.
    - split; [unfold in_range; cbn; lia |].
      destruct okLoad; cbn; [unfold in_range; cbn; lia | exact I].
    - split; [unfold in_range; cbn; lia | exact I].
    - split; assumption. }
  destruct Hs as [Hs Hf1]. apply handleChoice_ranges; assumption.
Qed.

Lemma showMenu_keeps_ranges_witness :
  file_in_range (showMenu true "3" "45 seconds" true (Content DataService.defaultSettings)).
Proof.
  apply (showMenu_keeps_ranges true "3" "45 seconds" true
           (Content DataService.defaultSettings)).
  unfold file_in_range, in_range. cbn. lia.
Defined.

(** X14: no operation of the menu but the reset touches the rotation state
    in the settings file: [rotateChannels], [lastChannelIndex] and
    [lastCommentIndex] are as before. *)
Theorem settings_edits_keep_rotation_state (okLoad : bool) (choice input : string)
    (ok : bool) (s : Settings) :
  String.eqb choice "7" = false ->
  exists s', showMenu okLoad choice input ok (Content s) = Content s' /\
             rotateChannels s' = rotateChannels s /\
             lastChannelIndex s' = lastChannelIndex s /\
             lastCommentIndex s' = lastCommentIndex s.
Proof.
  intros H7. unfold showMenu, loadSettings, handleChoice. rewrite H7.
  unfold changeWatchTimePercentage, changeMinWatchTime,
    changeMaxWatchTime, toggleLikeVideos, toggleSubscribe, changePauseTime, saveSettings.
  menu_cases; cbn [fst snd]; eexists; (split; [reflexivity |]); cbn; auto.
Qed.

Lemma settings_edits_keep_rotation_state_witness :
  exists s', showMenu true "1" "50" true (Content (Examples.rotating 2 1)) = Content s' /\
             rotateChannels s' = Some true /\
             lastChannelIndex s' = Some 2 /\
             lastCommentIndex s' = Some 1.
Proof.
  apply (settings_edits_keep_rotation_state true "1" "50" true (Examples.rotating 2 1)).
  reflexivity.
Defined.

(** X15: a confirmed reset writes the bare defaults, which carry no
    rotation state: whatever the file held, the next run reads rotation as
    off and visits the channels in their listed order, and the comment
    rotation is forgotten as well. *)
Theorem resetToDefaults_forgets_rotation (okLoad : bool) (input : string)
    (f : file Settings) (disk : Disk) :
  SupportService.is_yes input = true ->
  settingsFile disk = showMenu okLoad "7" input true f ->
  settingsFile disk = Content defaultSettings /\
  SupportService.resumesRotation (DataService.loadSettings disk) = false /\
  lastCommentIndex (DataService.loadSettings disk) = None /\
  forall channels : list ChannelRecord,
    SupportService.reorderedChannels channels (DataService.loadSettings disk) = channels.
Proof.
  intros Hy Hd.
  assert (Hf : showMenu okLoad "7" input true f = Content defaultSettings).
  { unfold showMenu, loadSettings.
    destruct f as [| | s]; cbn; unfold resetToDefaults; rewrite Hy; reflexivity. }
  rewrite Hf in Hd. unfold DataService.loadSettings. rewrite Hd.
  split; [reflexivity |]. split; [reflexivity |]. split; [reflexivity |].
  intros channels. apply reorderedChannels_not_resumed. reflexivity.
Qed.

Lemma resetToDefaults_forgets_rotation_witness :
  settingsFile (Examples.disk Examples.channelsABC Examples.comments3
                  (Content defaultSettings)) = Content defaultSettings /\
  SupportService.resumesRotation
    (DataService.loadSettings
       (Examples.disk Examples.channelsABC Examples.comments3 (Content defaultSettings)))
  = false /\
  lastCommentIndex
    (DataService.loadSettings
       (Examples.disk Examples.channelsABC Examples.comments3 (Content defaultSettings)))
  = None /\
  forall channels : list ChannelRecord,
    SupportService.reorderedChannels channels
      (DataService.loadSettings
         (Examples.disk Examples.channelsABC Examples.comments3 (Content defaultSettings)))
    = channels.
Proof.
  apply (resetToDefaults_forgets_rotation true "y" (Content (Examples.rotating 2 1))
           (Examples.disk Examples.channelsABC Examples.comments3 (Content defaultSettings)));
    reflexivity.
Defined.

End SettingsRanges.

(** ** Answers of the operator *)

Section Answers.
Import SupportSettingsMenuHandler MenuService TimedInput.

Lemma trimEnd_idem (s : string) : trimEnd (trimEnd s) = trimEnd s.
Proof.
  induction s as [| c s IH]; [reflexivity |]. cbn [trimEnd].
  destruct (isWhiteSpace c && String.eqb (trimEnd s) "") eqn:Hc; [reflexivity |].
  cbn [trimEnd]. rewrite IH, Hc. reflexivity.
Qed.

Lemma skipWhiteSpace_head (s : string) :
  skipWhiteSpace s = EmptyString \/
  exists c u, skipWhiteSpace s = String c u /\ isWhiteSpace c = false.
Proof.
  induction s as [| c s IH]; [left; reflexivity |]. cbn [skipWhiteSpace].
  destruct (isWhiteSpace c) eqn:Hc; [exact IH | right; eauto].
Qed.

Lemma trim_idem (s : string) : trim (trim s) = trim s.
Proof.
  unfold trim. destruct (skipWhiteSpace_head s) as [-> | (c & u & -> & Hc)]; [reflexivity |].
  assert (Hcu : trimEnd (String c u) = String c (trimEnd u))
    by (cbn [trimEnd]; rewrite Hc; reflexivity).
  rewrite Hcu. cbn [skipWhiteSpace]. rewrite Hc, <- Hcu. apply trimEnd_idem.
Qed.

(** X16: [getInput] never returns an empty line and never a line with
    white space at either end: an empty or blank line becomes the word
    ["EMPTY_INPUT"], and trimming the result again changes nothing. *)
Theorem getInput_is_trimmed (line : string) :
  getInput line <> EmptyString /\
  trim (getInput line) = getInput line /\
  (trim line = EmptyString -> getInput line = "EMPTY_INPUT").
Proof.
  unfold getInput. destruct (String.eqb_spec (trim line) "") as [He | Hne].
  - split; [discriminate |]. split; [reflexivity | auto].
  - split; [exact Hne |]. split; [apply trim_idem | congruence].
Qed.


End Answers.

(** ** The comments menu *)

Section CommentsMenu.
Import SupportSettingsMenuHandler CommentsMenuHandler.

(** X18: [removeComment] removes at most one comment, the one whose
    displayed number was typed, and keeps the others in their order; any
    other reply leaves the list as it was. *)
Theorem removeComment_removes_one (choice : string) (ok : bool) (comments : list string) :
  removeComment choice ok (Content comments) = Content comments \/
  exists i : nat,
    (i < length comments)%nat /\
    parseInt choice = Some (Z.of_nat i + 1) /\
    removeComment choice ok (Content comments)
    = Content (take i comments ++ drop (S i) comments).
Proof.
  unfold removeComment, writeComments.
  destruct (length comments =? 0)%nat; [left; reflexivity |].
  destruct (cancelled choice); [left; reflexivity |].
  destruct (parseInt choice) as [number |]; [| left; reflexivity].
  destruct (Z.ltb_spec (number - 1) 0) as [| Hlo]; [left; reflexivity |].
  destruct (Z.leb_spec (Z.of_nat (length comments)) (number - 1)) as [| Hhi];
    [left; reflexivity |].
  destruct ok; [right | left; reflexivity]. cbn [orb].
  exists (Z.to_nat (number - 1)). split; [lia |]. split; [f_equal; lia |].
  rewrite delete_take_drop. reflexivity.
Qed.

(** X19: adding a comment puts it at the end of the list, and removing
    the last number afterwards gives the list back. *)
Theorem addComment_then_removeComment (commentText choice : string)
    (comments : list string) :
  cancelled commentText = false ->
  cancelled choice = false ->
  parseInt choice = Some (Z.of_nat (length comments) + 1) ->
  addComment commentText true (Content comments) = Content (comments ++ [commentText]) /\
  removeComment choice true (addComment commentText true (Content comments))
  = Content comments.
Proof.
  intros Ht Hc Hp. unfold addComment. rewrite Ht. cbn [writeComments].
  split; [reflexivity |]. unfold removeComment. rewrite Hc, Hp, length_app.
  cbn [length]. replace (length comments + 1 =? 0)%nat with false
    by (symmetry; apply Nat.eqb_neq; lia).
  replace (Z.of_nat (length comments) + 1 - 1) with (Z.of_nat (length comments)) by lia.
  destruct (Z.ltb_spec (Z.of_nat (length comments)) 0); [lia |].
  destruct (Z.leb_spec (Z.of_nat (length comments + 1)) (Z.of_nat (length comments))); [lia |].
  cbn [orb writeComments]. rewrite Nat2Z.id. f_equal.
  rewrite delete_take_drop, take_app_length.
  rewrite drop_ge by (rewrite length_app; cbn; lia). apply app_nil_r.
Qed.

Lemma addComment_then_removeComment_witness :
  addComment "fourth" true (Content Examples.comments3)
  = Content (Examples.comments3 ++ ["fourth"]) /\
  removeComment "4" true (addComment "fourth" true (Content Examples.comments3))
  = Content Examples.comments3.
Proof.
  apply (addComment_then_removeComment "fourth" "4" Examples.comments3);
    reflexivity.
Defined.

End CommentsMenu.

(** ** The accounts menu *)

Section AccountsMenu.
Import SupportSettingsMenuHandler SupportService AccountsMenuHandler Observed.

Lemma isDuplicate_false (channelUrl : string) (channels : list ChannelRecord) :
  isDuplicate channelUrl channels = false ->
  (channelUrl ∉ url <$> channels) /\
  (getChannelIdentifier channelUrl ∉ (getChannelIdentifier ∘ url) <$> channels).
Proof.
  unfold isDuplicate. induction channels as [| c channels IH]; cbn [existsb fmap list_fmap].
  - intros _. split; apply not_elem_of_nil.
  - intros H. apply orb_false_elim in H as [Hc H].
    apply orb_false_elim in Hc as [Hu Hi].
    apply String.eqb_neq in Hu, Hi. destruct (IH H) as [IH1 IH2].
    split; apply not_elem_of_cons; (split; [| assumption]); cbn; congruence.
Qed.

(** X20: [addChannel] only ever appends: the channels already listed keep
    their place and their data, the new one starts with a support count of
    zero, and a list without repeated URLs (or repeated channel
    identifiers) has none afterwards either. *)
Theorem addChannel_keeps_channels_distinct (channelUrl channelId now : string) (ok : bool)
    (channels : list ChannelRecord) :
  exists channels',
    addChannel channelUrl channelId now ok (Content channels) = Content channels' /\
    (channels' = channels \/
     exists c, channels' = channels ++ [c] /\ url c = channelUrl /\ id c = channelId /\
               supportCount c = 0 /\ lastSupported c = None) /\
    (NoDup (url <$> channels) -> NoDup (url <$> channels')) /\
    (NoDup ((getChannelIdentifier ∘ url) <$> channels) ->
     NoDup ((getChannelIdentifier ∘ url) <$> channels')).
Proof.
  unfold addChannel, writeChannels.
  destruct (cancelled channelUrl); [exists channels; auto |].
  destruct (isDuplicate channelUrl channels) eqn:Hdup; [exists channels; auto |].
  destruct ok; [| exists channels; auto].
  destruct (isDuplicate_false _ _ Hdup) as [Hu Hi].
  eexists. split; [reflexivity |]. split; [right; eexists; repeat split |].
  split; intros Hnd; rewrite fmap_app; apply NoDup_app; (split; [exact Hnd |]);
    (split; [| apply NoDup_singleton]); intros x Hx Hin;
    apply list_elem_of_singleton in Hin; cbn in Hin; subst x; contradiction.
Qed.

(** X21: the rotation state is an index, and [removeChannel] does not
    adjust it.  With rotation on, removing a channel listed at or before
    the channel supported last makes the next run start one channel
    further on: the channel that was next in turn is passed over. *)
Theorem removeChannel_shifts_rotation (choice confirm : string)
    (channels : list ChannelRecord) (s : Settings) (i : nat) (last : Z) :
  cancelled choice = false ->
  parseInt choice = Some (Z.of_nat i + 1) ->
  is_yes confirm = true ->
  rotateChannels s = Some true ->
  lastChannelIndex s = Some last ->
  Z.of_nat i <= last ->
  last + 2 < Z.of_nat (length channels) ->
  exists channels',
    removeChannel choice confirm true (Content channels) = Content channels' /\
    channels' = take i channels ++ drop (S i) channels /\
    head (reorderedChannels channels s) = channels !! Z.to_nat (last + 1) /\
    head (reorderedChannels channels' s) = channels !! Z.to_nat (last + 2).
Proof.
  intros Hc Hp Hy Hr Hl Hi Hn.
  assert (Hlen : length (delete i channels) = (length channels - 1)%nat).
  { rewrite length_delete; [reflexivity |]. apply lookup_lt_is_Some. lia. }
  exists (delete i channels). split; [| split; [apply delete_take_drop | split]].
  - unfold removeChannel, writeChannels. rewrite Hc, Hp, Hy.
    replace (length channels =? 0)%nat with false by (symmetry; apply Nat.eqb_neq; lia).
    replace (Z.of_nat i + 1 - 1) with (Z.of_nat i) by lia.
    destruct (Z.ltb_spec (Z.of_nat i) 0); [lia |].
    destruct (Z.leb_spec (Z.of_nat (length channels)) (Z.of_nat i)); [lia |].
    cbn [orb negb]. rewrite Nat2Z.id. reflexivity.
  - assert (Hne : channels <> []) by (destruct channels; [cbn in Hn; lia | discriminate]).
    rewrite reorderedChannels_rotateLeft by assumption.
    assert (Hs : startIndex (Z.of_nat (length channels)) s = last + 1).
    { unfold startIndex. rewrite Hr, Hl. destruct (Z.leb_spec 0 last); [| lia].
      apply Z.rem_small. lia. }
    rewrite Hs, head_lookup, rotateLeft_lookup by lia.
    rewrite Nat.add_0_r, Nat.mod_small by lia. reflexivity.
  - assert (Hne : delete i channels <> []).
    { intros He. rewrite He in Hlen. cbn in Hlen. lia. }
    rewrite reorderedChannels_rotateLeft by assumption.
    assert (Hs : startIndex (Z.of_nat (length (delete i channels))) s = last + 1).
    { unfold startIndex. rewrite Hr, Hl. destruct (Z.leb_spec 0 last); [| lia].
      apply Z.rem_small. lia. }
    rewrite Hs, head_lookup, rotateLeft_lookup by lia.
    rewrite Nat.add_0_r, Nat.mod_small by lia.
    rewrite list_lookup_delete_ge by lia. f_equal. lia.
Qed.

Lemma removeChannel_shifts_rotation_witness :
  exists channels',
    removeChannel "1" "y" true (Content MoreExamples.channelsABCD) = Content channels' /\
    channels' = take 0 MoreExamples.channelsABCD ++ drop 1 MoreExamples.channelsABCD /\
    head (reorderedChannels MoreExamples.channelsABCD (Examples.rotating 0 (-1)))
    = MoreExamples.channelsABCD !! Z.to_nat (0 + 1) /\
    head (reorderedChannels channels' (Examples.rotating 0 (-1)))
    = MoreExamples.channelsABCD !! Z.to_nat (0 + 2).
Proof.
  apply (removeChannel_shifts_rotation "1" "y" MoreExamples.channelsABCD
           (Examples.rotating 0 (-1)) 0 0);
    [reflexivity | reflexivity | reflexivity | reflexivity | reflexivity | lia | cbn; lia].
Defined.

(** X22: a confirmed [resetCounts] sets every support count to zero and
    clears every date, changes nothing else of any channel, and a second
    reset changes nothing at all. *)
Theorem resetCounts_zeroes (confirm : string) (channels : list ChannelRecord) :
  is_yes confirm = true ->
  exists channels',
    resetCounts confirm true (Content channels) = Content channels' /\
    Forall2 (fun c c' => id c' = id c /\ name c' = name c /\ url c' = url c /\
                         addedOn c' = addedOn c /\
                         supportCount c' = 0 /\ lastSupported c' = None)
            channels channels' /\
    totalSupportCount channels' = 0 /\
    resetCounts confirm true (Content channels') = Content channels'.
Proof.
  intros Hy. unfold resetCounts, writeChannels. rewrite Hy. cbn [negb].
  eexists. split; [reflexivity |]. split; [| split].
  - induction channels as [| c channels IH]; constructor; [| exact IH].
    cbn. repeat split.
  - induction channels as [| c channels IH]; [reflexivity |].
    change (0 + totalSupportCount (resetChannel <$> channels) = 0). lia.
  - f_equal. rewrite <- list_fmap_compose. reflexivity.
Qed.

Lemma resetCounts_zeroes_witness :
  exists channels',
    resetCounts "Y" true (Content MoreExamples.supportedABC) = Content channels' /\
    Forall2 (fun c c' => id c' = id c /\ name c' = name c /\ url c' = url c /\
                         addedOn c' = addedOn c /\
                         supportCount c' = 0 /\ lastSupported c' = None)
            MoreExamples.supportedABC channels' /\
    totalSupportCount channels' = 0 /\
    resetCounts "Y" true (Content channels') = Content channels'.
Proof.
  apply (resetCounts_zeroes "Y" MoreExamples.supportedABC). reflexivity.
Defined.

(** The example list holds support counts of 2, 3 and 4, nine in all, and
    three dates; after the reset the counts are zero and the dates gone. *)
Example resetCounts_on_supported_channels :
  totalSupportCount MoreExamples.supportedABC = 9 /\
  resetCounts "Y" true (Content MoreExamples.supportedABC)
  = Content Examples.channelsABC.
Proof. split; reflexivity. Qed.

End AccountsMenu.

(** ** Exact arithmetic on whole numbers *)

Section ExactArithmetic.
Import VideoDetailsReader.

(** Rounding a mantissa that ends in [n] zero bits to the exponent [n]
    higher loses nothing. *)
Lemma round_aux_exact_shift (Q : positive) (E n : Z) :
  0 <= n ->
  fexp prec emax (Z.pos (digits2_pos Q) + E) = E -> E <= 971 ->
  binary_round_aux prec emax false (Z.pos Q * 2 ^ n) (E - n) loc_Exact
  = S754_finite false Q E.
Proof.
  intros Hn Hf HE.
  destruct (Z.eq_dec n 0) as [-> | Hn0].
  { rewrite Z.mul_1_r, Z.sub_0_r. apply round_aux_exact; assumption. }
  assert (Hp : 0 < 2 ^ n) by (apply Z.pow_pos_nonneg; lia).
  destruct (Z.pos Q * 2 ^ n) as [| P |] eqn:HP; try lia.
  pose proof (digits2_pos_bounds Q) as [Hlo Hhi].
  assert (HdP : Z.pos (digits2_pos P) = Z.pos (digits2_pos Q) + n).
  { apply digits2_pos_unique. rewrite <- HP.
    replace (Z.pos (digits2_pos Q) + n - 1) with ((Z.pos (digits2_pos Q) - 1) + n) by lia.
    rewrite !Z.pow_add_r by lia. hide_pow. nia. }
  unfold binary_round_aux, shr_fexp.
  change (Zdigits2 (Z.pos P)) with (Z.pos (digits2_pos P)).
  change (shr_record_of_loc (Z.pos P) loc_Exact) with (Build_shr_record (Z.pos P) false false).
  rewrite HdP. replace (Z.pos (digits2_pos Q) + n + (E - n)) with (Z.pos (digits2_pos Q) + E) by lia.
  rewrite Hf. replace (E - (E - n)) with n by lia.
  destruct (shr_spec (Z.pos P) (E - n) n ltac:(lia) ltac:(lia)) as (r & s & Heq & Hex).
  assert (Hmod : Z.pos P mod 2 ^ n = 0) by (rewrite <- HP; apply Z.mod_mul; lia).
  destruct (Hex Hmod) as [-> ->]. rewrite Heq.
  replace (Z.pos P / 2 ^ n) with (Z.pos Q) by (rewrite <- HP, Z.div_mul; lia).
  replace (E - n + n) with E by lia.
  cbn [shr_m loc_of_shr_record round_nearest_even].
  change (Zdigits2 (Z.pos Q)) with (Z.pos (digits2_pos Q)).
  rewrite Hf, Z.sub_diag. cbn [shr shr_record_of_loc shr_m].
  replace (E <=? emax - prec) with true; [reflexivity |].
  symmetry. apply Z.leb_le. unfold emax, prec. lia.
Qed.

(** The representation of a whole number with a 53-bit mantissa is the
    one [ofZ] gives. *)
Lemma ofZ_unique (z : Z) (Q : positive) (E : Z) :
  0 < z -> E <= 0 -> Z.pos Q = z * 2 ^ (- E) -> Z.pos (digits2_pos Q) = 53 ->
  ofZ z = S754_finite false Q E.
Proof.
  intros Hz HE HQ HdQ.
  pose proof (digits2_pos_bounds Q) as [HQlo HQhi]. rewrite HdQ in HQlo, HQhi.
  assert (HpE : 0 < 2 ^ (- E)) by (apply Z.pow_pos_nonneg; lia).
  assert (Hz53 : z < 2 ^ 53) by nia.
  destruct (ofZ_exact z ltac:(lia)) as (m & e & -> & He & Hm & Hd).
  pose proof (digits2_pos_bounds m) as [Hmlo Hmhi]. rewrite Hd in Hmlo, Hmhi.
  change (2 ^ (53 - 1)) with 4503599627370496 in *.
  change (2 ^ 53) with 9007199254740992 in *.
  assert (HeE : e = E).
  { destruct (Z.lt_trichotomy e E) as [Hlt | [Heq | Hgt]]; [exfalso | exact Heq | exfalso].
    - replace (- e) with ((- E) + (E - e)) in Hm by lia.
      rewrite Z.pow_add_r in Hm by lia.
      assert (2 <= 2 ^ (E - e)).
      { change 2 with (2 ^ 1) at 1. apply Z.pow_le_mono_r; lia. }
      set (pE := 2 ^ (- E)) in *. set (q := 2 ^ (E - e)) in *.
      assert (H2 : 2 * (z * pE) <= z * pE * q) by nia.
      rewrite Z.mul_assoc in Hm. lia.
    - replace (- E) with ((- e) + (e - E)) in HQ by lia.
      rewrite Z.pow_add_r in HQ by lia.
      assert (2 <= 2 ^ (e - E)).
      { change 2 with (2 ^ 1) at 1. apply Z.pow_le_mono_r; lia. }
      assert (0 < 2 ^ (- e)) by (apply Z.pow_pos_nonneg; lia).
      set (pe := 2 ^ (- e)) in *. set (q := 2 ^ (e - E)) in *.
      assert (H2 : 2 * (z * pe) <= z * pe * q) by nia.
      rewrite Z.mul_assoc in HQ. lia. }
  subst e. f_equal. apply Pos2Z.inj. congruence.
Qed.

(** The product of two whole numbers is exact as long as it stays below
    [2^53]. *)
Lemma mul_ofZ (a b : Z) :
  0 <= a < 2 ^ 53 -> 0 <= b < 2 ^ 53 -> a * b < 2 ^ 53 ->
  mul (ofZ a) (ofZ b) = ofZ (a * b).
Proof.
  intros Ha Hb Hab.
  destruct (Z.eq_dec a 0) as [-> | Ha0].
  { destruct (Z.eq_dec b 0) as [-> | Hb0]; [reflexivity |].
    destruct (ofZ_exact b ltac:(lia)) as (mb & eb & -> & _). reflexivity. }
  destruct (Z.eq_dec b 0) as [-> | Hb0].
  { rewrite Z.mul_0_r. destruct (ofZ_exact a ltac:(lia)) as (ma & ea & -> & _). reflexivity. }
  destruct (ofZ_exact a ltac:(lia)) as (ma & ea & -> & Hea & Hma & Hda).
  destruct (ofZ_exact b ltac:(lia)) as (mb & eb & -> & Heb & Hmb & Hdb).
  destruct (ofZ_exact (a * b) ltac:(nia)) as (mz & ez & -> & Hez & Hmz & Hdz).
  pose proof (digits2_pos_bounds ma) as [Hmalo _]. rewrite Hda in Hmalo.
  pose proof (digits2_pos_bounds mb) as [Hmblo _]. rewrite Hdb in Hmblo.
  pose proof (digits2_pos_bounds mz) as [_ Hmzhi]. rewrite Hdz in Hmzhi.
  change (2 ^ (53 - 1)) with 4503599627370496 in *.
  change (2 ^ 53) with 9007199254740992 in *.
  assert (Hprod : Z.pos ma * Z.pos mb = a * b * 2 ^ (- ea - eb)).
  { rewrite Hma, Hmb. replace (- ea - eb) with ((- ea) + (- eb)) by lia.
    rewrite Z.pow_add_r by lia. ring. }
  assert (Hn : 0 <= ez - ea - eb).
  { destruct (Z.le_gt_cases 0 (ez - ea - eb)) as [? | Hneg]; [assumption | exfalso].
    assert (Hle : 2 ^ (- ea - eb) <= 2 ^ (- ez)) by (apply Z.pow_le_mono_r; lia).
    assert (0 < 2 ^ (- ea - eb)) by (apply Z.pow_pos_nonneg; lia).
    assert (Hbig : 4503599627370496 * 4503599627370496 <= Z.pos ma * Z.pos mb) by nia.
    rewrite Hprod in Hbig.
    assert (a * b * 2 ^ (- ea - eb) <= a * b * 2 ^ (- ez)) by nia.
    lia. }
  unfold mul; cbn [SFmul xorb]. rewrite Pos2Z.inj_mul.
  replace (Z.pos ma * Z.pos mb) with (Z.pos mz * 2 ^ (ez - ea - eb)).
  - replace (ea + eb) with (ez - (ez - ea - eb)) by lia.
    apply round_aux_exact_shift; [assumption | rewrite fexp_eq, Hdz; lia | lia].
  - rewrite Hprod, Hmz, <- Z.mul_assoc, <- Z.pow_add_r by lia. f_equal. f_equal. lia.
Qed.

(** The sum of two whole numbers is exact as long as it stays below
    [2^53]. *)
Lemma add_ofZ (a b : Z) :
  0 <= a -> 0 <= b -> a + b < 2 ^ 53 -> add (ofZ a) (ofZ b) = ofZ (a + b).
Proof.
  intros Ha Hb Hab.
  destruct (Z.eq_dec a 0) as [-> | Ha0].
  { destruct (Z.eq_dec b 0) as [-> | Hb0]; [reflexivity |].
    destruct (ofZ_exact b ltac:(lia)) as (mb & eb & Heq & _).
    rewrite Z.add_0_l, Heq. reflexivity. }
  destruct (Z.eq_dec b 0) as [-> | Hb0].
  { rewrite Z.add_0_r. destruct (ofZ_exact a ltac:(lia)) as (ma & ea & -> & _). reflexivity. }
  destruct (ofZ_exact a ltac:(lia)) as (ma & ea & -> & Hea & Hma & Hda).
  destruct (ofZ_exact b ltac:(lia)) as (mb & eb & -> & Heb & Hmb & Hdb).
  destruct (ofZ_exact (a + b) ltac:(lia)) as (mz & ez & -> & Hez & Hmz & Hdz).
  pose proof (digits2_pos_bounds ma) as [Hmalo _]. rewrite Hda in Hmalo.
  pose proof (digits2_pos_bounds mb) as [Hmblo _]. rewrite Hdb in Hmblo.
  pose proof (digits2_pos_bounds mz) as [_ Hmzhi]. rewrite Hdz in Hmzhi.
  change (2 ^ (53 - 1)) with 4503599627370496 in *.
  change (2 ^ 53) with 9007199254740992 in *.
  assert (Hmono : forall x mx ex, 0 < x <= a + b -> -52 <= ex <= 0 ->
            Z.pos mx = x * 2 ^ (- ex) -> 4503599627370496 <= Z.pos mx -> ex <= ez).
  { intros x mx ex Hx Hex Hmx Hlo.
    destruct (Z.le_gt_cases ex ez) as [? | Hgt]; [assumption | exfalso].
    replace (- ez) with ((- ex) + (ex - ez)) in Hmz by lia.
    rewrite Z.pow_add_r in Hmz by lia.
    assert (2 <= 2 ^ (ex - ez)).
    { change 2 with (2 ^ 1) at 1. apply Z.pow_le_mono_r; lia. }
    assert (0 < 2 ^ (- ex)) by (apply Z.pow_pos_nonneg; lia).
    set (px := 2 ^ (- ex)) in *. set (q := 2 ^ (ex - ez)) in *.
    assert (H1 : x * px <= (a + b) * px) by nia.
    assert (H2 : 2 * ((a + b) * px) <= (a + b) * px * q) by nia.
    rewrite Z.mul_assoc in Hmz. lia. }
  pose proof (Hmono a ma ea ltac:(lia) Hea Hma Hmalo) as Hae.
  pose proof (Hmono b mb eb ltac:(lia) Heb Hmb Hmblo) as Hbe.
  unfold add; cbn [SFadd cond_Zopp].
  set (e0 := IntDef.Z.min ea eb).
  assert (He0 : e0 = Z.min ea eb) by reflexivity.
  pose proof (shl_align_spec ma ea e0) as Hsa.
  pose proof (shl_align_spec mb eb e0) as Hsb.
  destruct (shl_align ma ea e0) as [ma' ea']. destruct (shl_align mb eb e0) as [mb' eb'].
  destruct Hsa as [Hea' Hma']. destruct Hsb as [Heb' Hmb']. cbn [fst].
  assert (Hsum : Z.pos ma' + Z.pos mb' = Z.pos mz * 2 ^ (ez - e0)).
  { rewrite Hma', Hmb', Hma, Hmb, Hmz.
    replace (ea - ea') with (ea - e0) by lia. replace (eb - eb') with (eb - e0) by lia.
    rewrite <- !Z.mul_assoc, <- !Z.pow_add_r by lia.
    replace (- ea + (ea - e0)) with (- e0) by lia.
    replace (- eb + (eb - e0)) with (- e0) by lia.
    replace (- ez + (ez - e0)) with (- e0) by lia. ring. }
  rewrite Hsum.
  assert (Hp : 0 < 2 ^ (ez - e0)) by (apply Z.pow_pos_nonneg; lia).
  destruct (Z.pos mz * 2 ^ (ez - e0)) as [| S |] eqn:HS; try lia.
  assert (HdS : Z.pos (digits2_pos S) = 53 + (ez - e0)).
  { apply digits2_pos_unique. rewrite <- HS.
    pose proof (digits2_pos_bounds mz) as [Hlo Hhi]. rewrite Hdz in Hlo, Hhi.
    replace (53 + (ez - e0) - 1) with ((53 - 1) + (ez - e0)) by lia.
    rewrite !Z.pow_add_r by lia. hide_pow. nia. }
  unfold binary_normalize, binary_round.
  pose proof (shl_align_spec S e0 (fexp prec emax (Z.pos (digits2_pos S) + e0))) as Hs.
  destruct (shl_align S e0 _) as [mS eS]. destruct Hs as [HeS HmS].
  rewrite fexp_eq, HdS in HeS.
  assert (HeS' : eS = e0) by lia. rewrite HeS' in *.
  rewrite Z.sub_diag, Z.pow_0_r, Z.mul_1_r in HmS. rewrite HmS, <- HS.
  replace e0 with (ez - (ez - e0)) at 2 by lia.
  apply round_aux_exact_shift; [lia | rewrite fexp_eq, Hdz; lia | lia].
Qed.

(** X23: the fallback of [getVideoDetails] reads a duration text exactly.
    When the page is not live and the video element gives no usable
    duration, a text of hours, minutes and seconds (whole numbers, not
    negative) gives [3600 * hours + 60 * minutes + seconds], with no upper
    limit, and the default of 300 only when that sum is zero. *)
Theorem getVideoDetails_duration_text (p : PlayerPage) (hours minutes seconds : Z) :
  pp_liveBadge p || pp_liveText p = false ->
  reliableDuration p = None ->
  pp_durationParts p = Some [ofZ hours; ofZ minutes; ofZ seconds] ->
  0 <= hours -> 0 <= minutes -> 0 <= seconds ->
  3600 * hours + 60 * minutes + seconds < 2 ^ 53 ->
  durationSeconds (getVideoDetails (Returns p))
  = ofZ (if 3600 * hours + 60 * minutes + seconds =? 0 then 300
         else 3600 * hours + 60 * minutes + seconds).
Proof.
  intros Hlive Hrel Hparts Hh Hm Hs Hsum.
  assert (H53 : 2 ^ 53 = 9007199254740992) by reflexivity.
  unfold getVideoDetails. rewrite Hlive, Hrel, Hparts. cbn [durationSeconds].
  unfold parseDurationParts.
  rewrite (mul_ofZ hours 3600), (mul_ofZ minutes 60) by lia.
  rewrite add_ofZ, add_ofZ by lia.
  replace (hours * 3600 + minutes * 60 + seconds)
    with (3600 * hours + 60 * minutes + seconds) by lia.
  set (total := 3600 * hours + 60 * minutes + seconds) in *.
  destruct (Z.eqb_spec total 0) as [-> | Hne]; [reflexivity |].
  destruct (ofZ_exact total ltac:(lia)) as (m & e & -> & _). reflexivity.
Qed.

Lemma getVideoDetails_duration_text_witness :
  durationSeconds
    (getVideoDetails
       (Returns (MoreExamples.playerPage None (Some [ofZ 12; ofZ 0; ofZ 5]))))
  = ofZ (if 3600 * 12 + 60 * 0 + 5 =? 0 then 300 else 3600 * 12 + 60 * 0 + 5).
Proof.
  apply (getVideoDetails_duration_text
           (MoreExamples.playerPage None (Some [ofZ 12; ofZ 0; ofZ 5])) 12 0 5);
    [reflexivity | reflexivity | reflexivity | lia | lia | lia | vm_compute; reflexivity].
Defined.

End ExactArithmetic.

(** ** How the watch loop is left *)

Section WatchLoopExits.
Import VideoService.

Lemma watchLoop_video_ended (fuel : nat) (w : WatchScript) (vid : string)
    (target : number) (k j : nat) (elapsed : Z) :
  (forall i, (j <= i < j + k)%nat ->
     exists st, ws_poll w i = Returns st /\ (videoId st = Some vid \/ vid = "") /\
                hasEnded st = false /\ isNearEnd st = false /\
                (isPaused st = true -> ws_resume w i = Returns tt)) ->
  (exists st, ws_poll w (j + k)%nat = Returns st /\ (videoId st = Some vid \/ vid = "") /\
              hasEnded st || isNearEnd st = true) ->
  (forall i, (i <= k)%nat -> ltb (ofZ (elapsed + 10 * Z.of_nat i)) target = true) ->
  (k < fuel)%nat ->
  watchLoop fuel w vid target j elapsed = Some (Returns VideoEnded).
Proof.
  assert (Hsame : forall st : VideoState, videoId st = Some vid \/ vid = "" ->
            negb (bool_decide (videoId st = Some vid)) && negb (String.eqb vid "") = false).
  { intros st [Hid | ->]; [rewrite bool_decide_true by exact Hid; reflexivity |].
    apply andb_false_r. }
  revert fuel j elapsed.
  induction k as [| k IH]; intros fuel j elapsed Hsteady Hend Hlt Hfuel.
  - destruct fuel as [| fuel]; [lia |]. cbn [watchLoop].
    pose proof (Hlt 0%nat ltac:(lia)) as H0. rewrite Z.mul_0_r, Z.add_0_r in H0.
    rewrite H0. cbn [negb].
    destruct Hend as (st & Hp & Hid & He). rewrite Nat.add_0_r in Hp.
    rewrite Hp, (Hsame st Hid), He. reflexivity.
  - destruct fuel as [| fuel]; [lia |]. cbn [watchLoop].
    pose proof (Hlt 0%nat ltac:(lia)) as H0. rewrite Z.mul_0_r, Z.add_0_r in H0.
    rewrite H0. cbn [negb].
    destruct (Hsteady j ltac:(lia)) as (st & Hp & Hid & He & Hn & Hres).
    rewrite Hp, (Hsame st Hid), He, Hn. cbn [orb].
    assert (Hr : (if isPaused st then ws_resume w j else Returns tt) = Returns tt).
    { destruct (isPaused st); [apply Hres; reflexivity | reflexivity]. }
    rewrite Hr. apply IH.
    + intros i Hi. apply Hsteady. lia.
    + replace (S j + k)%nat with (j + S k)%nat by lia. exact Hend.
    + intros i Hi. specialize (Hlt (S i) ltac:(lia)).
      unfold checkInterval. rewrite Nat2Z.inj_succ in Hlt.
      replace (elapsed + 10 + 10 * Z.of_nat i)
        with (elapsed + 10 * Z.succ (Z.of_nat i)) by lia. exact Hlt.
    + lia.
Qed.

(** X24: the watch stops at the first poll that reports the video as ended
    or within five seconds of its end, however long the watch time is: when
    the polls before number [k] let the loop go on and poll [k] reports the
    end, [watchVideo] returns [true] after [k + 1] polls. *)
Theorem watchVideo_stops_at_end_of_video (fuel : nat) (w : WatchScript)
    (watchTimeSeconds : number) (vid : string) (k : nat) :
  ws_start w = Returns tt ->
  ws_initialVideoId w = Returns vid ->
  (forall i, (i < k)%nat ->
     exists st, ws_poll w i = Returns st /\ (videoId st = Some vid \/ vid = "") /\
                hasEnded st = false /\ isNearEnd st = false /\
                (isPaused st = true -> ws_resume w i = Returns tt)) ->
  (exists st, ws_poll w k = Returns st /\ (videoId st = Some vid \/ vid = "") /\
              hasEnded st || isNearEnd st = true) ->
  (forall i, (i <= k)%nat -> ltb (ofZ (10 * Z.of_nat i)) watchTimeSeconds = true) ->
  (k < fuel)%nat ->
  watchLoop fuel w vid watchTimeSeconds 0 0 = Some (Returns VideoEnded) /\
  watchLoop (S k) w vid watchTimeSeconds 0 0 = Some (Returns VideoEnded) /\
  watchVideo fuel w watchTimeSeconds = Some true.
Proof.
  intros Hstart Hvid Hsteady Hend Hlt Hfuel.
  assert (Hloop : forall f, (k < f)%nat ->
            watchLoop f w vid watchTimeSeconds 0 0 = Some (Returns VideoEnded)).
  { intros f Hf. apply (watchLoop_video_ended f w vid watchTimeSeconds k 0 0).
    - intros i Hi. apply Hsteady. lia.
    - exact Hend.
    - intros i Hi. rewrite Z.add_0_l. apply Hlt. exact Hi.
    - exact Hf. }
  split; [apply Hloop; exact Hfuel |]. split; [apply Hloop; lia |].
  unfold watchVideo. rewrite Hstart, Hvid, (Hloop fuel Hfuel). reflexivity.
Qed.

Lemma watchVideo_stops_at_end_of_video_witness :
  watchLoop 100 MoreExamples.endingWatch "dQw4w9WgXcQ" (ofZ 420) 0 0
  = Some (Returns VideoEnded) /\
  watchLoop 3 MoreExamples.endingWatch "dQw4w9WgXcQ" (ofZ 420) 0 0
  = Some (Returns VideoEnded) /\
  watchVideo 100 MoreExamples.endingWatch (ofZ 420) = Some true.
Proof.
  apply (watchVideo_stops_at_end_of_video 100 MoreExamples.endingWatch (ofZ 420)
           "dQw4w9WgXcQ" 2).
  - reflexivity.
  - reflexivity.
  - intros i Hi. exists (Examples.playing "dQw4w9WgXcQ").
    destruct i as [| [| i]]; [| | lia]; repeat split; auto; discriminate.
  - eexists. split; [reflexivity |]. split; [left; reflexivity | reflexivity].
  - intros i Hi. destruct i as [| [| [| i]]]; [| | | lia]; vm_compute; reflexivity.
  - lia.
Defined.

(** X25: autoplay goes unnoticed when the address of the video page held
    no video identifier.  With an empty initial identifier the comparison
    of identifiers is switched off: whatever identifiers the polls report,
    a watch that meets no end of video and no error runs until the watch
    time is reached. *)
Theorem watchVideo_without_initial_id (fuel n : nat) (w : WatchScript)
    (watchTimeSeconds : number) :
  ws_start w = Returns tt ->
  ws_initialVideoId w = Returns "" ->
  (forall i, exists st, ws_poll w i = Returns st /\
                        hasEnded st = false /\ isNearEnd st = false /\
                        (isPaused st = true -> ws_resume w i = Returns tt)) ->
  ltb (ofZ (10 * Z.of_nat n)) watchTimeSeconds = false ->
  (n <= fuel)%nat ->
  watchLoop fuel w "" watchTimeSeconds 0 0 = Some (Returns TargetReached) /\
  watchVideo fuel w watchTimeSeconds = Some true.
Proof.
  intros Hstart Hvid Hpoll Hstop Hfuel.
  assert (Hloop : forall m f j elapsed,
            ltb (ofZ (elapsed + 10 * Z.of_nat m)) watchTimeSeconds = false ->
            (m <= f)%nat ->
            watchLoop f w "" watchTimeSeconds j elapsed = Some (Returns TargetReached)).
  { induction m as [| m IH]; intros f j elapsed Hs Hf.
    - rewrite Z.mul_0_r, Z.add_0_r in Hs.
      destruct f; cbn [watchLoop]; rewrite Hs; reflexivity.
    - destruct f as [| f]; [lia |]. cbn [watchLoop].
      destruct (negb (ltb (ofZ elapsed) watchTimeSeconds)); [reflexivity |].
      destruct (Hpoll j) as (st & Hp & He & Hn & Hres).
      rewrite Hp, He, Hn. cbn [String.eqb negb andb orb].
      assert (Hr : (if isPaused st then ws_resume w j else Returns tt) = Returns tt).
      { destruct (isPaused st); [apply Hres; reflexivity | reflexivity]. }
      rewrite andb_false_r, Hr. apply IH; [| lia].
      unfold checkInterval. rewrite Nat2Z.inj_succ in Hs.
      replace (elapsed + 10 + 10 * Z.of_nat m)
        with (elapsed + 10 * Z.succ (Z.of_nat m)) by lia. exact Hs. }
  assert (H0 : watchLoop fuel w "" watchTimeSeconds 0 0 = Some (Returns TargetReached)).
  { apply (Hloop n); [rewrite Z.add_0_l; exact Hstop | exact Hfuel]. }
  split; [exact H0 |]. unfold watchVideo. rewrite Hstart, Hvid, H0. reflexivity.
Qed.

Lemma watchVideo_without_initial_id_witness :
  watchLoop 100 MoreExamples.unnamedWatch "" (ofZ 25) 0 0 = Some (Returns TargetReached) /\
  watchVideo 100 MoreExamples.unnamedWatch (ofZ 25) = Some true.
Proof.
  apply (watchVideo_without_initial_id 100 3 MoreExamples.unnamedWatch (ofZ 25)).
  - reflexivity.
  - reflexivity.
  - intros i. eexists. split; [reflexivity |]. repeat split; discriminate.
  - vm_compute. reflexivity.
  - lia.
Defined.

End WatchLoopExits.
